(** * refactor_pricing_package.py: a shallow embedding and its properties

    The script moves a fixed list of Java files of the flat package
    [com.meatrics.pricing] into per-domain sub-packages, rewrites the
    [package] declaration of every moved file, and rewrites the imports of
    every [*.java] file below the base directory.

    Modelling choices.
    - A Python [str] is a list of Unicode code points ([text := list N]).
      A file is represented by the text that [f.read()] returns for it.
    - The two library calls that do the work, [re.sub] / [re.search] and
      [str.replace], are modelled operationally: a backtracking matcher for
      the fragment of regular expressions the script uses, and a
      left-to-right scan that replaces leftmost non-overlapping matches.
    - The Unicode tables behind [\w] and [str.lower] are not part of the
      script; their non-ASCII part is a section variable.
    - The file system is a finite map from paths (relative to [BASE_DIR])
      to nodes; every mutation is also recorded in a log, and everything
      printed in an output trace. *)

From Stdlib Require Import NArith Ascii String List Lia Bool Arith.
From stdpp Require Import base option list gmap sorting.

Local Open Scope list_scope.

#[local] Set Default Proof Using "Type".

(** ** Text *)

Definition char := N.
Definition text := list char.

(** A string literal of the script, as text. *)
Definition str (s : string) : text :=
  List.map N_of_ascii (list_ascii_of_string s).

Definition LF : char := 10%N.
Definition SEMI : char := 59%N.

(** [Py_UNICODE_ISSPACE]: what [\s] matches in a [str] pattern. *)
Definition is_space (c : char) : bool :=
  ((9 <=? c) && (c <=? 13) || (28 <=? c) && (c <=? 32)
   || (c =? 133) || (c =? 160) || (c =? 5760)
   || (8192 <=? c) && (c <=? 8202)
   || (c =? 8232) || (c =? 8233) || (c =? 8239) || (c =? 8287)
   || (c =? 12288))%N.

Definition is_ascii_alnum (c : char) : bool :=
  ((48 <=? c) && (c <=? 57) || (65 <=? c) && (c <=? 90)
   || (97 <=? c) && (c <=? 122))%N.

Fixpoint text_eqb (a b : text) : bool :=
  match a, b with
  | [], [] => true
  | x :: a', y :: b' => (x =? y)%N && text_eqb a' b'
  | _, _ => false
  end.

(** [s.startswith(p)], returning what follows the prefix. *)
Fixpoint strip_prefix (p s : text) : option text :=
  match p, s with
  | [], _ => Some s
  | x :: p', y :: s' => if (x =? y)%N then strip_prefix p' s' else None
  | _ :: _, [] => None
  end.

Definition starts_with (p s : text) : bool :=
  match strip_prefix p s with Some _ => true | None => false end.

(** [p in s] for strings. *)
Fixpoint contains (p s : text) : bool :=
  starts_with p s ||
  match s with
  | [] => false
  | _ :: s' => contains p s'
  end.

(** [sep.join(parts)]. *)
Fixpoint join (sep : text) (parts : list text) : text :=
  match parts with
  | [] => []
  | [p] => p
  | p :: ps => p ++ sep ++ join sep ps
  end.

(** Comparison of two [str] values: lexicographic on code points. *)
Fixpoint text_leb (a b : text) : bool :=
  match a, b with
  | [], _ => true
  | _ :: _, [] => false
  | x :: a', y :: b' => (x <? y)%N || ((x =? y)%N && text_leb a' b')
  end.

Definition text_le (a b : text) : Prop := text_leb a b = true.

Definition text_lt (a b : text) : Prop := text_le a b /\ a <> b.

#[global] Instance text_le_dec : RelDecision text_le.
Proof. intros a b. unfold text_le. apply bool_eq_dec. Defined.

(** [sorted(xs)] on strings. *)
Definition sorted (xs : list text) : list text := merge_sort text_le xs.

(** ** Leftmost non-overlapping substitution

    Both [re.sub] and [str.replace] scan the subject from left to right;
    where a match starts, the replacement is emitted and the scan resumes
    after the match, elsewhere the character is copied.  [skip] counts the
    characters of the current match that are still to be passed over and
    [prev] is the character before the current position. *)

Section Scan.
Variable try_match : option char -> text -> option text.
Variable repl : text.

Fixpoint scan_sub (skip : nat) (prev : option char) (s : text) : text :=
  match s with
  | [] => []
  | x :: s' =>
    match skip with
    | S k => scan_sub k (Some x) s'
    | O =>
      match try_match prev s with
      | Some rest =>
        if length rest <? length s
        then repl ++ scan_sub (length s - length rest - 1) (Some x) s'
        else x :: scan_sub 0 (Some x) s'
      | None => x :: scan_sub 0 (Some x) s'
      end
    end
  end.

(** Does a match start at some position of [s]? *)
Fixpoint matches_somewhere (prev : option char) (s : text) : bool :=
  match s with
  | [] => false
  | x :: s' =>
    match try_match prev s with
    | Some _ => true
    | None => matches_somewhere (Some x) s'
    end
  end.


End Scan.

(** [s.replace(old, new)].  For an empty [old] Python puts [new] before
    every character and at the end. *)
Definition str_replace (old new s : text) : text :=
  match old with
  | [] => new ++ flat_map (fun c => c :: new) s
  | _ :: _ => scan_sub (fun _ => strip_prefix old) new 0 None s
  end.

(** ** The fragment of [re] the script uses *)

Inductive atom :=
| Bol                           (* ^ under re.MULTILINE *)
| WordB                         (* \b *)
| Lit (c : char)                (* a literal character *)
| Star (cls : char -> bool)     (* cls*, greedy *)
| Plus (cls : char -> bool).    (* cls+, greedy *)

Definition regex := list atom.

Definition lits (s : text) : regex := List.map Lit s.

(** [^] under [re.MULTILINE]: at the start of the subject or just after a
    line feed. *)
Definition at_bol (prev : option char) : bool :=
  match prev with
  | None => true
  | Some c => (c =? LF)%N
  end.

(** Greedy repetition of a character class followed by the continuation
    [k]: take as many characters as possible, give them back one at a time
    while [k] fails. *)
Definition greedy (cls : char -> bool)
    (k : option char -> text -> option text) :
    option char -> text -> option text :=
  fix star prev s :=
    match s with
    | x :: s' =>
      if cls x
      then match star (Some x) s' with
           | Some r => Some r
           | None => k prev s
           end
      else k prev s
    | [] => k prev s
    end.

(** ** Configuration *)

Definition path := list text.

(** [BASE_DIR] is the root of the modelled tree: paths are relative to it. *)
Definition BASE_DIR : path := [].
Definition PRICING_DIR : path := BASE_DIR ++ [str "pricing"].

(** A [dict] with string keys, in insertion order. *)
Definition dict (V : Type) := list (text * V).

Fixpoint dict_get {V} (k : text) (d : dict V) : option V :=
  match d with
  | [] => None
  | (k', v) :: d' => if text_eqb k k' then Some v else dict_get k d'
  end.

(** [d[k] = v]: an existing key keeps its position. *)
Fixpoint dict_set {V} (k : text) (v : V) (d : dict V) : dict V :=
  match d with
  | [] => [(k, v)]
  | (k', v') :: d' =>
    if text_eqb k k' then (k, v) :: d' else (k', v') :: dict_set k v d'
  end.

Definition dict_keys {V} (d : dict V) : list text := List.map fst d.

Definition DOMAINS : dict (list text) :=
  [ (str "customer",
     [ str "Customer.java";
       str "CustomerRepository.java";
       str "CustomerRatingService.java";
       str "CustomerRatingReportDTO.java" ]);
    (str "rule",
     [ str "PricingRule.java";
       str "PricingRuleRepository.java";
       str "PricingRuleService.java";
       str "RuleCategory.java";
       str "RulePreviewResult.java" ]);
    (str "session",
     [ str "PricingSession.java";
       str "PricingSessionRepository.java";
       str "PricingSessionService.java";
       str "PricingSessionLineItem.java";
       str "PricingSessionLineItemRepository.java" ]);
    (str "calculation",
     [ str "PriceCalculationService.java";
       str "PricePreview.java";
       str "PricingResult.java" ]);
    (str "importer",
     [ str "ImportSummary.java";
       str "ImportSummaryRepository.java";
       str "ImportedLineItem.java";
       str "ImportedLineItemRepository.java";
       str "PricingImportService.java";
       str "ProductCostImportService.java";
       str "CostImportSummary.java";
       str "CostImportSummaryRepository.java";
       str "DuplicateImportException.java" ]);
    (str "product",
     [ str "ProductCost.java";
       str "ProductCostRepository.java";
       str "GroupedLineItem.java";
       str "GroupedLineItemRepository.java" ]);
    (str "report",
     [ str "ReportExportService.java";
       str "CostReportDTO.java" ]);
    (str "config",
     [ str "SystemDefaultPricingRuleInitializer.java" ]) ].

(** The (domain, filename) pairs in the order the nested loops over
    [DOMAINS.items()] visit them. *)
Definition domain_files : list (text * text) :=
  flat_map (fun '(domain, files) => List.map (fun f => (domain, f)) files)
           DOMAINS.

(** The class name of a file of the table: [filename.replace(".java", "")]. *)
Definition classname_of (filename : text) : text :=
  str_replace (str ".java") [] filename.

(** The loop that builds [CLASS_TO_DOMAIN]. *)
Definition CLASS_TO_DOMAIN : dict text :=
  fold_left
    (fun acc '(domain, filename) =>
       let classname := classname_of filename in
       dict_set classname domain acc)
    domain_files [].

(** ** Rewriting one file's text *)

Definition OLD_PACKAGE : text := str "com.meatrics.pricing".

(** [r'^package\s+com\.meatrics\.pricing\s*;'] *)
Definition package_re : regex :=
  Bol :: lits (str "package") ++ [Plus is_space] ++ lits OLD_PACKAGE
      ++ [Star is_space; Lit SEMI].

(** [f'package {new_package};'] with
    [new_package = f"com.meatrics.pricing.{domain}"]. *)
Definition new_declaration (domain : text) : text :=
  str "package " ++ (str "com.meatrics.pricing." ++ domain) ++ str ";".

Definition old_import (classname : text) : text :=
  str "import com.meatrics.pricing." ++ classname ++ str ";".

Definition new_import (domain classname : text) : text :=
  str "import com.meatrics.pricing." ++ domain ++ str "." ++ classname
      ++ str ";".

Definition WILDCARD : text := str "import com.meatrics.pricing.*;".

(** [r'\b' + classname + r'\b'] *)
Definition class_re (classname : text) : regex :=
  WordB :: lits classname ++ [WordB].

(** The tables restricted to ASCII, for concrete runs: no code point above
    ASCII is alphanumeric, and only A-Z have a lower-case form. *)
Definition ascii_alnum_only : char -> bool := fun _ => false.

Definition ascii_lower (s : text) : text :=
  List.map (fun c => if ((65 <=? c) && (c <=? 90))%N then (c + 32)%N else c) s.

Section Unicode.
(** [Py_UNICODE_ISALNUM] on the code points above ASCII. *)
Variable uni_alnum : char -> bool.

(** What [\w] matches in a [str] pattern. *)
Definition is_word (c : char) : bool :=
  if (c <? 128)%N then is_ascii_alnum c || (c =? 95)%N else uni_alnum c.

Definition word_before (prev : option char) : bool :=
  match prev with Some c => is_word c | None => false end.

Definition word_here (s : text) : bool :=
  match s with c :: _ => is_word c | [] => false end.

(** [\b]: exactly one side is a word character. *)
Definition at_boundary (prev : option char) (s : text) : bool :=
  xorb (word_before prev) (word_here s).

(** Match [re] at the current position; the result is the text after
    the match. *)
Fixpoint match_here (re : regex) (prev : option char) (s : text)
    {struct re} : option text :=
  match re with
  | [] => Some s
  | Bol :: re' => if at_bol prev then match_here re' prev s else None
  | WordB :: re' =>
    if at_boundary prev s then match_here re' prev s else None
  | Lit c :: re' =>
    match s with
    | x :: s' => if (x =? c)%N then match_here re' (Some x) s' else None
    | [] => None
    end
  | Star cls :: re' => greedy cls (match_here re') prev s
  | Plus cls :: re' =>
    match s with
    | x :: s' =>
      if cls x then greedy cls (match_here re') (Some x) s' else None
    | [] => None
    end
  end.

(** [re.search(re, s) is not None]. *)
Fixpoint search_from (re : regex) (prev : option char) (s : text) : bool :=
  match match_here re prev s with
  | Some _ => true
  | None =>
    match s with
    | [] => false
    | x :: s' => search_from re (Some x) s'
    end
  end.

Definition re_search (re : regex) (s : text) : bool :=
  search_from re None s.

(** [re.sub(re, repl, s, flags=re.MULTILINE)], for patterns that cannot
    match the empty string. *)
Definition re_sub (re : regex) (repl s : text) : text :=
  scan_sub (match_here re) repl 0 None s.


(** The package-declaration step of [move_files_and_update_packages]. *)
Definition rewrite_package (domain content : text) : text :=
  re_sub package_re (new_declaration domain) content.

(** First loop of the per-file body of [update_imports]: the explicit
    imports, one class after the other.  The state is the content and
    [file_import_count]. *)
Definition update_specific (content : text) : text * nat :=
  fold_left
    (fun '(content, count) '(classname, domain) =>
       if contains (old_import classname) content
       then (str_replace (old_import classname)
                         (new_import domain classname) content,
             S count)
       else (content, count))
    CLASS_TO_DOMAIN (content, 0).

(** [used_classes]: the known classes that [re.search] finds. *)
Definition used_classes (content : text) : list text :=
  List.filter (fun classname => re_search (class_re classname) content)
              (dict_keys CLASS_TO_DOMAIN).

(** [new_imports]: one import per used class, in sorted order.  The
    lookup cannot fail: the classes are keys of [CLASS_TO_DOMAIN]. *)
Definition new_imports (used : list text) : list text :=
  List.map
    (fun classname =>
       match dict_get classname CLASS_TO_DOMAIN with
       | Some domain => new_import domain classname
       | None => []
       end)
    (sorted used).

(** Second part of the per-file body: the wildcard import. *)
Definition update_wildcard (st : text * nat) : text * nat :=
  let '(content, count) := st in
  if contains WILDCARD content
  then match used_classes content with
       | [] => (content, count)
       | used =>
         (str_replace WILDCARD (join [LF] (new_imports used)) content,
          count + length (new_imports used))
       end
  else (content, count).

(** The new content of a file and its [file_import_count]. *)
Definition update_content (original_content : text) : text * nat :=
  update_wildcard (update_specific original_content).

(** ** The file system and the effects of the script *)

Inductive node :=
| Dir
| File (content : text).

#[global] Instance node_eq_dec : EqDecision node.
Proof. solve_decision. Defined.

Inductive mutation :=
| Mkdir (p : path)
| Write (p : path) (content : text)
| Unlink (p : path).

Inductive os_error :=
| FileExistsError
| FileNotFoundError
| IsADirectoryError
| NotADirectoryError
| EOFError.

(** [SystemExit] and [KeyboardInterrupt] are not subclasses of
    [Exception]. *)
Inductive exc :=
| SystemExit (code : nat)
| KeyboardInterrupt
| Exception (e : os_error).

(** What the script prints, one constructor per [print] statement. *)
Inductive msg :=
| Header (title : text)
| Mode (dry_run : bool)
| TargetDirectory
| ErrorNotFound
| DryRunNotice
| Prompt
| Aborted
| Step (n : nat)
| WouldCreate (domain : text)
| Created (domain : text)
| DomainHeader (domain : text)
| WarnNotFound (filename : text)
| WouldMove (filename domain : text)
| Moved (filename : text)
| TotalMoved (n : nat)
| Updated (rel_path : path) (file_import_count : nat)
| FilesUpdated (n : nat)
| ImportsUpdated (n : nat)
| SummaryMoved (n : nat)
| SummaryFiles (n : nat)
| SummaryImports (n : nat)
| Verifying
| DomainCount (domain : text) (file_count : nat)
| DomainNotCreated (domain : text)
| UiCount (n : nat)
| TotalDomainFiles (n : nat)
| NextSteps
| DryRunHint
| AbortedByUser
| ErrorMessage (e : os_error)
| Traceback (e : os_error).

Record world := World {
  fs : gmap path node;
  log : list mutation;
  out : list msg
}.

(** A computation changes the world and either raises or returns. *)
Definition M (A : Type) : Type := world -> world * (exc + A).

Definition ret {A} (a : A) : M A := fun w => (w, inr a).

Definition bind {A B} (m : M A) (k : A -> M B) : M B :=
  fun w =>
    match m w with
    | (w', inl e) => (w', inl e)
    | (w', inr a) => k a w'
    end.

Definition raise {A} (e : exc) : M A := fun w => (w, inl e).

#[global] Instance M_ret : MRet M := @ret.
#[global] Instance M_bind : MBind M := fun A B k m => bind m k.

Definition print (m : msg) : M unit :=
  fun w => (World (fs w) (log w) (out w ++ [m]), inr tt).

Definition get_fs : M (gmap path node) := fun w => (w, inr (fs w)).

Definition mutate (mu : mutation)
    (f : gmap path node -> gmap path node) : M unit :=
  fun w => (World (f (fs w)) (log w ++ [mu]) (out w), inr tt).

(** [for x in xs: acc = body(acc, x)] *)
Fixpoint for_each {X A} (xs : list X) (body : A -> X -> M A) (acc : A)
    : M A :=
  match xs with
  | [] => ret acc
  | x :: xs' => acc' ← body acc x; for_each xs' body acc'
  end.

Definition parent (p : path) : path := removelast p.

Definition name (p : path) : text := List.last p [].

Definition ends_with (suffix s : text) : bool :=
  starts_with (rev suffix) (rev s).

(** [fnmatch(name, "*.java")] *)
Definition is_java (p : path) : bool := ends_with (str ".java") (name p).

Fixpoint path_eqb (p q : path) : bool :=
  match p, q with
  | [], [] => true
  | a :: p', b :: q' => text_eqb a b && path_eqb p' q'
  | _, _ => false
  end.

(** [q] lies strictly below [p]. *)
Fixpoint below (p q : path) : bool :=
  match p, q with
  | [], _ :: _ => true
  | a :: p', b :: q' => text_eqb a b && below p' q'
  | _, _ => false
  end.

(** [p.exists()] *)
Definition path_exists (p : path) : M bool :=
  m ← get_fs;
  ret (match m !! p with Some _ => true | None => false end).

(** [p.mkdir(exist_ok=True)] *)
Definition mkdir_exist_ok (p : path) : M unit :=
  m ← get_fs;
  match m !! p with
  | Some Dir => ret tt
  | Some (File _) => raise (Exception FileExistsError)
  | None =>
    match m !! parent p with
    | Some Dir => mutate (Mkdir p) (insert p Dir)
    | Some (File _) => raise (Exception NotADirectoryError)
    | None => raise (Exception FileNotFoundError)
    end
  end.

(** [open(p, 'r').read()] *)
Definition read_file (p : path) : M text :=
  m ← get_fs;
  match m !! p with
  | Some (File content) => ret content
  | Some Dir => raise (Exception IsADirectoryError)
  | None => raise (Exception FileNotFoundError)
  end.

(** [open(p, 'w').write(content)] *)
Definition write_file (p : path) (content : text) : M unit :=
  m ← get_fs;
  match m !! p with
  | Some Dir => raise (Exception IsADirectoryError)
  | Some (File _) => mutate (Write p content) (insert p (File content))
  | None =>
    match m !! parent p with
    | Some Dir => mutate (Write p content) (insert p (File content))
    | Some (File _) => raise (Exception NotADirectoryError)
    | None => raise (Exception FileNotFoundError)
    end
  end.

(** [p.unlink()] *)
Definition unlink (p : path) : M unit :=
  m ← get_fs;
  match m !! p with
  | Some (File _) => mutate (Unlink p) (delete p)
  | Some Dir => raise (Exception IsADirectoryError)
  | None => raise (Exception FileNotFoundError)
  end.

(** The paths [root.rglob("*.java")] yields, in the order of the
    directory scan (here: the order of the map's enumeration). *)
Definition rglob_java (root : path) : M (list path) :=
  m ← get_fs;
  ret (List.filter (fun q => below root q && is_java q)
                   (List.map fst (map_to_list m))).

(** [len(list(root.glob("*.java")))] *)
Definition glob_java_count (root : path) : M nat :=
  m ← get_fs;
  ret (length (List.filter
                 (fun q => below root q && path_eqb (parent q) root
                           && is_java q)
                 (List.map fst (map_to_list m)))).

(** ** The stages of the script *)

(** [str.lower], a Unicode table. *)
Variable str_lower : text -> text.

(** What [input(...)] does: a line is typed, or the input is closed, or
    the user interrupts. *)
Inductive input_result :=
| Line (response : text)
| Eof
| Interrupt.

Definition input (i : input_result) : M text :=
  print Prompt;;
  match i with
  | Line response => ret response
  | Eof => raise (Exception EOFError)
  | Interrupt => raise KeyboardInterrupt
  end.

Definition create_domain_packages (dry_run : bool) : M unit :=
  print (Step 1);;
  for_each (dict_keys DOMAINS)
    (fun _ domain =>
       let domain_dir := PRICING_DIR ++ [domain] in
       if dry_run
       then print (WouldCreate domain)
       else mkdir_exist_ok domain_dir;; print (Created domain))
    tt.

(** The body of the inner loop of [move_files_and_update_packages]. *)
Definition move_one (dry_run : bool) (domain : text) (moved_count : nat)
    (filename : text) : M nat :=
  let source := PRICING_DIR ++ [filename] in
  let dest := PRICING_DIR ++ [domain; filename] in
  present ← path_exists source;
  if negb present
  then print (WarnNotFound filename);; ret moved_count
  else if dry_run
  then print (WouldMove filename domain);; ret (moved_count + 1)
  else
    content ← read_file source;
    let content := rewrite_package domain content in
    write_file dest content;;
    unlink source;;
    print (Moved filename);;
    ret (moved_count + 1).

Definition move_files_and_update_packages (dry_run : bool) : M nat :=
  print (Step 2);;
  moved_count ←
    for_each DOMAINS
      (fun moved_count '(domain, files) =>
         print (DomainHeader domain);;
         for_each files (move_one dry_run domain) moved_count)
      0;
  print (TotalMoved moved_count);;
  ret moved_count.

(** The body of the loop of [update_imports]; the state is
    [(files_updated, imports_updated)]. *)
Definition update_one (dry_run : bool) (counts : nat * nat)
    (java_file : path) : M (nat * nat) :=
  let '(files_updated, imports_updated) := counts in
  if dry_run
  then ret counts
  else
    original_content ← read_file java_file;
    let '(content, file_import_count) := update_content original_content in
    if negb (text_eqb content original_content)
    then
      ((if negb dry_run then write_file java_file content else ret tt)
       : M unit);;
      print (Updated java_file file_import_count);;
      ret (files_updated + 1, imports_updated + file_import_count)
    else ret counts.

Definition update_imports (dry_run : bool) : M (nat * nat) :=
  print (Step 3);;
  java_files ← rglob_java BASE_DIR;
  '(files_updated, imports_updated) ←
    for_each java_files (update_one dry_run) (0, 0);
  print (FilesUpdated files_updated);;
  print (ImportsUpdated imports_updated);;
  ret (files_updated, imports_updated).

Definition verify_structure : M unit :=
  print Verifying;;
  total_files ←
    for_each (sorted (dict_keys DOMAINS))
      (fun total_files domain =>
         let domain_path := PRICING_DIR ++ [domain] in
         present ← path_exists domain_path;
         if present : bool
         then
           file_count ← glob_java_count domain_path;
           print (DomainCount domain file_count);;
           ret (total_files + file_count)
         else print (DomainNotCreated domain);; ret total_files)
      0;
  let ui_path := PRICING_DIR ++ [str "ui"] in
  present ← path_exists ui_path;
  ((if present : bool
    then ui_files ← rglob_java ui_path; print (UiCount (length ui_files))
    else ret tt) : M unit);;
  print (TotalDomainFiles total_files).

Definition print_summary (moved_count files_updated imports_updated : nat)
    : M unit :=
  print (Header (str "REFACTORING COMPLETE"));;
  print (SummaryMoved moved_count);;
  print (SummaryFiles files_updated);;
  print (SummaryImports imports_updated);;
  verify_structure;;
  print NextSteps.

Definition main (argv : list text) (i : input_result) : M unit :=
  let dry_run := existsb (text_eqb (str "--dry-run")) argv in
  print (Header (str "PRICING PACKAGE REFACTORING"));;
  print (Mode dry_run);;
  print TargetDirectory;;
  present ← path_exists PRICING_DIR;
  ((if negb present
    then print ErrorNotFound;; raise (SystemExit 1)
    else ret tt) : M unit);;
  ((if dry_run
    then print DryRunNotice
    else
      response ← input i;
      if negb (text_eqb (str_lower response) (str "yes"))
      then print Aborted;; raise (SystemExit 0)
      else ret tt) : M unit);;
  create_domain_packages dry_run;;
  moved_count ← move_files_and_update_packages dry_run;
  if negb dry_run
  then
    '(files_updated, imports_updated) ← update_imports dry_run;
    print_summary moved_count files_updated imports_updated
  else print DryRunHint.

(** The [if __name__ == "__main__"] block: the final world and the exit
    status of the process. *)
Definition script (argv : list text) (i : input_result) (w : world)
    : world * nat :=
  match main argv i w with
  | (w', inr tt) => (w', 0)
  | (w', inl (SystemExit code)) => (w', code)
  | (w', inl KeyboardInterrupt) =>
    (fst (print AbortedByUser w'), 1)
  | (w', inl (Exception e)) =>
    (fst ((print (ErrorMessage e);; print (Traceback e)) w'), 1)
  end.

(** ** Vocabulary of the statements *)

(** [s] starts with a declaration of the old flat package: the keyword,
    white space, the dotted path, optional white space and a semicolon;
    [rest] is what follows it. *)
Definition Declaration (s rest : text) : Prop :=
  exists ws1 ws2 : text,
    ws1 <> [] /\ forallb is_space ws1 = true /\ forallb is_space ws2 = true /\
    s = str "package" ++ ws1 ++ OLD_PACKAGE ++ ws2 ++ [SEMI] ++ rest.




(** [x] occurs in [s] between word boundaries. *)
Definition occurs_wb (x s : text) : Prop :=
  exists a b : text,
    s = a ++ x ++ b /\ word_before (last a) = false /\ word_here b = false.

(** [s.split(sep)] for a one-character separator. *)
Fixpoint split_on (sep : char) (s : text) : list text :=
  match s with
  | [] => [[]]
  | x :: s' =>
    if (x =? sep)%N then [] :: split_on sep s'
    else match split_on sep s' with
         | l :: ls => (x :: l) :: ls
         | [] => [[x]]
         end
  end.

Definition lines (s : text) : list text := split_on LF s.

(** The import rewrite as the specification words it: a line that is
    exactly the import of a known class is replaced, no other line
    changes. *)
Definition rewrite_import_line (line : text) : text :=
  match List.find (fun '(classname, _) => text_eqb line (old_import classname))
                  CLASS_TO_DOMAIN with
  | Some (classname, domain) => new_import domain classname
  | None => line
  end.

Definition rewrite_import_lines (content : text) : text :=
  join [LF] (List.map rewrite_import_line (lines content)).

(** The explicit import of a known class. *)
Definition import_of (classname : text) : text :=
  match dict_get classname CLASS_TO_DOMAIN with
  | Some domain => new_import domain classname
  | None => []
  end.

(** The character before the position reached after reading [m]. *)
Definition ctx (prev : option char) (m : text) : option char :=
  match last m with
  | Some c => Some c
  | None => prev
  end.

Definition space_here (s : text) : bool :=
  match s with c :: _ => is_space c | [] => false end.

(** The text after the leading white space of [s]. *)
Fixpoint drop_spaces (s : text) : text :=
  match s with
  | x :: s' => if is_space x then drop_spaces s' else s
  | [] => []
  end.

(** What follows a declaration of the old flat package at the start of
    [s], if there is one. *)
Definition decl_rest (s : text) : option text :=
  match strip_prefix (str "package") s with
  | Some (x :: s1) =>
    if is_space x
    then match strip_prefix OLD_PACKAGE (drop_spaces s1) with
         | Some s2 =>
           match drop_spaces s2 with
           | c :: rest => if (c =? SEMI)%N then Some rest else None
           | [] => None
           end
         | None => None
         end
    else None
  | _ => None
  end.


(** No line feed of [m] is followed by the letter p. *)
Fixpoint no_lf_p (m : text) : bool :=
  match m with
  | [] => true
  | x :: t =>
    match t with
    | c :: _ => negb ((x =? LF)%N && (c =? 112)%N)
    | [] => true
    end && no_lf_p t
  end.

(** Nothing was created, written or deleted between [w] and [w']. *)
Definition no_mutation (w w' : world) : Prop :=
  fs w' = fs w /\ log w' = log w.

(** Every run of [m] relates the world before to the world after. *)
Definition preserves {A} (R : world -> world -> Prop) (m : M A) : Prop :=
  forall w, R w (fst (m w)).

(** *** The tree before and after the stages *)

Definition domain_dir (domain : text) : path := PRICING_DIR ++ [domain].
Definition source_of (filename : text) : path := PRICING_DIR ++ [filename].
Definition dest_of (domain filename : text) : path :=
  PRICING_DIR ++ [domain; filename].

Definition is_dir (o : option node) : bool :=
  match o with Some Dir => true | _ => false end.

Definition is_present (o : option node) : bool :=
  match o with Some _ => true | None => false end.

(** The condition under which a confirmed live run on the tree [m] runs to
    completion: the pricing directory exists; every domain directory is
    there or can be made; no configured source is a directory and no
    destination of a present source is one; and no directory has a name
    ending in [.java]. *)
Definition create_ready (m : gmap path node) : bool :=
  forallb (fun domain =>
             is_dir (m !! domain_dir domain)
             || negb (is_present (m !! domain_dir domain))
                && is_dir (m !! PRICING_DIR))
          (dict_keys DOMAINS).

Definition move_ready (m : gmap path node) : bool :=
  forallb (fun '(domain, filename) =>
             negb (is_dir (m !! source_of filename))
             && (negb (is_present (m !! source_of filename))
                 || negb (is_dir (m !! dest_of domain filename))))
          domain_files.

Definition update_ready (m : gmap path node) : bool :=
  forallb (fun '(p, n) => negb (below BASE_DIR p && is_java p && is_dir (Some n)))
          (map_to_list m).

Definition live_ready (m : gmap path node) : bool :=
  is_present (m !! PRICING_DIR) && create_ready m && move_ready m
  && update_ready m.

(** The mutations the move stage makes for one configured file, on the
    tree [m] the stage starts from. *)
Definition move_log (m : gmap path node) (entry : text * text)
    : list mutation :=
  let '(domain, filename) := entry in
  match m !! source_of filename with
  | Some (File content) =>
    [Write (dest_of domain filename) (rewrite_package domain content);
     Unlink (source_of filename)]
  | _ => []
  end.

(** The mutation the import stage makes for one [*.java] path. *)
Definition update_log (m : gmap path node) (p : path) : list mutation :=
  match m !! p with
  | Some (File content) =>
    if text_eqb (fst (update_content content)) content then []
    else [Write p (fst (update_content content))]
  | _ => []
  end.

(** The [*.java] paths of the tree, in the order of the scan. *)
Definition java_files (m : gmap path node) : list path :=
  List.filter (fun q => below BASE_DIR q && is_java q)
              (List.map fst (map_to_list m)).

(** Is the source of a configured file there? *)
Definition present_in (m : gmap path node) (entry : text * text) : bool :=
  is_present (m !! source_of (snd entry)).

(** The (domain, filename) pairs of some entries of the Domain Table. *)
Definition pairs_of (entries : dict (list text)) : list (text * text) :=
  flat_map (fun '(domain, files) => List.map (fun f => (domain, f)) files)
           entries.

(** The state of the move stage after the configured files [done], started
    in the world [w0] with the count [acc0 = 0]. *)
Definition moved_inv (w0 : world) (done : list (text * text)) (acc : nat)
    (w : world) : Prop :=
  (forall d f, In (d, f) done -> fs w !! source_of f = None) /\
  (forall d f c, In (d, f) done -> fs w0 !! source_of f = Some (File c) ->
                 fs w !! dest_of d f = Some (File (rewrite_package d c))) /\
  (forall p,
     (forall d f, In (d, f) done ->
                  p <> source_of f /\
                  (fs w0 !! source_of f <> None -> p <> dest_of d f)) ->
     fs w !! p = fs w0 !! p) /\
  acc = length (List.filter (present_in (fs w0)) done) /\
  log w = log w0 ++ flat_map (move_log (fs w0)) done /\
  (forall d f, In (d, f) done -> fs w0 !! source_of f = None ->
               In (WarnNotFound f) (out w)) /\
  (forall x, In x (out w0) -> In x (out w)).

(** What the move stage needs of the tree it starts from. *)
Definition move_pre (m : gmap path node) : Prop :=
  (forall d, In d (dict_keys DOMAINS) -> m !! domain_dir d = Some Dir) /\
  move_ready m = true.

(** The node at [p] after the import stage, on the tree [m] the stage
    starts from. *)
Definition updated (m : gmap path node) (p : path) : option node :=
  if below BASE_DIR p && is_java p
  then match m !! p with
       | Some (File content) => Some (File (fst (update_content content)))
       | o => o
       end
  else m !! p.

(** What the import stage prints for one [*.java] path. *)
Definition update_out (m : gmap path node) (p : path) : list msg :=
  match m !! p with
  | Some (File content) =>
    if text_eqb (fst (update_content content)) content then []
    else [Updated p (snd (update_content content))]
  | _ => []
  end.

(** [m] returns in every world. *)
Definition never_raises {A} (m : M A) : Prop :=
  forall w, exists w' a, m w = (w', inr a).

(** The mutation the directory stage makes for one domain. *)
Definition mkdir_log (m : gmap path node) (domain : text) : list mutation :=
  if is_present (m !! domain_dir domain) then [] else [Mkdir (domain_dir domain)].

(** Everything printed before is still there. *)
Definition out_grows (w w' : world) : Prop :=
  exists o, out w' = out w ++ o.

(** The worlds of a confirmed live run started in [w]: [wA] after the
    directory stage, [wB] after the move stage, which moved [n] files,
    [wC] after the import stage, which wrote [files_updated] files, and
    [w1] at the end. *)
Definition live_run (w wA wB wC w1 : world) (n files_updated : nat) : Prop :=
  (forall d, In d (dict_keys DOMAINS) -> fs wA !! domain_dir d = Some Dir) /\
  (forall p, (forall d, In d (dict_keys DOMAINS) -> p <> domain_dir d) ->
             fs wA !! p = fs w !! p) /\
  log wA = log w ++ flat_map (mkdir_log (fs w)) (dict_keys DOMAINS) /\
  moved_inv wA domain_files n wB /\
  (forall p, fs wC !! p = updated (fs wB) p) /\
  log wC = log wB ++ flat_map (update_log (fs wB)) (java_files (fs wB)) /\
  files_updated
  = length (flat_map (update_log (fs wB)) (java_files (fs wB))) /\
  no_mutation wC w1 /\
  In (TotalMoved n) (out w1) /\
  In (SummaryMoved n) (out w1) /\
  In (FilesUpdated files_updated) (out w1) /\
  In (SummaryFiles files_updated) (out w1) /\
  (forall x, In x (out wB) -> In x (out w1)).

(** The stages of a confirmed live run, and the world in which they start:
    [main] has printed its banner and the prompt. *)
Definition live_stages : M unit :=
  create_domain_packages false;;
  moved_count ← move_files_and_update_packages false;
  '(files_updated, imports_updated) ← update_imports false;
  print_summary moved_count files_updated imports_updated.

Definition after_gate (w : world) : world :=
  World (fs w) (log w)
        (out w ++ [Header (str "PRICING PACKAGE REFACTORING")] ++ [Mode false]
               ++ [TargetDirectory] ++ [Prompt]).

(** The state of the move stage of a preview after the configured files
    [done], started in the world [w0]. *)
Definition preview_inv (w0 : world) (done : list (text * text)) (acc : nat)
    (w : world) : Prop :=
  no_mutation w0 w /\
  acc = length (List.filter (present_in (fs w0)) done) /\
  (forall d f, In (d, f) done ->
               In (if present_in (fs w0) (d, f)
                   then WouldMove f d else WarnNotFound f) (out w)) /\
  out_grows w0 w.

(** The number of entries directly in the directory [root] whose name
    ends in [.java]. *)
Definition java_count (m : gmap path node) (root : path) : nat :=
  length (List.filter
            (fun q => below root q && path_eqb (parent q) root && is_java q)
            (List.map fst (map_to_list m))).

(** What the report prints for one domain, and what the domain adds to the
    total. *)
Definition domain_report (m : gmap path node) (domain : text) : list msg :=
  if is_present (m !! domain_dir domain)
  then [DomainCount domain (java_count m (domain_dir domain))]
  else [DomainNotCreated domain].

Definition domain_total (m : gmap path node) (domain : text) : nat :=
  if is_present (m !! domain_dir domain)
  then java_count m (domain_dir domain) else 0.

Definition ui_report (m : gmap path node) : list msg :=
  if is_present (m !! (PRICING_DIR ++ [str "ui"]))
  then [UiCount (length (List.filter
                           (fun q => below (PRICING_DIR ++ [str "ui"]) q
                                     && is_java q)
                           (List.map fst (map_to_list m))))]
  else [].

(** *** Imports, semicolon by semicolon *)

Definition IMPORT_PREFIX : text := str "import com.meatrics.pricing.".

(** An import statement without its semicolon. *)
Definition old_body (classname : text) : text := IMPORT_PREFIX ++ classname.

Definition new_body (domain classname : text) : text :=
  IMPORT_PREFIX ++ domain ++ str "." ++ classname.

Definition WILD_BODY : text := IMPORT_PREFIX ++ str "*".

Definition no_semi (s : text) : bool :=
  forallb (fun c => negb (c =? SEMI)%N) s.

(** [g] without its suffix [q], if [g] ends with [q]. *)
Fixpoint cut_suffix (q g : text) : option text :=
  if text_eqb q g then Some []
  else match g with
       | [] => None
       | x :: g' => option_map (cons x) (cut_suffix q g')
       end.

Definition ends_in (q g : text) : bool :=
  match cut_suffix q g with Some _ => true | None => false end.

(** The text up to the first semicolon, and what follows that semicolon. *)
Fixpoint first_segment (s : text) : text * option text :=
  match s with
  | [] => ([], None)
  | x :: s' =>
    if (x =? SEMI)%N then ([], Some s')
    else let '(g, r) := first_segment s' in (x :: g, r)
  end.

(** Two texts differ at a position that both have. *)
Fixpoint clash (a b : text) : bool :=
  match a, b with
  | x :: a', y :: b' => negb (x =? y)%N || clash a' b'
  | _, _ => false
  end.

(** The explicit imports replaced one class after the other, without the
    test that guards each replacement. *)
Definition replace_imports (content : text) : text :=
  fold_left
    (fun content '(classname, domain) =>
       str_replace (old_import classname) (new_import domain classname) content)
    CLASS_TO_DOMAIN content.

(** The same on a text without semicolon that a semicolon follows. *)
Definition replace_body (classname domain g : text) : text :=
  match cut_suffix (old_body classname) g with
  | Some h => h ++ new_body domain classname
  | None => g
  end.

Definition replace_bodies (classes : dict text) (g : text) : text :=
  fold_left (fun g '(classname, domain) => replace_body classname domain g)
            classes g.

(** A tree on which the migration has been done: the domain directories
    are there, no configured file is in the flat package, and no [*.java]
    file below the base directory has an import left to rewrite. *)
Definition migrated (m : gmap path node) : Prop :=
  m !! PRICING_DIR <> None /\
  (forall d, In d (dict_keys DOMAINS) -> m !! domain_dir d = Some Dir) /\
  (forall d f, In (d, f) domain_files -> m !! source_of f = None) /\
  update_ready m = true /\
  (forall p c, below BASE_DIR p && is_java p = true ->
               m !! p = Some (File c) -> fst (update_content c) = c).

(** *** Sample inputs *)

(** A content with two line-anchored declarations of the old package. *)
Definition two_declarations : text :=
  str "package com.meatrics.pricing;" ++ [LF]
  ++ str "package com.meatrics.pricing;" ++ [LF].

(** A content with one declaration. *)
Definition customer_source : text :=
  str "package com.meatrics.pricing;" ++ [LF] ++ str "class Customer {}".

(** A small tree: two configured files in the flat package, a view that
    uses the wildcard import, and a file outside the package. *)
Definition sample_tree : gmap path node :=
  list_to_map
    [ ([], Dir);
      ([str "pricing"], Dir);
      ([str "pricing"; str "ui"], Dir);
      ([str "pricing"; str "Customer.java"], File customer_source);
      ([str "pricing"; str "PricingRule.java"],
       File (str "package com.meatrics.pricing;" ++ [LF]
             ++ str "import com.meatrics.pricing.Customer;" ++ [LF]
             ++ str "class PricingRule {}"));
      ([str "pricing"; str "ui"; str "View.java"],
       File (str "package com.meatrics.pricing.ui;" ++ [LF]
             ++ str "import com.meatrics.pricing.*;" ++ [LF]
             ++ str "class View { Customer c; }"));
      ([str "Other.java"],
       File (str "package com.meatrics;" ++ [LF] ++ str "class Other { }")) ].

Definition sample_world : world := World sample_tree [] [].


(** A content whose declaration is indented. *)
Definition indented_declaration : text :=
  str "  package com.meatrics.pricing;" ++ [LF] ++ str "class Customer {}".

(** What follows the declaration in the next sample. *)
Definition customer_body : text := [LF] ++ str "class Customer {}".

(** A content whose declaration has a tab and a blank after the keyword
    and a blank before the semicolon. *)
Definition spaced_declaration : text :=
  str "package" ++ [9%N; 32%N] ++ OLD_PACKAGE ++ [32%N] ++ [SEMI]
  ++ customer_body.

(** The sample tree with a regular file named like a domain directory. *)
Definition blocked_tree : gmap path node :=
  <[ [str "pricing"; str "rule"] := File (str "notes") ]> sample_tree.

(** The sample tree with every domain directory made. *)
Definition prepared_tree : gmap path node :=
  fold_right (fun d m => <[ [str "pricing"; d] := Dir ]> m)
             sample_tree (dict_keys DOMAINS).

(** The sample tree with a directory whose name ends in [.java]. *)
Definition java_dir_tree : gmap path node :=
  <[ [str "pricing"; str "ui"; str "gen.java"] := Dir ]> sample_tree.

(** A content with the wildcard import that names one known class. *)
Definition view_source : text :=
  str "package com.meatrics.pricing.ui;" ++ [LF]
  ++ str "import com.meatrics.pricing.*;" ++ [LF]
  ++ str "class View { Customer c; }".

(** A content with the old import of a known class. *)
Definition rule_source : text :=
  str "package com.meatrics.pricing;" ++ [LF]
  ++ str "import com.meatrics.pricing.Customer;" ++ [LF]
  ++ str "class PricingRule {}".
(** ** Text lemmas *)

(** Replace the string constants of the goal by their code points. *)
Ltac norm_str :=
  repeat match goal with
         | |- context [str ?s] =>
           let v := eval vm_compute in (str s) in change (str s) with v
         | |- context [OLD_PACKAGE] =>
           let v := eval vm_compute in OLD_PACKAGE in
           change OLD_PACKAGE with v
         | |- context [WILDCARD] =>
           let v := eval vm_compute in WILDCARD in change WILDCARD with v
         end.

(** Normal form of a concatenation: right-nested, constants expanded. *)
Ltac list_norm :=
  norm_str; repeat (progress (cbn [app]; rewrite <- ?app_assoc)).

Lemma text_eqb_eq (a b : text) : text_eqb a b = true <-> a = b.
Proof.
  revert b. induction a as [|x a IH]; intros [|y b]; simpl; try easy.
  rewrite andb_true_iff, N.eqb_eq, IH. split.
  - intros [-> ->]. reflexivity.
  - intros [= -> ->]. auto.
Qed.

Lemma text_eqb_refl (a : text) : text_eqb a a = true.
Proof. apply text_eqb_eq. reflexivity. Qed.

Lemma text_eqb_neq (a b : text) : text_eqb a b = false <-> a <> b.
Proof.
  rewrite <- text_eqb_eq. destruct (text_eqb a b); split; congruence.
Qed.

Lemma strip_prefix_app (p rest : text) : strip_prefix p (p ++ rest) = Some rest.
Proof.
  induction p as [|x p IH]; simpl; [reflexivity|].
  rewrite N.eqb_refl. exact IH.
Qed.

Lemma strip_prefix_Some (p s rest : text) :
  strip_prefix p s = Some rest <-> s = p ++ rest.
Proof.
  split; [|intros ->; apply strip_prefix_app].
  revert s. induction p as [|x p IH]; intros [|y s]; simpl; try congruence.
  destruct (N.eqb_spec x y); [|discriminate].
  intros H. apply IH in H. congruence.
Qed.

Lemma starts_with_true (p s : text) :
  starts_with p s = true <-> exists rest, s = p ++ rest.
Proof.
  unfold starts_with. destruct (strip_prefix p s) as [r|] eqn:E.
  - apply strip_prefix_Some in E. split; eauto.
  - split; [discriminate|]. intros [r ->].
    rewrite strip_prefix_app in E. discriminate.
Qed.

Lemma contains_true (p s : text) :
  contains p s = true <-> exists a b, s = a ++ p ++ b.
Proof.
  induction s as [|x s IH]; simpl.
  - rewrite orb_false_r, starts_with_true. split.
    + intros [r H]. exists [], r. exact H.
    + intros (a & b & H). destruct a; [eauto|discriminate].
  - rewrite orb_true_iff, starts_with_true, IH. split.
    + intros [[r H]|(a & b & ->)].
      * exists [], r. exact H.
      * exists (x :: a), b. reflexivity.
    + intros (a & b & H). destruct a as [|y a].
      * left. eauto.
      * right. injection H as -> ->. eauto.
Qed.

Lemma contains_false (p s : text) :
  contains p s = false <-> forall a b, s <> a ++ p ++ b.
Proof.
  rewrite <- not_true_iff_false, contains_true. split.
  - intros H a b E. apply H. eauto.
  - intros H (a & b & E). exact (H a b E).
Qed.

Lemma ctx_cons (prev : option char) (x : char) (m : text) :
  ctx prev (x :: m) = ctx (Some x) m.
Proof.
  unfold ctx. destruct m as [|y m]; [reflexivity|].
  change (last (x :: y :: m)) with (last (y :: m)).
  destruct (last (y :: m)) eqn:E; [reflexivity|].
  apply last_None in E. discriminate.
Qed.

Lemma ctx_app (prev : option char) (a b : text) :
  ctx prev (a ++ b) = ctx (ctx prev a) b.
Proof.
  revert prev. induction a as [|x a IH]; intros prev; [reflexivity|].
  simpl. rewrite !ctx_cons. apply IH.
Qed.

(** ** The scan *)

Section ScanFacts.
Variable try_match : option char -> text -> option text.
Variable repl : text.

Lemma scan_skip (m rest : text) (prev : option char) :
  scan_sub try_match repl (length m) prev (m ++ rest)
  = scan_sub try_match repl 0 (ctx prev m) rest.
Proof.
  revert prev. induction m as [|x m IH]; intros prev.
  - reflexivity.
  - simpl. rewrite IH, ctx_cons. reflexivity.
Qed.

Lemma scan_match (x : char) (m rest : text) (prev : option char) :
  try_match prev (x :: m ++ rest) = Some rest ->
  scan_sub try_match repl 0 prev (x :: m ++ rest)
  = repl ++ scan_sub try_match repl 0 (ctx prev (x :: m)) rest.
Proof.
  intros H. cbn [scan_sub]. rewrite H.
  replace (length rest <? length (x :: m ++ rest)) with true.
  2:{ symmetry. apply Nat.ltb_lt. simpl. rewrite length_app. lia. }
  replace (length (x :: m ++ rest) - length rest - 1) with (length m).
  2:{ simpl. rewrite length_app. lia. }
  rewrite scan_skip, ctx_cons. reflexivity.
Qed.

Lemma scan_nomatch (x : char) (s : text) (prev : option char) :
  try_match prev (x :: s) = None ->
  scan_sub try_match repl 0 prev (x :: s)
  = x :: scan_sub try_match repl 0 (Some x) s.
Proof. intros H. cbn [scan_sub]. rewrite H. reflexivity. Qed.

Lemma scan_id (prev : option char) (s : text) :
  matches_somewhere try_match prev s = false ->
  scan_sub try_match repl 0 prev s = s.
Proof.
  revert prev. induction s as [|x s IH]; intros prev H; [reflexivity|].
  simpl in H. destruct (try_match prev (x :: s)) eqn:E; [discriminate|].
  rewrite scan_nomatch by exact E. f_equal. apply IH, H.
Qed.




End ScanFacts.
(** ** The matcher on the package pattern *)

Lemma match_lits (p : text) (re : regex) (prev : option char) (s : text) :
  match_here (lits p ++ re) prev s
  = match strip_prefix p s with
    | Some rest => match_here re (ctx prev p) rest
    | None => None
    end.
Proof.
  revert prev s. induction p as [|c p IH]; intros prev s; [reflexivity|].
  destruct s as [|x s]; [reflexivity|].
  cbn [lits List.map app match_here strip_prefix].
  rewrite (N.eqb_sym x c). destruct (N.eqb_spec c x) as [->|]; [|reflexivity].
  fold (lits p). rewrite IH, ctx_cons. reflexivity.
Qed.

Lemma drop_spaces_app (ws t : text) :
  forallb is_space ws = true -> space_here t = false ->
  drop_spaces (ws ++ t) = t.
Proof.
  intros Hws Ht. induction ws as [|w ws IH]; simpl in *.
  - destruct t as [|c t]; [reflexivity|]. simpl in *. rewrite Ht. reflexivity.
  - apply andb_true_iff in Hws as [-> Hws]. auto.
Qed.

Lemma drop_spaces_split (s : text) :
  exists ws, forallb is_space ws = true /\ s = ws ++ drop_spaces s
             /\ space_here (drop_spaces s) = false.
Proof.
  induction s as [|x s (ws & Hws & Hs & Hd)]; simpl.
  - exists []. auto.
  - destruct (is_space x) eqn:E.
    + exists (x :: ws). simpl. rewrite E, Hws. repeat split; congruence.
    + exists []. simpl. rewrite E. auto.
Qed.

Lemma greedy_spaces (k : option char -> text -> option text)
    (prev : option char) (s : text) :
  (forall prev' t, space_here t = true -> k prev' t = None) ->
  exists prev', greedy is_space k prev s = k prev' (drop_spaces s).
Proof.
  intros Hk. revert prev. induction s as [|x s IH]; intros prev; simpl.
  - eauto.
  - destruct (is_space x) eqn:E; [|eauto].
    destruct (IH (Some x)) as [prev' ->].
    exists prev'. destruct (k prev' (drop_spaces s)) eqn:Ek; [reflexivity|].
    apply Hk. exact E.
Qed.

Lemma not_space_lit (c x : char) (re : regex) (prev : option char) (t : text) :
  is_space c = false -> space_here (x :: t) = true ->
  match_here (Lit c :: re) prev (x :: t) = None.
Proof.
  simpl. intros Hc Hx. destruct (N.eqb_spec x c) as [->|]; congruence.
Qed.

(** The pattern matches exactly where a line starts with a declaration. *)
Lemma match_package (prev : option char) (s : text) :
  match_here package_re prev s = if at_bol prev then decl_rest s else None.
Proof.
  unfold package_re. cbn [match_here]. destruct (at_bol prev); [|reflexivity].
  rewrite match_lits. unfold decl_rest.
  destruct (strip_prefix (str "package") s) as [[|x s1]|]; try reflexivity.
  cbn [app match_here]. destruct (is_space x); [|reflexivity].
  edestruct (greedy_spaces
               (match_here (lits OLD_PACKAGE ++ [Star is_space; Lit SEMI])))
    as [prev1 ->].
  { intros prev' [|y t] Hy; [discriminate|].
    apply not_space_lit; [reflexivity|exact Hy]. }
  rewrite match_lits.
  destruct (strip_prefix OLD_PACKAGE (drop_spaces s1)) as [s2|]; [|reflexivity].
  cbn [match_here].
  edestruct (greedy_spaces (match_here [Lit SEMI])) as [prev2 ->].
  { intros prev' [|y t] Hy; [discriminate|].
    apply not_space_lit; [reflexivity|exact Hy]. }
  destruct (drop_spaces s2) as [|c rest]; [reflexivity|].
  cbn [match_here]. destruct (c =? SEMI)%N; reflexivity.
Qed.

Lemma decl_rest_Declaration (s rest : text) :
  decl_rest s = Some rest <-> Declaration s rest.
Proof.
  unfold decl_rest, Declaration. split.
  - destruct (strip_prefix (str "package") s) as [[|x s1]|] eqn:E1;
      try discriminate.
    apply strip_prefix_Some in E1. destruct (is_space x) eqn:Ex; [|discriminate].
    destruct (strip_prefix OLD_PACKAGE (drop_spaces s1)) as [s2|] eqn:E2;
      [|discriminate].
    apply strip_prefix_Some in E2.
    destruct (drop_spaces s2) as [|c r] eqn:E3; [discriminate|].
    destruct (N.eqb_spec c SEMI) as [->|]; [|discriminate].
    intros [= ->].
    destruct (drop_spaces_split s1) as (ws1 & Hws1 & Hs1 & _).
    destruct (drop_spaces_split s2) as (ws2 & Hws2 & Hs2 & _).
    exists (x :: ws1), ws2. simpl forallb. rewrite Ex, Hws1, Hws2.
    repeat split; [discriminate|].
    rewrite E1, Hs1, E2, Hs2, E3. reflexivity.
  - intros ([|x ws1] & ws2 & Hne & Hws1 & Hws2 & ->); [congruence|].
    rewrite strip_prefix_app. simpl in Hws1.
    apply andb_true_iff in Hws1 as [Hx Hws1].
    cbn [app]. rewrite Hx.
    rewrite drop_spaces_app by (exact Hws1 || reflexivity).
    rewrite strip_prefix_app.
    rewrite drop_spaces_app by (exact Hws2 || reflexivity).
    reflexivity.
Qed.

Lemma match_package_Declaration (prev : option char) (s rest : text) :
  match_here package_re prev s = Some rest
  <-> at_bol prev = true /\ Declaration s rest.
Proof.
  rewrite match_package, <- decl_rest_Declaration.
  destruct (at_bol prev); split.
  - intros H. split; [reflexivity|exact H].
  - intros [_ H]. exact H.
  - discriminate.
  - intros [H _]. discriminate.
Qed.
(** ** The package rewrite *)

Lemma ctx_snoc (prev : option char) (m : text) (c : char) :
  ctx prev (m ++ [c]) = Some c.
Proof. rewrite ctx_app. reflexivity. Qed.

Lemma rewrite_step_decl (d : text) (prev : option char) (s rest : text) :
  at_bol prev = true -> Declaration s rest ->
  scan_sub (match_here package_re) (new_declaration d) 0 prev s
  = new_declaration d
    ++ scan_sub (match_here package_re) (new_declaration d) 0 (Some SEMI) rest.
Proof.
  intros Hb HD.
  assert (Hm : match_here package_re prev s = Some rest)
    by (apply match_package_Declaration; auto).
  destruct HD as (ws1 & ws2 & _ & _ & _ & ->).
  set (m := str "ackage" ++ ws1 ++ OLD_PACKAGE ++ ws2 ++ [SEMI]).
  assert (E : str "package" ++ ws1 ++ OLD_PACKAGE ++ ws2 ++ [SEMI] ++ rest
              = 112%N :: m ++ rest).
  { unfold m. list_norm. reflexivity. }
  rewrite E in Hm |- *. rewrite (scan_match _ _ _ _ _ _ Hm).
  do 2 f_equal. rewrite ctx_cons. unfold m.
  rewrite !app_assoc. apply ctx_snoc.
Qed.

Lemma rewrite_step_copy (d : text) (prev : option char) (x : char) (s : text) :
  match_here package_re prev (x :: s) = None ->
  scan_sub (match_here package_re) (new_declaration d) 0 prev (x :: s)
  = x :: scan_sub (match_here package_re) (new_declaration d) 0 (Some x) s.
Proof. apply scan_nomatch. Qed.

Lemma Declaration_shorter (s rest : text) :
  Declaration s rest -> length rest < length s.
Proof.
  intros (ws1 & ws2 & _ & _ & _ & ->). rewrite !length_app. simpl. lia.
Qed.

Lemma Declaration_functional (s r1 r2 : text) :
  Declaration s r1 -> Declaration s r2 -> r1 = r2.
Proof.
  rewrite <- !decl_rest_Declaration. congruence.
Qed.



(** A declaration of a domain package is not a declaration of the old
    flat package: a dot follows the path. *)
Lemma qualified_not_matched (d : text) (prev : option char) (t : text) :
  match_here package_re prev (new_declaration d ++ t) = None.
Proof.
  rewrite match_package. destruct (at_bol prev); [|reflexivity].
  unfold new_declaration. list_norm. reflexivity.
Qed.

Lemma no_lf_p_tail (x : char) (m : text) :
  no_lf_p (x :: m) = true -> no_lf_p m = true.
Proof. simpl. intros H. apply andb_true_iff in H. apply H. Qed.

Lemma no_lf_p_lits (p t : text) :
  forallb (fun c => negb (c =? LF)%N) p = true ->
  no_lf_p (p ++ t) = no_lf_p t.
Proof.
  induction p as [|c p IH]; intros H; [reflexivity|].
  simpl in H. apply andb_true_iff in H as [Hc Hp].
  cbn [app no_lf_p]. rewrite IH by exact Hp.
  apply negb_true_iff in Hc. rewrite Hc.
  destruct (p ++ t); reflexivity.
Qed.

Lemma no_lf_p_spaces (ws t : text) (c : char) :
  forallb is_space ws = true -> (c =? 112)%N = false ->
  no_lf_p (ws ++ c :: t) = no_lf_p (c :: t).
Proof.
  intros Hws Hc. induction ws as [|w ws IH]; [reflexivity|].
  simpl in Hws. apply andb_true_iff in Hws as [Hw Hws].
  cbn [app no_lf_p]. rewrite IH by exact Hws.
  destruct ws as [|w' ws].
  - cbn [app]. rewrite Hc, andb_false_r. reflexivity.
  - cbn [app]. simpl in Hws. apply andb_true_iff in Hws as [Hw' _].
    destruct (N.eqb_spec w' 112) as [->|]; [discriminate|].
    rewrite andb_false_r. reflexivity.
Qed.

Lemma declaration_no_lf_p (ws1 ws2 : text) :
  forallb is_space ws1 = true -> forallb is_space ws2 = true ->
  no_lf_p (str "package" ++ ws1 ++ OLD_PACKAGE ++ ws2 ++ [SEMI]) = true.
Proof.
  intros H1 H2.
  rewrite no_lf_p_lits by reflexivity.
  norm_str. cbn [app].
  rewrite no_lf_p_spaces by (exact H1 || reflexivity).
  change (99%N :: ?t) with ([99%N] ++ t).
  rewrite <- (app_nil_l (ws2 ++ _)).
  change (no_lf_p (str "com.meatrics.pricing" ++ ws2 ++ [SEMI]) = true).
  rewrite no_lf_p_lits by reflexivity.
  rewrite no_lf_p_spaces by (exact H2 || reflexivity).
  reflexivity.
Qed.

(** A text in which no line starts with the letter p, and that starts the
    rewritten content, starts the original content as well: up to it the
    scan has only copied. *)
Lemma rewrite_prefix (d : text) (s : text) :
  forall (prev : option char) (m r : text),
    no_lf_p m = true ->
    (at_bol prev = true -> head m <> Some 112%N) ->
    scan_sub (match_here package_re) (new_declaration d) 0 prev s = m ++ r ->
    exists r2, s = m ++ r2.
Proof.
  induction s as [|x s IH]; intros prev m r Hm Hb E.
  - simpl in E. destruct m; [|discriminate]. exists []. reflexivity.
  - destruct m as [|y m]; [eexists; reflexivity|].
    destruct (match_here package_re prev (x :: s)) as [rest|] eqn:Ematch.
    + apply match_package_Declaration in Ematch as [Hbol HD].
      rewrite (rewrite_step_decl d _ _ _ Hbol HD) in E.
      unfold new_declaration in E. revert E. list_norm. intros [= <- _].
      exfalso. apply (Hb Hbol). reflexivity.
    + rewrite rewrite_step_copy in E by exact Ematch.
      injection E as <- E.
      destruct (IH (Some x) m r) as [r2 ->]; [| |exact E|eauto].
      * eapply no_lf_p_tail, Hm.
      * simpl. intros Hx. apply N.eqb_eq in Hx. subst x.
        destruct m as [|c m]; [discriminate|].
        simpl in Hm. apply andb_true_iff in Hm as [Hm _].
        change (LF =? LF)%N with true in Hm. simpl in Hm.
        apply negb_true_iff in Hm. intros [= ->]. discriminate.
Qed.

(** Where the original content has no declaration, the rewritten content
    has none either. *)
Lemma rewrite_keeps_nomatch (d : text) (prev : option char) (s : text) :
  match_here package_re prev s = None ->
  match_here package_re prev
    (scan_sub (match_here package_re) (new_declaration d) 0 prev s) = None.
Proof.
  intros H.
  destruct (match_here package_re prev (scan_sub _ _ 0 prev s))
    as [r|] eqn:E; [exfalso|reflexivity].
  apply match_package_Declaration in E as [Hb (ws1 & ws2 & Hne & H1 & H2 & E)].
  destruct s as [|x s].
  - simpl in E. revert E. list_norm. discriminate.
  - rewrite rewrite_step_copy in E by exact H.
    pose proof (declaration_no_lf_p ws1 ws2 H1 H2) as Hn.
    set (m := str "ackage" ++ ws1 ++ OLD_PACKAGE ++ ws2 ++ [SEMI]).
    assert (Em : str "package" ++ ws1 ++ OLD_PACKAGE ++ ws2 ++ [SEMI]
                 = 112%N :: m) by (unfold m; list_norm; reflexivity).
    rewrite Em in Hn.
    replace (str "package" ++ ws1 ++ OLD_PACKAGE ++ ws2 ++ [SEMI] ++ r)
      with (112%N :: m ++ r) in E by (unfold m; list_norm; reflexivity).
    injection E as -> E.
    destruct (rewrite_prefix d s (Some 112%N) m r) as [r2 ->].
    + eapply no_lf_p_tail, Hn.
    + discriminate.
    + exact E.
    + assert (Hs : match_here package_re prev (112%N :: m ++ r2) = Some r2);
        [|pose proof (eq_trans (eq_sym Hs) H) as X; discriminate X].
      apply match_package_Declaration. split; [exact Hb|].
      exists ws1, ws2. repeat split; auto.
      unfold m. list_norm. reflexivity.
Qed.

Lemma matches_somewhere_app (try_match : option char -> text -> option text)
    (r t : text) (prev : option char) :
  (forall a b, r = a ++ b -> b <> [] -> try_match (ctx prev a) (b ++ t) = None) ->
  matches_somewhere try_match prev (r ++ t)
  = matches_somewhere try_match (ctx prev r) t.
Proof.
  revert prev. induction r as [|x r IH]; intros prev H; [reflexivity|].
  cbn [app matches_somewhere].
  assert (H0 : try_match prev (x :: r ++ t) = None)
    by (apply (H [] (x :: r)); [reflexivity|discriminate]).
  rewrite H0.
  rewrite IH, ctx_cons; [reflexivity|].
  intros a b -> Hb. specialize (H (x :: a) b eq_refl Hb).
  rewrite ctx_cons in H. exact H.
Qed.

Lemma ctx_not_lf (prev : option char) (a : text) (x : char) :
  forallb (fun c => negb (c =? LF)%N) (x :: a) = true ->
  at_bol (ctx prev (x :: a)) = false.
Proof.
  revert prev x. induction a as [|y a IH]; intros prev x H.
  - simpl in *. rewrite andb_true_r in H. apply negb_true_iff in H. exact H.
  - rewrite ctx_cons. apply IH. simpl in H |- *.
    apply andb_true_iff in H. apply H.
Qed.

Lemma ctx_new_declaration (prev : option char) (d : text) :
  ctx prev (new_declaration d) = Some SEMI.
Proof. unfold new_declaration. rewrite !ctx_app. reflexivity. Qed.

Lemma rewrite_no_match (d : text) (n : nat) :
  forallb (fun c => negb (c =? LF)%N) d = true ->
  forall (s : text) (prev : option char),
    length s <= n ->
    matches_somewhere (match_here package_re) prev
      (scan_sub (match_here package_re) (new_declaration d) 0 prev s) = false.
Proof.
  intros Hd. induction n as [|n IH]; intros s prev Hn.
  - destruct s; [reflexivity|simpl in Hn; lia].
  - destruct s as [|x s]; [reflexivity|].
    destruct (match_here package_re prev (x :: s)) as [rest|] eqn:E.
    + apply match_package_Declaration in E as [Hb HD].
      rewrite (rewrite_step_decl d _ _ _ Hb HD).
      rewrite matches_somewhere_app.
      * rewrite ctx_new_declaration.
        apply IH. apply Declaration_shorter in HD. simpl in *. lia.
      * intros [|y a] b Eab Hb'.
        { simpl in Eab. subst b. apply qualified_not_matched. }
        rewrite match_package.
        rewrite ctx_not_lf; [reflexivity|].
        assert (Hall : forallb (fun c => negb (c =? LF)%N) (new_declaration d)
                       = true).
        { unfold new_declaration. rewrite !forallb_app.
          repeat (apply andb_true_iff; split); (reflexivity || exact Hd). }
        rewrite Eab, forallb_app in Hall. apply andb_true_iff in Hall.
        apply Hall.
    + pose proof (rewrite_keeps_nomatch d prev (x :: s) E) as K.
      rewrite rewrite_step_copy in K |- * by exact E.
      cbn [matches_somewhere]. rewrite K.
      apply IH. simpl in Hn. lia.
Qed.

Lemma domains_no_lf (d : text) :
  In d (dict_keys DOMAINS) -> forallb (fun c => negb (c =? LF)%N) d = true.
Proof.
  intros H.
  assert (A : forallb (fun d => forallb (fun c => negb (c =? LF)%N) d)
                      (dict_keys DOMAINS) = true) by (vm_compute; reflexivity).
  rewrite forallb_forall in A. apply A, H.
Qed.

Lemma rewrite_package_idem (d1 d2 content : text) :
  In d1 (dict_keys DOMAINS) ->
  rewrite_package d2 (rewrite_package d1 content) = rewrite_package d1 content.
Proof.
  intros H. unfold rewrite_package, re_sub.
  apply scan_id. apply (rewrite_no_match d1 (length content)).
  - apply domains_no_lf, H.
  - lia.
Qed.



(** ** Effects *)

Ltac munfold := unfold mbind, M_bind, bind, mret, M_ret, ret, raise in *.

Lemma bind_run {A B} (m : M A) (k : A -> M B) (w : world) :
  (m ≫= k) w
  = match m w with
    | (w', inl e) => (w', inl e)
    | (w', inr a) => k a w'
    end.
Proof. reflexivity. Qed.

(** The invariant rule of [for_each]: [Inv] holds of the elements done so
    far, [E] of a world in which the loop was left by an exception. *)
Lemma for_each_inv {X A} (Inv : list X -> A -> world -> Prop)
    (E : exc -> world -> Prop) (body : A -> X -> M A) (xs : list X) :
  (forall pre x post a w,
     xs = pre ++ x :: post -> Inv pre a w ->
     match body a x w with
     | (w', inr a') => Inv (pre ++ [x]) a' w'
     | (w', inl e) => E e w'
     end) ->
  forall a w,
    Inv [] a w ->
    match for_each xs body a w with
    | (w', inr a') => Inv xs a' w'
    | (w', inl e) => E e w'
    end.
Proof.
  intros Hbody.
  assert (G : forall post pre a w,
             xs = pre ++ post -> Inv pre a w ->
             match for_each post body a w with
             | (w', inr a') => Inv xs a' w'
             | (w', inl e) => E e w'
             end).
  { induction post as [|x post IH]; intros pre a w Hxs HI.
    - rewrite app_nil_r in Hxs. subst pre. exact HI.
    - cbn [for_each]. rewrite bind_run.
      specialize (Hbody pre x post a w Hxs HI).
      destruct (body a x w) as [w' [e|a']]; [exact Hbody|].
      apply (IH (pre ++ [x])); [|exact Hbody].
      rewrite <- app_assoc. exact Hxs. }
  intros a w HI. apply (G xs []); [reflexivity|exact HI].
Qed.

Section Preserve.
Variable R : world -> world -> Prop.
Hypothesis R_refl : forall w, R w w.
Hypothesis R_trans : forall w1 w2 w3, R w1 w2 -> R w2 w3 -> R w1 w3.

Lemma preserves_ret {A} (a : A) : preserves R (ret a).
Proof using R_refl. intros w. apply R_refl. Qed.

Lemma preserves_raise {A} (e : exc) : preserves R (@raise A e).
Proof using R_refl. intros w. apply R_refl. Qed.

Lemma preserves_get_fs : preserves R get_fs.
Proof using R_refl. intros w. apply R_refl. Qed.

Lemma preserves_bind {A B} (m : M A) (k : A -> M B) :
  preserves R m -> (forall a, preserves R (k a)) -> preserves R (m ≫= k).
Proof using R_trans.
  intros Hm Hk w. rewrite bind_run. specialize (Hm w).
  destruct (m w) as [w' [e|a]]; [exact Hm|].
  eapply R_trans; [exact Hm|apply Hk].
Qed.

Lemma preserves_for_each {X A} (xs : list X) (body : A -> X -> M A) (a : A) :
  (forall a x, preserves R (body a x)) -> preserves R (for_each xs body a).
Proof using R_refl R_trans.
  intros Hb. revert a. induction xs as [|x xs IH]; intros a.
  - apply preserves_ret.
  - cbn [for_each]. apply preserves_bind; auto.
Qed.

End Preserve.

Lemma no_mutation_refl (w : world) : no_mutation w w.
Proof. split; reflexivity. Qed.

Lemma no_mutation_trans (w1 w2 w3 : world) :
  no_mutation w1 w2 -> no_mutation w2 w3 -> no_mutation w1 w3.
Proof. unfold no_mutation. intros [? ?] [? ?]. split; congruence. Qed.

Create HintDb readonly.

Lemma ro_ret {A} (a : A) : preserves no_mutation (ret a).
Proof. apply preserves_ret, no_mutation_refl. Qed.

Lemma ro_raise {A} (e : exc) : preserves no_mutation (@raise A e).
Proof. apply preserves_raise, no_mutation_refl. Qed.

Lemma ro_bind {A B} (m : M A) (k : A -> M B) :
  preserves no_mutation m -> (forall a, preserves no_mutation (k a)) ->
  preserves no_mutation (m ≫= k).
Proof. exact (preserves_bind _ no_mutation_trans m k). Qed.

Lemma ro_for_each {X A} (xs : list X) (body : A -> X -> M A) (a : A) :
  (forall a x, preserves no_mutation (body a x)) ->
  preserves no_mutation (for_each xs body a).
Proof.
  exact (preserves_for_each _ no_mutation_refl no_mutation_trans xs body a).
Qed.

Lemma ro_print (m : msg) : preserves no_mutation (print m).
Proof. intros w. split; reflexivity. Qed.

Lemma ro_get_fs : preserves no_mutation get_fs.
Proof. intros w. split; reflexivity. Qed.

Lemma ro_path_exists (p : path) : preserves no_mutation (path_exists p).
Proof. intros w. split; reflexivity. Qed.

Lemma ro_rglob_java (p : path) : preserves no_mutation (rglob_java p).
Proof. intros w. split; reflexivity. Qed.

Lemma ro_glob_java_count (p : path) : preserves no_mutation (glob_java_count p).
Proof. intros w. split; reflexivity. Qed.

Lemma ro_input (i : input_result) : preserves no_mutation (input i).
Proof.
  unfold input. apply ro_bind; [apply ro_print|]. intros _.
  destruct i; [apply ro_ret|apply ro_raise|apply ro_raise].
Qed.

#[local] Hint Resolve ro_ret ro_raise ro_print ro_get_fs ro_path_exists
  ro_rglob_java ro_glob_java_count ro_input : readonly.

Ltac readonly :=
  repeat first
    [ apply ro_bind; [|intros ?]
    | apply ro_for_each; intros ? ?
    | solve [auto with readonly]
    | match goal with
      | |- preserves _ (if ?b then _ else _) => destruct b
      | |- preserves _ (match ?x with _ => _ end) => destruct x
      | |- preserves _ (let '(_, _) := ?x in _) => destruct x
      end ].

Lemma ro_create_dry : preserves no_mutation (create_domain_packages true).
Proof. unfold create_domain_packages. readonly. Qed.

Lemma ro_move_dry : preserves no_mutation (move_files_and_update_packages true).
Proof.
  unfold move_files_and_update_packages, move_one. readonly.
Qed.

Lemma ro_verify_structure : preserves no_mutation verify_structure.
Proof. unfold verify_structure. readonly. Qed.

Lemma ro_print_summary (a b c : nat) :
  preserves no_mutation (print_summary a b c).
Proof.
  unfold print_summary. readonly.
Qed.

Lemma ro_main_dry (argv : list text) (i : input_result) :
  existsb (text_eqb (str "--dry-run")) argv = true ->
  preserves no_mutation (main argv i).
Proof.
  intros H. unfold main. rewrite H. cbn [negb].
  readonly; try (apply ro_create_dry || apply ro_move_dry).
Qed.

Lemma script_world (argv : list text) (i : input_result) (w : world) :
  no_mutation (fst (main argv i w)) (fst (script argv i w)).
Proof.
  unfold script. destruct (main argv i w) as [w' [[code| |e]|[]]];
    split; reflexivity.
Qed.

Ltac run_gate :=
  lazy beta iota delta [mbind M_bind bind print path_exists get_fs ret
                        raise input negb fs log out fst snd].

Lemma main_missing (argv : list text) (i : input_result) (w : world) :
  fs w !! PRICING_DIR = None ->
  exists w', main argv i w = (w', inl (SystemExit 1)) /\ no_mutation w w'.
Proof.
  destruct w as [m l o]. cbn [fs]. intros E.
  unfold main. run_gate. rewrite E.
  eexists. split; [reflexivity|split; reflexivity].
Qed.

Lemma main_declined (argv : list text) (response : text) (w : world) :
  existsb (text_eqb (str "--dry-run")) argv = false ->
  fs w !! PRICING_DIR <> None ->
  str_lower response <> str "yes" ->
  exists w', main argv (Line response) w = (w', inl (SystemExit 0))
             /\ no_mutation w w'.
Proof.
  destruct w as [m l o]. cbn [fs]. intros Hdry Hex Hno.
  unfold main. rewrite Hdry. run_gate.
  destruct (m !! PRICING_DIR) eqn:E; [|congruence].
  apply text_eqb_neq in Hno. rewrite Hno.
  eexists. split; [reflexivity|split; reflexivity].
Qed.
(** ** Runs of the primitives *)

Lemma print_run (m : msg) (w : world) :
  print m w = (World (fs w) (log w) (out w ++ [m]), inr tt).
Proof. reflexivity. Qed.

Lemma path_exists_run (p : path) (w : world) :
  path_exists p w = (w, inr (is_present (fs w !! p))).
Proof. reflexivity. Qed.

Lemma mkdir_run_dir (p : path) (w : world) :
  fs w !! p = Some Dir -> mkdir_exist_ok p w = (w, inr tt).
Proof.
  intros H. unfold mkdir_exist_ok. rewrite bind_run. cbn [get_fs].
  rewrite H. reflexivity.
Qed.

Lemma mkdir_run_new (p : path) (w : world) :
  fs w !! p = None -> fs w !! parent p = Some Dir ->
  mkdir_exist_ok p w
  = (World (<[p := Dir]> (fs w)) (log w ++ [Mkdir p]) (out w), inr tt).
Proof.
  intros H1 H2. unfold mkdir_exist_ok. rewrite bind_run. cbn [get_fs].
  rewrite H1, H2. reflexivity.
Qed.

Lemma read_file_run (p : path) (content : text) (w : world) :
  fs w !! p = Some (File content) -> read_file p w = (w, inr content).
Proof.
  intros H. unfold read_file. rewrite bind_run. cbn [get_fs].
  rewrite H. reflexivity.
Qed.

Lemma read_file_dir (p : path) (w : world) :
  fs w !! p = Some Dir ->
  read_file p w = (w, inl (Exception IsADirectoryError)).
Proof.
  intros H. unfold read_file. rewrite bind_run. cbn [get_fs].
  rewrite H. reflexivity.
Qed.

Lemma write_file_run (p : path) (content : text) (w : world) :
  is_dir (fs w !! p) = false ->
  is_present (fs w !! p) = true \/ fs w !! parent p = Some Dir ->
  write_file p content w
  = (World (<[p := File content]> (fs w)) (log w ++ [Write p content]) (out w),
     inr tt).
Proof.
  intros H1 H2. unfold write_file. rewrite bind_run. cbn [get_fs].
  destruct (fs w !! p) as [[|c]|]; try discriminate; try reflexivity.
  destruct H2 as [H2|H2]; [discriminate|]. rewrite H2. reflexivity.
Qed.

Lemma unlink_run (p : path) (content : text) (w : world) :
  fs w !! p = Some (File content) ->
  unlink p w = (World (delete p (fs w)) (log w ++ [Unlink p]) (out w), inr tt).
Proof.
  intros H. unfold unlink. rewrite bind_run. cbn [get_fs].
  rewrite H. reflexivity.
Qed.

(** ** Paths of the configuration *)

Lemma source_of_inj (f f' : text) : source_of f = source_of f' -> f = f'.
Proof. unfold source_of. intros H. apply app_inv_head in H. congruence. Qed.

Lemma domain_dir_inj (d d' : text) : domain_dir d = domain_dir d' -> d = d'.
Proof. unfold domain_dir. intros H. apply app_inv_head in H. congruence. Qed.

Lemma dest_of_inj (d f d' f' : text) :
  dest_of d f = dest_of d' f' -> d = d' /\ f = f'.
Proof.
  unfold dest_of. intros H. apply app_inv_head in H.
  injection H as -> ->. auto.
Qed.

Lemma source_not_dest (f d' f' : text) : source_of f <> dest_of d' f'.
Proof.
  unfold source_of, dest_of. intros H. apply app_inv_head in H. discriminate.
Qed.

Lemma domain_dir_not_dest (d d' f' : text) : domain_dir d <> dest_of d' f'.
Proof.
  unfold domain_dir, dest_of. intros H. apply app_inv_head in H. discriminate.
Qed.

Lemma pricing_not_domain_dir (d : text) : PRICING_DIR <> domain_dir d.
Proof.
  unfold domain_dir. intros H.
  apply (f_equal (@length text)) in H. rewrite length_app in H.
  simpl in H. lia.
Qed.

Lemma pricing_not_source (f : text) : PRICING_DIR <> source_of f.
Proof. apply pricing_not_domain_dir. Qed.

Lemma pricing_not_dest (d f : text) : PRICING_DIR <> dest_of d f.
Proof.
  unfold dest_of. intros H.
  apply (f_equal (@length text)) in H. rewrite length_app in H.
  simpl in H. lia.
Qed.

Lemma parent_domain_dir (d : text) : parent (domain_dir d) = PRICING_DIR.
Proof. unfold parent, domain_dir. apply removelast_last. Qed.

Lemma parent_dest_of (d f : text) : parent (dest_of d f) = domain_dir d.
Proof.
  unfold parent, dest_of, domain_dir.
  change [d; f] with ([d] ++ [f]). rewrite app_assoc. apply removelast_last.
Qed.

Lemma domains_nodup : List.NoDup (dict_keys DOMAINS).
Proof.
  apply (NoDup_ListNoDup (dict_keys DOMAINS)).
  apply (bool_decide_unpack _). vm_compute. exact I.
Qed.

Lemma domain_files_nodup : List.NoDup (List.map snd domain_files).
Proof.
  apply (NoDup_ListNoDup (List.map snd domain_files)).
  apply (bool_decide_unpack _). vm_compute. exact I.
Qed.

Lemma domain_not_filename (d f : text) (d' : text) :
  In d (dict_keys DOMAINS) -> In (d', f) domain_files -> d <> f.
Proof.
  intros Hd Hf.
  assert (A : forallb (fun d => forallb (fun e => negb (text_eqb d (snd e)))
                                        domain_files)
                      (dict_keys DOMAINS) = true) by (vm_compute; reflexivity).
  rewrite forallb_forall in A. specialize (A d Hd).
  rewrite forallb_forall in A. specialize (A _ Hf). cbn [snd] in A.
  apply negb_true_iff, text_eqb_neq in A. exact A.
Qed.

Lemma nodup_middle {A} (pre post : list A) (x : A) :
  List.NoDup (pre ++ x :: post) -> ~ In x pre.
Proof.
  intros H Hin. apply List.NoDup_remove_2 in H. apply H.
  apply in_or_app. left. exact Hin.
Qed.

(** ** The directory stage *)

Lemma create_ready_spec (m : gmap path node) (d : text) :
  create_ready m = true -> In d (dict_keys DOMAINS) ->
  m !! domain_dir d = Some Dir
  \/ (m !! domain_dir d = None /\ m !! PRICING_DIR = Some Dir).
Proof.
  unfold create_ready. rewrite forallb_forall. intros H Hd.
  specialize (H d Hd). unfold is_dir, is_present in H.
  destruct (m !! domain_dir d) as [[|c]|]; auto; try discriminate.
  right. split; [reflexivity|].
  destruct (m !! PRICING_DIR) as [[|c]|]; auto; discriminate.
Qed.

Lemma create_live (w : world) :
  create_ready (fs w) = true ->
  exists w',
    create_domain_packages false w = (w', inr tt) /\
    (forall d, In d (dict_keys DOMAINS) -> fs w' !! domain_dir d = Some Dir) /\
    (forall p, (forall d, In d (dict_keys DOMAINS) -> p <> domain_dir d) ->
               fs w' !! p = fs w !! p) /\
    log w' = log w
             ++ flat_map (fun d => if is_present (fs w !! domain_dir d)
                                   then [] else [Mkdir (domain_dir d)])
                         (dict_keys DOMAINS).
Proof.
  intros Hready.
  set (g := fun d => if is_present (fs w !! domain_dir d)
                     then [] else [Mkdir (domain_dir d)]).
  set (Inv := fun (pre : list text) (_ : unit) (w' : world) =>
                (forall d, In d pre -> fs w' !! domain_dir d = Some Dir) /\
                (forall p, (forall d, In d pre -> p <> domain_dir d) ->
                           fs w' !! p = fs w !! p) /\
                log w' = log w ++ flat_map g pre).
  unfold create_domain_packages. rewrite bind_run, print_run.
  match goal with
  | |- context [for_each ?xs ?body ?a ?w1] =>
    pose proof (for_each_inv Inv (fun _ _ => False) body xs) as L;
    specialize (fun H => L H a w1)
  end.
  match type of L with
  | ?P -> ?Q -> _ => assert (H1 : P); [|assert (H2 : Q); [|specialize (L H1 H2)]]
  end.
  - intros pre x post [] w2 Hxs (I1 & I2 & I3).
    assert (Hx : In x (dict_keys DOMAINS))
      by (rewrite Hxs; apply in_or_app; right; left; reflexivity).
    assert (Hnew : ~ In x pre).
    { apply (nodup_middle pre post). rewrite <- Hxs. apply domains_nodup. }
    assert (Hlk : fs w2 !! domain_dir x = fs w !! domain_dir x).
    { apply I2. intros d Hd E. apply domain_dir_inj in E. congruence. }
    cbn beta iota. rewrite bind_run.
    change (PRICING_DIR ++ [x]) with (domain_dir x).
    destruct (create_ready_spec _ x Hready Hx) as [Hd|[Hn Hp]].
    + rewrite mkdir_run_dir by congruence. rewrite print_run.
      unfold Inv. cbn [fs log]. repeat split.
      * intros d Hd'. apply in_app_or in Hd' as [Hd'|[<-|[]]]; auto; congruence.
      * intros p Hp. apply I2. intros d Hd'. apply Hp, in_or_app. auto.
      * rewrite flat_map_app. cbn [flat_map]. unfold g at 2. rewrite Hd.
        cbn [is_present app]. rewrite app_nil_r. exact I3.
    + rewrite mkdir_run_new.
      2:{ congruence. }
      2:{ rewrite parent_domain_dir, I2; [exact Hp|].
          intros d _. apply pricing_not_domain_dir. }
      rewrite print_run. unfold Inv. cbn [fs log]. repeat split.
      * intros d Hd'. apply in_app_or in Hd' as [Hd'|[<-|[]]].
        -- rewrite lookup_insert_ne; [auto|].
           intros E. apply domain_dir_inj in E. congruence.
        -- apply lookup_insert_eq.
      * intros p Hp'. rewrite lookup_insert_ne.
        -- apply I2. intros d Hd'. apply Hp', in_or_app. auto.
        -- intros E. apply (Hp' x); [|congruence].
           apply in_or_app. right. left. reflexivity.
      * rewrite flat_map_app. cbn [flat_map]. unfold g at 2. rewrite Hn.
        cbn [is_present app]. rewrite I3, <- app_assoc. reflexivity.
  - unfold Inv. cbn [fs log flat_map]. repeat split; try easy.
    rewrite app_nil_r. reflexivity.
  - destruct (for_each _ _ _ _) as [w' [e|[]]]; [contradiction|].
    exists w'. split; [reflexivity|exact L].
Qed.

(** ** The move stage *)

Lemma domain_files_pairs : domain_files = pairs_of DOMAINS.
Proof. reflexivity. Qed.

Lemma domain_files_domain (d f : text) :
  In (d, f) domain_files -> In d (dict_keys DOMAINS).
Proof.
  unfold domain_files, dict_keys. generalize DOMAINS.
  induction d0 as [|[d' files] l IH]; [intros []|].
  cbn [flat_map List.map fst]. intros H. apply in_app_or in H as [H|H].
  - left. apply in_map_iff in H as (f' & [= -> ->] & _). reflexivity.
  - right. apply IH, H.
Qed.

Lemma move_ready_spec (m : gmap path node) (d f : text) :
  move_ready m = true -> In (d, f) domain_files ->
  is_dir (m !! source_of f) = false /\
  (m !! source_of f <> None -> is_dir (m !! dest_of d f) = false).
Proof.
  unfold move_ready. rewrite forallb_forall. intros H Hin.
  specialize (H _ Hin). cbn beta iota in H.
  apply andb_true_iff in H as [H1 H2]. apply negb_true_iff in H1.
  split; [exact H1|]. intros Hp.
  apply orb_true_iff in H2 as [H2|H2].
  - destruct (m !! source_of f); [discriminate|congruence].
  - apply negb_true_iff in H2. exact H2.
Qed.

Lemma earlier_other_file (done rest : list (text * text)) (d f d' f' : text) :
  done ++ (d, f) :: rest = domain_files -> In (d', f') done -> f' <> f.
Proof.
  intros Hdec Hin ->.
  pose proof domain_files_nodup as N. rewrite <- Hdec in N.
  rewrite map_app in N. cbn [List.map snd] in N.
  apply nodup_middle in N. apply N.
  apply in_map_iff. exists (d', f). auto.
Qed.

Lemma moved_inv_print (w0 : world) (done : list (text * text)) (acc : nat)
    (w : world) (m : msg) :
  moved_inv w0 done acc w ->
  moved_inv w0 done acc (World (fs w) (log w) (out w ++ [m])).
Proof.
  intros (J1 & J2 & J3 & J4 & J5 & J6 & J7).
  unfold moved_inv. cbn [fs log out]. repeat split; auto.
  - intros d f Hin Hn. apply in_or_app. left. eauto.
  - intros x Hx. apply in_or_app. left. auto.
Qed.

Lemma move_one_step (w0 : world) (done rest : list (text * text))
    (d f : text) (acc : nat) (w : world) :
  done ++ (d, f) :: rest = domain_files ->
  move_pre (fs w0) ->
  moved_inv w0 done acc w ->
  exists w' acc',
    move_one false d acc f w = (w', inr acc') /\
    moved_inv w0 (done ++ [(d, f)]) acc' w'.
Proof.
  intros Hdec [Hdirs Hready] (J1 & J2 & J3 & J4 & J5 & J6 & J7).
  assert (Hin : In (d, f) domain_files)
    by (rewrite <- Hdec; apply in_or_app; right; left; reflexivity).
  assert (Hother : forall d' f', In (d', f') done -> f' <> f)
    by (intros d' f'; apply (earlier_other_file done rest d f d' f' Hdec)).
  destruct (move_ready_spec _ d f Hready Hin) as [Hsrc Hdst].
  assert (Hd : In d (dict_keys DOMAINS)) by (eapply domain_files_domain, Hin).
  assert (Esrc : fs w !! source_of f = fs w0 !! source_of f).
  { apply J3. intros d' f' Hin'. split.
    - intros E. apply source_of_inj in E. apply (Hother d' f' Hin'). auto.
    - intros _. apply source_not_dest. }
  assert (Edst : fs w !! dest_of d f = fs w0 !! dest_of d f).
  { apply J3. intros d' f' Hin'. split.
    - intros E. symmetry in E. exact (source_not_dest _ _ _ E).
    - intros _ E. apply dest_of_inj in E as [_ E].
      apply (Hother d' f' Hin'). auto. }
  assert (Edir : fs w !! domain_dir d = Some Dir).
  { rewrite J3; [apply Hdirs, Hd|]. intros d' f' Hin'. split.
    - intros E. apply domain_dir_inj in E.
      apply (domain_not_filename d f' d'); [exact Hd| |exact E].
      rewrite <- Hdec. apply in_or_app. left. exact Hin'.
    - intros _. apply domain_dir_not_dest. }
  unfold move_one. rewrite bind_run, path_exists_run.
  change (PRICING_DIR ++ [f]) with (source_of f).
  change (PRICING_DIR ++ [d; f]) with (dest_of d f).
  rewrite Esrc.
  destruct (fs w0 !! source_of f) as [[|c]|] eqn:E0; [discriminate| |].
  - (* the file is there: it is moved *)
    cbn [is_present negb]. rewrite bind_run.
    rewrite (read_file_run _ c) by congruence.
    rewrite bind_run, write_file_run.
    2:{ rewrite Edst. apply Hdst. discriminate. }
    2:{ right. rewrite parent_dest_of. exact Edir. }
    rewrite bind_run, (unlink_run _ c).
    2:{ cbn [fs]. rewrite lookup_insert_ne; [congruence|].
        intros E. symmetry in E. exact (source_not_dest _ _ _ E). }
    rewrite bind_run, print_run. cbn [fs log out].
    eexists _, _. split; [reflexivity|].
    unfold moved_inv. cbn [fs log out]. repeat split.
    + intros d' f' Hin'. apply in_app_or in Hin' as [Hin'|[[= <- <-]|[]]].
      * destruct (decide (source_of f = source_of f')) as [->|Hne].
        -- apply lookup_delete_eq.
        -- rewrite lookup_delete_ne by exact Hne.
           rewrite lookup_insert_ne; [eauto|]. intros E.
           symmetry in E. exact (source_not_dest _ _ _ E).
      * apply lookup_delete_eq.
    + intros d' f' c' Hin' Hc'.
      rewrite lookup_delete_ne by apply source_not_dest.
      apply in_app_or in Hin' as [Hin'|[[= <- <-]|[]]].
      * rewrite lookup_insert_ne; [eauto|].
        intros E. apply dest_of_inj in E as [_ E].
        apply (Hother d' f' Hin'). auto.
      * rewrite lookup_insert_eq. congruence.
    + intros p Hp.
      destruct (Hp d f) as [Hp1 Hp2];
        [apply in_or_app; right; left; reflexivity|].
      rewrite lookup_delete_ne by congruence.
      rewrite lookup_insert_ne by (intros E; apply Hp2; congruence).
      apply J3. intros d' f' Hin'. apply Hp, in_or_app. auto.
    + rewrite List.filter_app, length_app. cbn [List.filter].
      unfold present_in at 2. cbn [snd]. rewrite E0. cbn. lia.
    + rewrite flat_map_app. cbn [flat_map move_log]. rewrite E0.
      rewrite J5, app_nil_r, <- !app_assoc. reflexivity.
    + intros d' f' Hin' Hn. apply in_or_app. left.
      apply in_app_or in Hin' as [Hin'|[[= <- <-]|[]]]; [eauto|congruence].
    + intros x Hx. apply in_or_app. left. auto.
  - (* the file is missing: a warning, nothing else *)
    cbn [is_present negb]. rewrite bind_run, print_run.
    eexists _, _. split; [reflexivity|].
    unfold moved_inv. cbn [fs log out]. repeat split.
    + intros d' f' Hin'. apply in_app_or in Hin' as [Hin'|[[= <- <-]|[]]];
        [eauto|congruence].
    + intros d' f' c' Hin' Hc'.
      apply in_app_or in Hin' as [Hin'|[[= <- <-]|[]]]; [eauto|congruence].
    + intros p Hp. apply J3. intros d' f' Hin'. apply Hp, in_or_app. auto.
    + rewrite List.filter_app, length_app. cbn [List.filter].
      unfold present_in at 2. cbn [snd]. rewrite E0. cbn. lia.
    + rewrite flat_map_app. cbn [flat_map move_log]. rewrite E0.
      rewrite J5, !app_nil_r. reflexivity.
    + intros d' f' Hin' Hn.
      apply in_app_or in Hin' as [Hin'|[[= <- <-]|[]]].
      * apply in_or_app. left. eauto.
      * apply in_or_app. right. left. reflexivity.
    + intros x Hx. apply in_or_app. left. auto.
Qed.

Lemma pairs_of_app (a b : dict (list text)) :
  pairs_of (a ++ b) = pairs_of a ++ pairs_of b.
Proof. apply flat_map_app. Qed.

Lemma move_domain (w0 : world) (pre post : dict (list text)) (d : text)
    (files : list text) (acc : nat) (w : world) :
  DOMAINS = pre ++ (d, files) :: post ->
  move_pre (fs w0) ->
  moved_inv w0 (pairs_of pre) acc w ->
  exists w' acc',
    for_each files (move_one false d) acc w = (w', inr acc') /\
    moved_inv w0 (pairs_of (pre ++ [(d, files)])) acc' w'.
Proof.
  intros Hdec Hpre HJ.
  pose proof (for_each_inv
                (fun pre_f acc w =>
                   moved_inv w0 (pairs_of pre ++ List.map (pair d) pre_f) acc w)
                (fun _ _ => False)
                (move_one false d) files) as L.
  specialize (fun H => L H acc w).
  match type of L with
  | ?P -> ?Q -> _ => assert (H1 : P); [|assert (H2 : Q); [|specialize (L H1 H2)]]
  end.
  - intros pre_f f post_f a w1 Hfiles HJ1.
    destruct (move_one_step w0 (pairs_of pre ++ List.map (pair d) pre_f)
                (List.map (pair d) post_f ++ pairs_of post) d f a w1)
      as (w' & acc' & Hrun & HJ'); [|exact Hpre|exact HJ1|].
    + rewrite domain_files_pairs, Hdec, pairs_of_app.
      cbn [pairs_of flat_map]. rewrite Hfiles, map_app.
      cbn [List.map]. rewrite <- !app_assoc. reflexivity.
    + rewrite Hrun, map_app, app_assoc. exact HJ'.
  - cbn [List.map]. rewrite app_nil_r. exact HJ.
  - destruct (for_each _ _ _ _) as [w' [e|acc']]; [contradiction|].
    exists w', acc'. split; [reflexivity|].
    rewrite pairs_of_app. cbn [pairs_of flat_map]. rewrite app_nil_r.
    exact L.
Qed.

Lemma move_live (w : world) :
  move_pre (fs w) ->
  exists w' n,
    move_files_and_update_packages false w = (w', inr n) /\
    moved_inv w domain_files n w' /\
    In (TotalMoved n) (out w').
Proof.
  intros Hpre.
  unfold move_files_and_update_packages. rewrite bind_run, print_run.
  rewrite bind_run.
  match goal with
  | |- context [for_each DOMAINS ?body 0 ?w1] =>
    pose proof (for_each_inv
                  (fun pre acc w' => moved_inv w (pairs_of pre) acc w')
                  (fun _ _ => False) body DOMAINS) as L;
    specialize (fun H => L H 0 w1)
  end.
  match type of L with
  | ?P -> ?Q -> _ => assert (H1 : P); [|assert (H2 : Q); [|specialize (L H1 H2)]]
  end.
  - intros pre [d files] post a w1 Hdec HJ.
    cbn beta iota. rewrite bind_run, print_run.
    destruct (move_domain w pre post d files a _ Hdec Hpre
                (moved_inv_print _ _ _ _ (DomainHeader d) HJ))
      as (w' & acc' & Hrun & HJ').
    rewrite Hrun. exact HJ'.
  - unfold moved_inv. cbn [fs log out pairs_of flat_map List.filter length].
    repeat split; try easy.
    + rewrite app_nil_r. reflexivity.
    + intros x Hx. apply in_or_app. left. exact Hx.
  - destruct (for_each _ _ _ _) as [w' [e|n]]; [contradiction|].
    rewrite bind_run, print_run. eexists _, n. split; [reflexivity|].
    split; [apply moved_inv_print; exact L|].
    cbn [out]. apply in_or_app. right. left. reflexivity.
Qed.

(** ** The import stage *)

Lemma java_files_spec (m : gmap path node) (p : path) :
  In p (java_files m) <->
  (below BASE_DIR p && is_java p = true /\ m !! p <> None).
Proof.
  unfold java_files. rewrite filter_In, in_map_iff. split.
  - intros [([q n] & <- & Hin) Hj]. split; [exact Hj|].
    apply list_elem_of_In, elem_of_map_to_list in Hin.
    cbn [fst]. congruence.
  - intros [Hj Hp]. split; [|exact Hj].
    destruct (m !! p) as [n|] eqn:E; [|congruence].
    exists (p, n). split; [reflexivity|].
    apply list_elem_of_In, elem_of_map_to_list. exact E.
Qed.

Lemma java_files_nodup (m : gmap path node) : List.NoDup (java_files m).
Proof.
  unfold java_files. apply List.NoDup_filter.
  apply (NoDup_ListNoDup (List.map fst (map_to_list m))).
  apply NoDup_fst_map_to_list.
Qed.

Lemma update_ready_spec (m : gmap path node) (p : path) :
  update_ready m = true -> In p (java_files m) ->
  exists content, m !! p = Some (File content).
Proof.
  unfold update_ready. rewrite forallb_forall. intros H Hin.
  apply java_files_spec in Hin as [Hj Hp].
  destruct (m !! p) as [[|c]|] eqn:E; [|eauto|congruence].
  specialize (H (p, Dir)). cbn beta iota in H.
  rewrite Hj in H. cbn in H. exfalso.
  assert (false = true); [|discriminate]. apply H.
  apply list_elem_of_In, elem_of_map_to_list. exact E.
Qed.

Lemma updated_other (m : gmap path node) (p : path) :
  ~ In p (java_files m) -> updated m p = m !! p.
Proof.
  intros H. unfold updated.
  destruct (below BASE_DIR p && is_java p) eqn:Hj; [|reflexivity].
  destruct (m !! p) as [n|] eqn:E; [|reflexivity].
  exfalso. apply H. apply java_files_spec. split; [exact Hj|congruence].
Qed.

Lemma rglob_java_run (w : world) :
  rglob_java BASE_DIR w = (w, inr (java_files (fs w))).
Proof. reflexivity. Qed.

Lemma update_live (w : world) :
  update_ready (fs w) = true ->
  exists w' files_updated imports_updated,
    update_imports false w = (w', inr (files_updated, imports_updated)) /\
    (forall p, fs w' !! p = updated (fs w) p) /\
    log w' = log w ++ flat_map (update_log (fs w)) (java_files (fs w)) /\
    files_updated = length (flat_map (update_log (fs w)) (java_files (fs w))) /\
    out w' = out w ++ [Step 3]
             ++ flat_map (update_out (fs w)) (java_files (fs w))
             ++ [FilesUpdated files_updated; ImportsUpdated imports_updated].
Proof.
  intros Hready. set (m0 := fs w).
  unfold update_imports. rewrite bind_run, print_run.
  rewrite bind_run, rglob_java_run. cbn [fs]. fold m0.
  rewrite bind_run.
  match goal with
  | |- context [for_each ?xs ?body ?a ?w1] =>
    pose proof (for_each_inv
                  (fun pre (c : nat * nat) w' =>
                     (forall p, In p pre -> fs w' !! p = updated m0 p) /\
                     (forall p, ~ In p pre -> fs w' !! p = m0 !! p) /\
                     log w' = log w ++ flat_map (update_log m0) pre /\
                     fst c = length (flat_map (update_log m0) pre) /\
                     out w' = out w ++ [Step 3]
                              ++ flat_map (update_out m0) pre)
                  (fun _ _ => False) body xs) as L;
    specialize (fun H => L H a w1)
  end.
  match type of L with
  | ?P -> ?Q -> _ => assert (H1 : P); [|assert (H2 : Q); [|specialize (L H1 H2)]]
  end.
  - intros pre x post [fu iu] w2 Hxs (I1 & I2 & I3 & I4 & I5).
    assert (Hx : In x (java_files m0))
      by (rewrite Hxs; apply in_or_app; right; left; reflexivity).
    assert (Hnew : ~ In x pre).
    { apply (nodup_middle pre post). rewrite <- Hxs. apply java_files_nodup. }
    destruct (update_ready_spec m0 x Hready Hx) as [c Hc].
    assert (Hupd : updated m0 x = Some (File (fst (update_content c)))).
    { unfold updated. apply java_files_spec in Hx as [-> _].
      rewrite Hc. reflexivity. }
    unfold update_one. cbn [negb]. rewrite bind_run.
    rewrite (read_file_run _ c) by (rewrite I2; auto).
    destruct (update_content c) as [content cnt] eqn:Eu. cbn [fst snd] in *.
    destruct (text_eqb content c) eqn:Ec; cbn [negb].
    + apply text_eqb_eq in Ec. subst content.
      cbn [ret fs log out fst]. repeat split.
      * intros p Hp. apply in_app_or in Hp as [Hp|[<-|[]]]; [auto|].
        rewrite I2 by exact Hnew. congruence.
      * intros p Hp. apply I2. intros Hp'. apply Hp, in_or_app. auto.
      * rewrite flat_map_app. cbn [flat_map]. unfold update_log at 2.
        rewrite Hc, Eu. cbn [fst]. rewrite text_eqb_refl, !app_nil_r. exact I3.
      * rewrite flat_map_app. cbn [flat_map]. unfold update_log at 2.
        rewrite Hc, Eu. cbn [fst]. rewrite text_eqb_refl, !app_nil_r. exact I4.
      * rewrite flat_map_app. cbn [flat_map]. unfold update_out at 2.
        rewrite Hc, Eu. cbn [fst]. rewrite text_eqb_refl, !app_nil_r. exact I5.
    + rewrite bind_run, write_file_run.
      2:{ rewrite I2 by exact Hnew. rewrite Hc. reflexivity. }
      2:{ left. rewrite I2 by exact Hnew. rewrite Hc. reflexivity. }
      rewrite bind_run, print_run.
      cbn [ret fs log out fst]. repeat split.
      * intros p Hp. apply in_app_or in Hp as [Hp|[<-|[]]].
        -- rewrite lookup_insert_ne; [auto|]. intros <-. contradiction.
        -- rewrite lookup_insert_eq. congruence.
      * intros p Hp. rewrite lookup_insert_ne.
        -- apply I2. intros Hp'. apply Hp, in_or_app. auto.
        -- intros <-. apply Hp, in_or_app. right. left. reflexivity.
      * rewrite flat_map_app. cbn [flat_map]. unfold update_log at 2.
        rewrite Hc, Eu. cbn [fst]. rewrite Ec, I3, app_nil_r, <- app_assoc.
        reflexivity.
      * rewrite flat_map_app, length_app. cbn [flat_map]. unfold update_log at 2.
        rewrite Hc, Eu. cbn [fst]. rewrite Ec. cbn [length app]. lia.
      * rewrite flat_map_app. cbn [flat_map]. unfold update_out at 2.
        rewrite Hc, Eu. cbn [fst snd]. rewrite Ec, I5, app_nil_r.
        rewrite <- !app_assoc. reflexivity.
  - cbn [fs log out flat_map length fst]. repeat split; try easy.
    rewrite app_nil_r. reflexivity.
  - destruct (for_each _ _ _ _) as [w' [e|[fu iu]]]; [contradiction|].
    destruct L as (I1 & I2 & I3 & I4 & I5). cbn [fst] in I4.
    rewrite !bind_run, !print_run. cbn [ret].
    eexists _, fu, iu. split; [reflexivity|]. cbn [fs log out].
    repeat split; auto.
    + intros p. destruct (decide (p ∈ java_files m0)) as [Hp|Hp];
        rewrite list_elem_of_In in Hp; [auto|].
      rewrite I2 by exact Hp. symmetry. apply updated_other, Hp.
    + rewrite I5, <- !app_assoc. reflexivity.
Qed.

(** ** The report *)

Lemma nr_ret {A} (a : A) : never_raises (ret a).
Proof. intros w. eexists _, _. reflexivity. Qed.

Lemma nr_print (m : msg) : never_raises (print m).
Proof. intros w. eexists _, _. reflexivity. Qed.

Lemma nr_path_exists (p : path) : never_raises (path_exists p).
Proof. intros w. eexists _, _. reflexivity. Qed.

Lemma nr_rglob_java (p : path) : never_raises (rglob_java p).
Proof. intros w. eexists _, _. reflexivity. Qed.

Lemma nr_glob_java_count (p : path) : never_raises (glob_java_count p).
Proof. intros w. eexists _, _. reflexivity. Qed.

Lemma nr_bind {A B} (m : M A) (k : A -> M B) :
  never_raises m -> (forall a, never_raises (k a)) -> never_raises (m ≫= k).
Proof.
  intros Hm Hk w. rewrite bind_run.
  destruct (Hm w) as (w' & a & ->). apply Hk.
Qed.

Lemma nr_for_each {X A} (xs : list X) (body : A -> X -> M A) (a : A) :
  (forall a x, never_raises (body a x)) -> never_raises (for_each xs body a).
Proof.
  intros Hb. revert a. induction xs as [|x xs IH]; intros a.
  - apply nr_ret.
  - cbn [for_each]. apply nr_bind; auto.
Qed.

Ltac never_raises :=
  repeat first
    [ apply nr_ret | apply nr_print | apply nr_path_exists
    | apply nr_rglob_java | apply nr_glob_java_count
    | apply nr_for_each; intros ? ?
    | apply nr_bind; [|intros ?]
    | match goal with
      | |- never_raises (if ?b then _ else _) => destruct b
      end ].

Lemma nr_print_summary (a b c : nat) : never_raises (print_summary a b c).
Proof. unfold print_summary, verify_structure. never_raises. Qed.

Lemma print_summary_run (a b c : nat) (w : world) :
  exists w', print_summary a b c w = (w', inr tt) /\ no_mutation w w'.
Proof.
  destruct (nr_print_summary a b c w) as (w' & [] & H).
  exists w'. split; [exact H|].
  pose proof (ro_print_summary a b c w) as R. rewrite H in R. exact R.
Qed.

Lemma out_grows_refl (w : world) : out_grows w w.
Proof. exists []. symmetry. apply app_nil_r. Qed.

Lemma out_grows_trans (w1 w2 w3 : world) :
  out_grows w1 w2 -> out_grows w2 w3 -> out_grows w1 w3.
Proof.
  intros [o1 H1] [o2 H2]. exists (o1 ++ o2).
  rewrite H2, H1, app_assoc. reflexivity.
Qed.

Lemma out_grows_In (w w' : world) (x : msg) :
  out_grows w w' -> In x (out w) -> In x (out w').
Proof. intros [o ->] H. apply in_or_app. left. exact H. Qed.

Lemma og_ret {A} (a : A) : preserves out_grows (ret a).
Proof. intros w. apply out_grows_refl. Qed.

Lemma og_print (m : msg) : preserves out_grows (print m).
Proof. intros w. exists [m]. reflexivity. Qed.

Lemma og_path_exists (p : path) : preserves out_grows (path_exists p).
Proof. intros w. apply out_grows_refl. Qed.

Lemma og_rglob_java (p : path) : preserves out_grows (rglob_java p).
Proof. intros w. apply out_grows_refl. Qed.

Lemma og_glob_java_count (p : path) : preserves out_grows (glob_java_count p).
Proof. intros w. apply out_grows_refl. Qed.

Lemma og_bind {A B} (m : M A) (k : A -> M B) :
  preserves out_grows m -> (forall a, preserves out_grows (k a)) ->
  preserves out_grows (m ≫= k).
Proof. exact (preserves_bind _ out_grows_trans m k). Qed.

Lemma og_for_each {X A} (xs : list X) (body : A -> X -> M A) (a : A) :
  (forall a x, preserves out_grows (body a x)) ->
  preserves out_grows (for_each xs body a).
Proof.
  exact (preserves_for_each _ out_grows_refl out_grows_trans xs body a).
Qed.

Ltac out_grows :=
  repeat first
    [ apply og_ret | apply og_print | apply og_path_exists
    | apply og_rglob_java | apply og_glob_java_count
    | apply og_for_each; intros ? ?
    | apply og_bind; [|intros ?]
    | match goal with
      | |- preserves _ (if ?b then _ else _) => destruct b
      end ].

Lemma og_verify_structure : preserves out_grows verify_structure.
Proof. unfold verify_structure. out_grows. Qed.

Lemma print_summary_out (a b c : nat) (w : world) :
  In (SummaryMoved a) (out (fst (print_summary a b c w))) /\
  In (SummaryFiles b) (out (fst (print_summary a b c w))) /\
  (forall x, In x (out w) -> In x (out (fst (print_summary a b c w)))).
Proof.
  unfold print_summary.
  do 4 (rewrite bind_run, print_run).
  match goal with
  | |- context [(verify_structure ≫= ?k) ?w1] =>
    assert (G : out_grows w1 (fst ((verify_structure ≫= k) w1)))
  end.
  { apply og_bind; [apply og_verify_structure|intros ?; apply og_print]. }
  repeat split; intros; apply (out_grows_In _ _ _ G); cbn [out];
    rewrite ?in_app_iff; cbn [In]; auto 10.
Qed.
(** ** A confirmed live run *)

Lemma live_ready_spec (m : gmap path node) :
  live_ready m = true ->
  m !! PRICING_DIR <> None /\ create_ready m = true /\ move_ready m = true
  /\ update_ready m = true.
Proof.
  unfold live_ready. rewrite !andb_true_iff. intros [[[H1 H2] H3] H4].
  repeat split; auto. destruct (m !! PRICING_DIR); discriminate.
Qed.

Lemma update_ready_iff (m : gmap path node) :
  update_ready m = true <->
  (forall p, below BASE_DIR p && is_java p = true -> m !! p <> Some Dir).
Proof.
  unfold update_ready. rewrite forallb_forall. split.
  - intros H p Hj E.
    specialize (H (p, Dir)). cbn beta iota in H. rewrite Hj in H.
    assert (false = true); [|discriminate]. apply H.
    apply list_elem_of_In, elem_of_map_to_list. exact E.
  - intros H [p n] Hin. apply list_elem_of_In, elem_of_map_to_list in Hin.
    destruct (below BASE_DIR p && is_java p) eqn:Hj; [|reflexivity].
    destruct n; [|reflexivity]. exfalso. exact (H p Hj Hin).
Qed.

Lemma domain_dir_not_java (d : text) :
  In d (dict_keys DOMAINS) -> is_java (domain_dir d) = false.
Proof.
  intros Hd.
  assert (A : forallb (fun d => negb (is_java (domain_dir d)))
                      (dict_keys DOMAINS) = true) by (vm_compute; reflexivity).
  rewrite forallb_forall in A. apply negb_true_iff, A, Hd.
Qed.

(** Is [p] one of the domain directories? *)
Lemma domain_dir_cases (p : path) :
  (exists d, In d (dict_keys DOMAINS) /\ p = domain_dir d)
  \/ (forall d, In d (dict_keys DOMAINS) -> p <> domain_dir d).
Proof.
  destruct (decide (Exists (fun d => p = domain_dir d) (dict_keys DOMAINS)))
    as [H|H].
  - left. apply Exists_exists in H as (d & Hd & ->).
    exists d. split; [apply list_elem_of_In, Hd|reflexivity].
  - right. intros d Hd E. apply H, Exists_exists. exists d.
    split; [apply list_elem_of_In, Hd|exact E].
Qed.

Lemma move_ready_after_create (m mA : gmap path node) :
  move_ready m = true ->
  (forall p, (forall d, In d (dict_keys DOMAINS) -> p <> domain_dir d) ->
             mA !! p = m !! p) ->
  move_ready mA = true.
Proof.
  unfold move_ready. rewrite !forallb_forall. intros H Hsame [d f] Hin.
  specialize (H _ Hin). cbn beta iota in H |- *.
  rewrite !Hsame; [exact H| |].
  - intros d' _ E. symmetry in E. exact (domain_dir_not_dest _ _ _ E).
  - intros d' Hd' E. apply domain_dir_inj in E.
    apply (domain_not_filename d' f d Hd' Hin). auto.
Qed.

Lemma update_ready_after_create (m mA : gmap path node) :
  update_ready m = true ->
  (forall p, (forall d, In d (dict_keys DOMAINS) -> p <> domain_dir d) ->
             mA !! p = m !! p) ->
  update_ready mA = true.
Proof.
  rewrite !update_ready_iff. intros H Hsame p Hj E.
  destruct (domain_dir_cases p) as [(d & Hd & ->)|Hp].
  - apply andb_true_iff in Hj as [_ Hj].
    rewrite domain_dir_not_java in Hj by exact Hd. discriminate.
  - rewrite Hsame in E by exact Hp. exact (H p Hj E).
Qed.

(** Where the move stage leaves a path. *)
Lemma moved_cases (w0 : world) (done : list (text * text)) (acc : nat)
    (w : world) (p : path) :
  (forall d f, In (d, f) done -> is_dir (fs w0 !! source_of f) = false) ->
  moved_inv w0 done acc w ->
  fs w !! p = None
  \/ (exists c, fs w !! p = Some (File c))
  \/ fs w !! p = fs w0 !! p.
Proof.
  intros Hsrc (J1 & J2 & J3 & _).
  destruct (decide (Exists (fun e : text * text =>
                              p = source_of (snd e)
                              \/ (fs w0 !! source_of (snd e) <> None
                                  /\ p = dest_of (fst e) (snd e))) done))
    as [H|H].
  - apply Exists_exists in H as ([d f] & Hin & H). cbn [fst snd] in H.
    apply list_elem_of_In in Hin. destruct H as [->|[Hp ->]].
    + left. eauto.
    + right. left. specialize (Hsrc d f Hin).
      destruct (fs w0 !! source_of f) as [[|c]|] eqn:E;
        [discriminate| |congruence].
      exists (rewrite_package d c). eauto.
  - right. right. apply J3. intros d f Hin. split.
    + intros E. apply H, Exists_exists. exists (d, f).
      split; [apply list_elem_of_In, Hin|]. left. exact E.
    + intros Hp E. apply H, Exists_exists. exists (d, f).
      split; [apply list_elem_of_In, Hin|]. right. auto.
Qed.

Lemma update_ready_after_move (w0 : world) (acc : nat) (w : world) :
  update_ready (fs w0) = true -> move_ready (fs w0) = true ->
  moved_inv w0 domain_files acc w ->
  update_ready (fs w) = true.
Proof.
  rewrite !update_ready_iff. intros H Hready HJ p Hj E.
  destruct (moved_cases w0 domain_files acc w p) as [Hc|[[c Hc]|Hc]];
    [|exact HJ|congruence|congruence|].
  - intros d f Hin. apply (move_ready_spec _ d f Hready Hin).
  - rewrite Hc in E. exact (H p Hj E).
Qed.

Lemma main_live (argv : list text) (response : text) (w : world) :
  existsb (text_eqb (str "--dry-run")) argv = false ->
  str_lower response = str "yes" ->
  live_ready (fs w) = true ->
  exists wA wB wC w1 n files_updated,
    main argv (Line response) w = (w1, inr tt) /\
    live_run w wA wB wC w1 n files_updated.
Proof.
  intros Hdry Hyes Hready.
  destruct (live_ready_spec _ Hready) as (Hp & Hc & Hm & Hu).
  unfold main. rewrite Hdry. cbn [negb].
  do 3 (rewrite bind_run, print_run).
  rewrite bind_run, path_exists_run. cbn [fs].
  destruct (fs w !! PRICING_DIR) as [npd|] eqn:Epd; [|congruence].
  cbn [is_present negb].
  rewrite bind_run. cbn [ret].
  rewrite bind_run, bind_run. unfold input. rewrite bind_run, print_run.
  cbn [ret]. rewrite Hyes, text_eqb_refl. cbn [negb ret].
  rewrite bind_run.
  match goal with
  | |- context [create_domain_packages false ?wG] =>
    destruct (create_live wG Hc) as (wA & HrunA & A1 & A2 & A3)
  end.
  rewrite HrunA. cbn [fs log] in A2, A3.
  assert (HpreB : move_pre (fs wA)).
  { split; [exact A1|]. eapply move_ready_after_create; eauto. }
  destruct (move_live wA HpreB) as (wB & n & HrunB & HJ & Htotal).
  rewrite bind_run, HrunB.
  assert (HpreC : update_ready (fs wB) = true).
  { eapply update_ready_after_move; [|apply HpreB|exact HJ].
    eapply update_ready_after_create; eauto. }
  destruct (update_live wB HpreC) as (wC & fu & iu & HrunC & C1 & C2 & C3 & C4).
  rewrite bind_run, HrunC.
  destruct (print_summary_run n fu iu wC) as (w1 & Hrun1 & Hnm).
  pose proof (print_summary_out n fu iu wC) as (S1 & S2 & S3).
  rewrite Hrun1 in *. cbn [fst] in *.
  exists wA, wB, wC, w1, n, fu. split; [reflexivity|].
  unfold live_run.
  split; [exact A1|]. split; [exact A2|]. split; [exact A3|].
  split; [exact HJ|]. split; [exact C1|]. split; [exact C2|].
  split; [exact C3|]. split; [exact Hnm|].
  repeat split; intros; try assumption;
    apply S3; rewrite C4, !in_app_iff; cbn [In]; auto 10.
Qed.

Lemma update_log_In (m : gmap path node) (ps : list path) (mu : mutation) :
  In mu (flat_map (update_log m) ps) ->
  exists p content,
    In p ps /\ m !! p = Some (File content) /\
    fst (update_content content) <> content /\
    mu = Write p (fst (update_content content)).
Proof.
  rewrite in_flat_map. intros (p & Hp & Hmu). unfold update_log in Hmu.
  destruct (m !! p) as [[|c]|] eqn:E; try contradiction.
  destruct (text_eqb (fst (update_content c)) c) eqn:Ec; [contradiction|].
  destruct Hmu as [<-|[]]. apply text_eqb_neq in Ec. eauto 10.
Qed.

Lemma update_out_In (m : gmap path node) (ps : list path) (x : msg) :
  In x (flat_map (update_out m) ps) ->
  exists p content,
    In p ps /\ m !! p = Some (File content) /\
    fst (update_content content) <> content /\
    x = Updated p (snd (update_content content)).
Proof.
  rewrite in_flat_map. intros (p & Hp & Hx). unfold update_out in Hx.
  destruct (m !! p) as [[|c]|] eqn:E; try contradiction.
  destruct (text_eqb (fst (update_content c)) c) eqn:Ec; [contradiction|].
  destruct Hx as [<-|[]]. apply text_eqb_neq in Ec. eauto 10.
Qed.

Lemma move_log_same_sources (m m' : gmap path node)
    (entries : list (text * text)) :
  (forall d f, In (d, f) entries -> m' !! source_of f = m !! source_of f) ->
  flat_map (move_log m') entries = flat_map (move_log m) entries
  /\ List.filter (present_in m') entries = List.filter (present_in m) entries.
Proof.
  intros H. induction entries as [|[d f] l IH]; [split; reflexivity|].
  destruct IH as [IH1 IH2].
  { intros d' f' Hin. apply (H d' f'). right. exact Hin. }
  assert (E1 : move_log m' (d, f) = move_log m (d, f)).
  { unfold move_log. rewrite (H d f) by (left; reflexivity). reflexivity. }
  assert (E2 : present_in m' (d, f) = present_in m (d, f)).
  { unfold present_in. cbn [snd]. rewrite (H d f) by (left; reflexivity).
    reflexivity. }
  cbn [flat_map List.filter]. rewrite E1, E2, IH1, IH2. split; reflexivity.
Qed.
(** ** More on the package rewrite *)

Lemma decl_rest_needs_keyword (s : text) :
  starts_with (str "package") s = false -> decl_rest s = None.
Proof.
  unfold starts_with, decl_rest.
  destruct (strip_prefix (str "package") s); [discriminate|reflexivity].
Qed.

Lemma starts_with_cons (c : char) (p s : text) :
  starts_with (c :: p) (c :: s) = starts_with p s.
Proof. unfold starts_with. cbn [strip_prefix]. rewrite N.eqb_refl. reflexivity. Qed.

(** Where no line starts with the keyword, nothing matches. *)
Lemma no_keyword_no_match (s : text) :
  forall prev : option char,
    (at_bol prev = true -> starts_with (str "package") s = false) ->
    contains (LF :: str "package") s = false ->
    matches_somewhere (match_here package_re) prev s = false.
Proof.
  induction s as [|x s IH]; intros prev Hb Hc; [reflexivity|].
  cbn [matches_somewhere]. rewrite match_package.
  cbn [contains] in Hc. apply orb_false_iff in Hc as [Hc1 Hc2].
  assert (Hm : (if at_bol prev then decl_rest (x :: s) else None) = None).
  { destruct (at_bol prev); [|reflexivity].
    apply decl_rest_needs_keyword, Hb. reflexivity. }
  rewrite Hm. apply IH; [|exact Hc2].
  cbn [at_bol]. intros Hx. apply N.eqb_eq in Hx. subst x.
  rewrite starts_with_cons in Hc1. exact Hc1.
Qed.
(** ** More on the stages *)

Lemma flat_map_nil {A B} (f : A -> list B) (l : list A) :
  (forall x, In x l -> f x = []) -> flat_map f l = [].
Proof.
  induction l as [|x l IH]; intros H; [reflexivity|].
  cbn [flat_map]. rewrite (H x) by (left; reflexivity).
  apply IH. intros y Hy. apply H. right. exact Hy.
Qed.

Lemma create_ready_all_dirs (m : gmap path node) :
  (forall d, In d (dict_keys DOMAINS) -> m !! domain_dir d = Some Dir) ->
  create_ready m = true.
Proof.
  intros H. unfold create_ready. apply forallb_forall. intros d Hd.
  rewrite (H d Hd). reflexivity.
Qed.

(** Once the domain directories are there, the directory stage changes
    nothing. *)
Lemma create_again (w : world) :
  (forall d, In d (dict_keys DOMAINS) -> fs w !! domain_dir d = Some Dir) ->
  exists w', create_domain_packages false w = (w', inr tt)
             /\ fs w' = fs w /\ log w' = log w.
Proof.
  intros Hdirs.
  destruct (create_live w (create_ready_all_dirs _ Hdirs))
    as (w' & Hrun & A1 & A2 & A3).
  exists w'. split; [exact Hrun|]. split.
  - apply map_eq. intros p.
    destruct (domain_dir_cases p) as [(d & Hd & ->)|Hp].
    + rewrite A1, Hdirs by exact Hd. reflexivity.
    + apply A2, Hp.
  - rewrite A3, flat_map_nil; [apply app_nil_r|].
    intros d Hd. rewrite (Hdirs d Hd). reflexivity.
Qed.

(** A regular file where a domain directory must be stops the directory
    stage. *)
Lemma create_file_in_the_way (w : world) :
  fs w !! PRICING_DIR = Some Dir ->
  (exists d c, In d (dict_keys DOMAINS)
               /\ fs w !! domain_dir d = Some (File c)) ->
  exists w',
    create_domain_packages false w = (w', inl (Exception FileExistsError)) /\
    (forall p n, fs w !! p = Some n -> fs w' !! p = Some n) /\
    (forall mu, In mu (log w') ->
                In mu (log w) \/ exists d, mu = Mkdir (domain_dir d)).
Proof.
  intros Hpd (d0 & c0 & Hd0 & Hfile).
  set (Kept := fun w' : world =>
                 (forall p n, fs w !! p = Some n -> fs w' !! p = Some n) /\
                 (forall mu, In mu (log w') ->
                             In mu (log w) \/ exists d, mu = Mkdir (domain_dir d))).
  set (Inv := fun (pre : list text) (_ : unit) (w' : world) =>
                (forall d c, In d pre -> fs w !! domain_dir d <> Some (File c)) /\
                (forall p, (forall d, In d pre -> p <> domain_dir d) ->
                           fs w' !! p = fs w !! p) /\
                Kept w').
  unfold create_domain_packages. rewrite bind_run, print_run.
  match goal with
  | |- context [for_each ?xs ?body ?a ?w1] =>
    pose proof (for_each_inv Inv
                  (fun e w' => e = Exception FileExistsError /\ Kept w')
                  body xs) as L;
    specialize (fun H => L H a w1)
  end.
  match type of L with
  | ?P -> ?Q -> _ => assert (H1 : P); [|assert (H2 : Q); [|specialize (L H1 H2)]]
  end.
  - intros pre x post [] w2 Hxs (I1 & I2 & K1 & K2).
    assert (Hnew : ~ In x pre).
    { apply (nodup_middle pre post). rewrite <- Hxs. apply domains_nodup. }
    assert (Hlk : fs w2 !! domain_dir x = fs w !! domain_dir x).
    { apply I2. intros d Hd E. apply domain_dir_inj in E. congruence. }
    cbn beta iota. rewrite bind_run.
    change (PRICING_DIR ++ [x]) with (domain_dir x).
    destruct (fs w !! domain_dir x) as [[|c]|] eqn:Ex.
    + rewrite mkdir_run_dir by congruence. rewrite print_run.
      unfold Inv, Kept. cbn [fs log]. repeat split; auto.
      * intros d c Hd. apply in_app_or in Hd as [Hd|[<-|[]]];
          [eauto|congruence].
      * intros p Hp. apply I2. intros d Hd. apply Hp, in_or_app. auto.
    + unfold mkdir_exist_ok. rewrite bind_run. cbn [get_fs].
      rewrite Hlk. cbn [raise]. unfold Kept. auto.
    + rewrite mkdir_run_new;
        [|congruence|rewrite parent_domain_dir; apply K1, Hpd].
      rewrite print_run. unfold Inv, Kept. cbn [fs log]. repeat split.
      * intros d c Hd. apply in_app_or in Hd as [Hd|[<-|[]]];
          [eauto|congruence].
      * intros p Hp. rewrite lookup_insert_ne.
        -- apply I2. intros d Hd. apply Hp, in_or_app. auto.
        -- intros E. apply (Hp x); [|congruence].
           apply in_or_app. right. left. reflexivity.
      * intros p n Hpn. rewrite lookup_insert_ne; [auto|].
        intros <-. congruence.
      * intros mu Hmu. apply in_app_or in Hmu as [Hmu|[<-|[]]]; eauto.
  - unfold Inv, Kept. cbn [fs log]. repeat split; auto; easy.
  - destruct (for_each _ _ _ _) as [w' [e|[]]].
    + destruct L as [-> [K1 K2]]. exists w'. auto.
    + destruct L as (I1 & _). exfalso. exact (I1 d0 c0 Hd0 Hfile).
Qed.

Lemma main_live_gate (argv : list text) (response : text) (w : world) :
  existsb (text_eqb (str "--dry-run")) argv = false ->
  str_lower response = str "yes" ->
  fs w !! PRICING_DIR <> None ->
  main argv (Line response) w = live_stages (after_gate w).
Proof.
  intros Hdry Hyes Hp.
  unfold main. rewrite Hdry. cbn [negb].
  do 3 (rewrite bind_run, print_run).
  rewrite bind_run, path_exists_run. cbn [fs].
  destruct (fs w !! PRICING_DIR) as [npd|] eqn:Epd; [|congruence].
  cbn [is_present negb].
  rewrite bind_run. cbn [ret].
  rewrite bind_run, bind_run. unfold input. rewrite bind_run, print_run.
  cbn [ret]. rewrite Hyes, text_eqb_refl. cbn [negb ret].
  unfold after_gate. cbn [fs log out]. rewrite <- !app_assoc. reflexivity.
Qed.


(** *** The move stage of a preview *)

Lemma preview_inv_print (w0 : world) (done : list (text * text)) (acc : nat)
    (w : world) (m : msg) :
  preview_inv w0 done acc w ->
  preview_inv w0 done acc (World (fs w) (log w) (out w ++ [m])).
Proof.
  intros (P1 & P2 & P3 & P4). unfold preview_inv. repeat split.
  - apply P1.
  - apply P1.
  - exact P2.
  - intros d f Hin. cbn [out]. apply in_or_app. left. auto.
  - eapply out_grows_trans; [exact P4|]. exists [m]. reflexivity.
Qed.

Lemma preview_one_step (w0 : world) (done : list (text * text)) (d f : text)
    (acc : nat) (w : world) :
  preview_inv w0 done acc w ->
  exists w' acc',
    move_one true d acc f w = (w', inr acc') /\
    preview_inv w0 (done ++ [(d, f)]) acc' w'.
Proof.
  intros (P1 & P2 & P3 & P4).
  unfold move_one. rewrite bind_run, path_exists_run.
  change (PRICING_DIR ++ [f]) with (source_of f).
  destruct P1 as [Pfs Plog]. rewrite Pfs.
  assert (Hpres : present_in (fs w0) (d, f) = is_present (fs w0 !! source_of f))
    by reflexivity.
  destruct (is_present (fs w0 !! source_of f)) eqn:E; cbn [negb];
    rewrite bind_run, print_run; eexists _, _; (split; [reflexivity|]);
    unfold preview_inv, no_mutation; cbn [fs log out]; repeat split; auto.
  - rewrite List.filter_app, length_app. cbn [List.filter].
    rewrite Hpres. cbn [length]. lia.
  - intros d' f' Hin. apply in_app_or in Hin as [Hin|[[= <- <-]|[]]].
    + apply in_or_app. left. auto.
    + rewrite Hpres. apply in_or_app. right. left. reflexivity.
  - eapply out_grows_trans; [exact P4|]. eexists. reflexivity.
  - rewrite List.filter_app, length_app. cbn [List.filter].
    rewrite Hpres. cbn [length]. lia.
  - intros d' f' Hin. apply in_app_or in Hin as [Hin|[[= <- <-]|[]]].
    + apply in_or_app. left. auto.
    + rewrite Hpres. apply in_or_app. right. left. reflexivity.
  - eapply out_grows_trans; [exact P4|]. eexists. reflexivity.
Qed.

Lemma preview_domain (w0 : world) (done : list (text * text)) (d : text)
    (files : list text) (acc : nat) (w : world) :
  preview_inv w0 done acc w ->
  exists w' acc',
    for_each files (move_one true d) acc w = (w', inr acc') /\
    preview_inv w0 (done ++ List.map (pair d) files) acc' w'.
Proof.
  intros HP.
  pose proof (for_each_inv
                (fun pre_f acc w =>
                   preview_inv w0 (done ++ List.map (pair d) pre_f) acc w)
                (fun _ _ => False)
                (move_one true d) files) as L.
  specialize (fun H => L H acc w).
  match type of L with
  | ?P -> ?Q -> _ => assert (H1 : P); [|assert (H2 : Q); [|specialize (L H1 H2)]]
  end.
  - intros pre_f f post_f a w1 _ HP1.
    destruct (preview_one_step w0 _ d f a w1 HP1) as (w' & acc' & Hrun & HP').
    rewrite Hrun, map_app, app_assoc. exact HP'.
  - cbn [List.map]. rewrite app_nil_r. exact HP.
  - destruct (for_each _ _ _ _) as [w' [e|acc']]; [contradiction|].
    exists w', acc'. split; [reflexivity|exact L].
Qed.

Lemma move_preview (w : world) :
  exists w' n,
    move_files_and_update_packages true w = (w', inr n) /\
    preview_inv w domain_files n w' /\
    In (TotalMoved n) (out w').
Proof.
  unfold move_files_and_update_packages. rewrite bind_run, print_run.
  rewrite bind_run.
  match goal with
  | |- context [for_each DOMAINS ?body 0 ?w1] =>
    pose proof (for_each_inv
                  (fun pre acc w' => preview_inv w (pairs_of pre) acc w')
                  (fun _ _ => False) body DOMAINS) as L;
    specialize (fun H => L H 0 w1)
  end.
  match type of L with
  | ?P -> ?Q -> _ => assert (H1 : P); [|assert (H2 : Q); [|specialize (L H1 H2)]]
  end.
  - intros pre [d files] post a w1 _ HP.
    cbn beta iota. rewrite bind_run, print_run.
    destruct (preview_domain w (pairs_of pre) d files a _
                (preview_inv_print _ _ _ _ (DomainHeader d) HP))
      as (w' & acc' & Hrun & HP').
    rewrite Hrun, pairs_of_app. cbn [pairs_of flat_map].
    rewrite app_nil_r. exact HP'.
  - unfold preview_inv, no_mutation.
    cbn [fs log out pairs_of flat_map List.filter length].
    repeat split; try easy. eexists. reflexivity.
  - destruct (for_each _ _ _ _) as [w' [e|n]]; [contradiction|].
    rewrite bind_run, print_run. eexists _, n. split; [reflexivity|].
    split; [apply preview_inv_print; exact L|].
    cbn [out]. apply in_or_app. right. left. reflexivity.
Qed.

Lemma for_each_skip {X A} (xs : list X) (body : A -> X -> M A) :
  (forall a x w, body a x w = (w, inr a)) ->
  forall a w, for_each xs body a w = (w, inr a).
Proof.
  intros Hb. induction xs as [|x xs IH]; intros a w; [reflexivity|].
  cbn [for_each]. rewrite bind_run, Hb. apply IH.
Qed.

Lemma update_preview (w : world) :
  update_imports true w
  = (World (fs w) (log w)
           (out w ++ [Step 3] ++ [FilesUpdated 0] ++ [ImportsUpdated 0]),
     inr (0, 0)).
Proof.
  unfold update_imports. rewrite bind_run, print_run.
  rewrite bind_run, rglob_java_run. rewrite bind_run.
  rewrite for_each_skip; [|intros [fu iu] x w'; reflexivity].
  cbn beta iota. do 2 (rewrite bind_run, print_run).
  cbn [ret fs log out]. rewrite <- !app_assoc. reflexivity.
Qed.

Lemma main_no_answer (argv : list text) (i : input_result) (w : world) :
  existsb (text_eqb (str "--dry-run")) argv = false ->
  fs w !! PRICING_DIR <> None ->
  forall e,
    (i = Eof /\ e = Exception EOFError)
    \/ (i = Interrupt /\ e = KeyboardInterrupt) ->
    main argv i w = (after_gate w, inl e).
Proof.
  intros Hdry Hp e He.
  unfold main. rewrite Hdry. cbn [negb].
  do 3 (rewrite bind_run, print_run).
  rewrite bind_run, path_exists_run. cbn [fs].
  destruct (fs w !! PRICING_DIR) as [npd|] eqn:Epd; [|congruence].
  cbn [is_present negb].
  rewrite bind_run. cbn [ret].
  rewrite bind_run, bind_run. unfold input. rewrite bind_run, print_run.
  unfold after_gate. cbn [fs log out]. rewrite <- !app_assoc.
  destruct He as [[-> ->]|[-> ->]]; reflexivity.
Qed.

(** *** The report *)

Lemma glob_java_count_run (root : path) (w : world) :
  glob_java_count root w = (w, inr (java_count (fs w) root)).
Proof. reflexivity. Qed.

Lemma rglob_java_root_run (root : path) (w : world) :
  rglob_java root w
  = (w, inr (List.filter (fun q => below root q && is_java q)
                         (List.map fst (map_to_list (fs w))))).
Proof. reflexivity. Qed.

Lemma verify_structure_run (w : world) :
  verify_structure w
  = (World (fs w) (log w)
           (out w ++ [Verifying]
                  ++ flat_map (domain_report (fs w)) (sorted (dict_keys DOMAINS))
                  ++ ui_report (fs w)
                  ++ [TotalDomainFiles
                        (list_sum (List.map (domain_total (fs w))
                                            (sorted (dict_keys DOMAINS))))]),
     inr tt).
Proof.
  unfold verify_structure. rewrite bind_run, print_run. rewrite bind_run.
  match goal with
  | |- context [for_each ?xs ?body 0 ?w1] =>
    pose proof (for_each_inv
                  (fun pre acc w' =>
                     w' = World (fs w) (log w)
                                (out w ++ [Verifying]
                                       ++ flat_map (domain_report (fs w)) pre)
                     /\ acc = list_sum (List.map (domain_total (fs w)) pre))
                  (fun _ _ => False) body xs) as L;
    specialize (fun H => L H 0 w1)
  end.
  match type of L with
  | ?P -> ?Q -> _ => assert (H1 : P); [|assert (H2 : Q); [|specialize (L H1 H2)]]
  end.
  - intros pre d post a w2 _ [-> ->].
    cbn beta iota zeta. rewrite bind_run, path_exists_run. cbn [fs].
    change (PRICING_DIR ++ [d]) with (domain_dir d).
    rewrite flat_map_app, map_app, list_sum_app. cbn [flat_map List.map list_sum].
    assert (Er : domain_report (fs w) d
                 = if is_present (fs w !! domain_dir d)
                   then [DomainCount d (java_count (fs w) (domain_dir d))]
                   else [DomainNotCreated d]) by reflexivity.
    assert (Et : domain_total (fs w) d
                 = if is_present (fs w !! domain_dir d)
                   then java_count (fs w) (domain_dir d) else 0)
      by reflexivity.
    rewrite Er, Et. clear Er Et.
    destruct (is_present (fs w !! domain_dir d)).
    + rewrite bind_run, glob_java_count_run, bind_run, print_run.
      cbn [ret fs log out]. rewrite <- !app_assoc, app_nil_r.
      split; [reflexivity|cbn; lia].
    + rewrite bind_run, print_run.
      cbn [ret fs log out]. rewrite <- !app_assoc, app_nil_r.
      split; [reflexivity|cbn; lia].
  - cbn [flat_map List.map list_sum]. rewrite app_nil_r. split; reflexivity.
  - destruct (for_each _ _ _ _) as [w' [e|total]]; [contradiction|].
    destruct L as [-> ->]. cbn zeta.
    rewrite bind_run, path_exists_run. cbn [fs]. unfold ui_report.
    match goal with
    | |- ((if ?b then ?m1 else ?m2) ≫= ?k) ?w1 = _ =>
      assert (Hb : forall b' : bool,
                 ((if b' then m1 else m2) ≫= k) w1
                 = (World (fs w) (log w)
                      (out w ++ [Verifying]
                         ++ flat_map (domain_report (fs w))
                                     (sorted (dict_keys DOMAINS))
                         ++ (if b'
                             then [UiCount
                                     (length
                                        (List.filter
                                           (fun q =>
                                              below (PRICING_DIR ++ [str "ui"]) q
                                              && is_java q)
                                           (List.map fst (map_to_list (fs w)))))]
                             else [])
                         ++ [TotalDomainFiles
                               (list_sum
                                  (List.map (domain_total (fs w))
                                            (sorted (dict_keys DOMAINS))))]),
                    inr tt))
    end.
    { intros [|].
      - rewrite bind_run, bind_run, rglob_java_root_run.
        rewrite print_run, print_run. cbn [fs log out].
        rewrite <- !app_assoc. reflexivity.
      - rewrite bind_run. cbn [ret]. rewrite print_run. cbn [fs log out].
        rewrite <- !app_assoc. reflexivity. }
    apply Hb.
Qed.

(** *** A directory with the name of a Java file *)

Lemma moved_dir_kept (w0 : world) (acc : nat) (w : world) (p : path) :
  move_ready (fs w0) = true ->
  moved_inv w0 domain_files acc w ->
  fs w0 !! p = Some Dir -> fs w !! p = Some Dir.
Proof.
  intros Hready (_ & _ & J3 & _) Hp. rewrite J3; [exact Hp|].
  intros d f Hin. destruct (move_ready_spec _ d f Hready Hin) as [H1 H2].
  split.
  - intros ->. rewrite Hp in H1. discriminate.
  - intros Hs ->. rewrite Hp in H2. specialize (H2 Hs). discriminate.
Qed.

Lemma update_dir_in_the_way (w : world) :
  (exists p, In p (java_files (fs w)) /\ fs w !! p = Some Dir) ->
  exists w',
    update_imports false w = (w', inl (Exception IsADirectoryError)) /\
    (forall p, fs w !! p = None -> fs w' !! p = None) /\
    (exists writes, log w' = log w ++ writes
                    /\ forall mu, In mu writes -> exists p c, mu = Write p c) /\
    out_grows w w'.
Proof.
  intros (p0 & Hp0 & Hdir0). set (m0 := fs w).
  set (Kept := fun w' : world =>
                 (forall p, m0 !! p = None -> fs w' !! p = None) /\
                 (exists writes,
                     log w' = log w ++ writes
                     /\ forall mu, In mu writes -> exists p c, mu = Write p c) /\
                 out_grows w w').
  unfold update_imports. rewrite bind_run, print_run.
  rewrite bind_run, rglob_java_run. cbn [fs]. fold m0.
  rewrite bind_run.
  match goal with
  | |- context [for_each ?xs ?body ?a ?w1] =>
    pose proof (for_each_inv
                  (fun pre (c : nat * nat) w' =>
                     (forall p, In p pre -> m0 !! p <> Some Dir) /\
                     (forall p, ~ In p pre -> fs w' !! p = m0 !! p) /\
                     Kept w')
                  (fun e w' => e = Exception IsADirectoryError /\ Kept w')
                  body xs) as L;
    specialize (fun H => L H a w1)
  end.
  match type of L with
  | ?P -> ?Q -> _ => assert (H1 : P); [|assert (H2 : Q); [|specialize (L H1 H2)]]
  end.
  - intros pre x post [fu iu] w2 Hxs (I1 & I2 & K1 & K2 & K3).
    assert (Hx : In x (java_files m0))
      by (rewrite Hxs; apply in_or_app; right; left; reflexivity).
    assert (Hnew : ~ In x pre).
    { apply (nodup_middle pre post). rewrite <- Hxs. apply java_files_nodup. }
    pose proof (I2 x Hnew) as Hlk.
    apply java_files_spec in Hx as [Hj Hsome].
    unfold update_one. cbn [negb]. rewrite bind_run.
    destruct (m0 !! x) as [[|c]|] eqn:Ex; [| |congruence].
    + rewrite read_file_dir by exact Hlk. unfold Kept. auto.
    + rewrite (read_file_run _ c) by exact Hlk.
      destruct (update_content c) as [content cnt] eqn:Eu.
      destruct (text_eqb content c) eqn:Ec; cbn [negb].
      * cbn [ret]. unfold Kept. repeat split; auto.
        -- intros p Hp. apply in_app_or in Hp as [Hp|[<-|[]]];
             [auto|congruence].
        -- intros p Hp. apply I2. intros Hp'. apply Hp, in_or_app. auto.
      * rewrite bind_run, write_file_run;
          [|rewrite Hlk; reflexivity|left; rewrite Hlk; reflexivity].
        rewrite bind_run, print_run. cbn [ret fs log out].
        unfold Kept. cbn [fs log out]. repeat split.
        -- intros p Hp. apply in_app_or in Hp as [Hp|[<-|[]]];
             [auto|congruence].
        -- intros p Hp. rewrite lookup_insert_ne.
           ++ apply I2. intros Hp'. apply Hp, in_or_app. auto.
           ++ intros <-. apply Hp, in_or_app. right. left. reflexivity.
        -- intros p Hp. rewrite lookup_insert_ne; [auto|].
           intros <-. congruence.
        -- destruct K2 as (ws & Hws & Hall).
           exists (ws ++ [Write x content]). split.
           ++ rewrite Hws, app_assoc. reflexivity.
           ++ intros mu Hmu. apply in_app_or in Hmu as [Hmu|[<-|[]]]; eauto.
        -- eapply out_grows_trans; [exact K3|]. eexists. reflexivity.
  - unfold Kept. cbn [fs log out]. repeat split; auto; try easy.
    + exists []. split; [symmetry; apply app_nil_r|intros mu []].
    + eexists. reflexivity.
  - destruct (for_each _ _ _ _) as [w' [e|[fu iu]]].
    + destruct L as [-> (K1 & K2 & K3)]. exists w'. auto.
    + destruct L as (I1 & _). exfalso. exact (I1 p0 Hp0 Hdir0).
Qed.
(** ** [str.replace] *)

Lemma scan_prev_irrelevant (tm : text -> option text) (repl : text)
    (skip : nat) (p q : option char) (s : text) :
  scan_sub (fun _ => tm) repl skip p s = scan_sub (fun _ => tm) repl skip q s.
Proof. destruct s, skip; reflexivity. Qed.

Lemma str_replace_match (old new rest : text) :
  old <> [] ->
  str_replace old new (old ++ rest) = new ++ str_replace old new rest.
Proof.
  destruct old as [|o old]; [congruence|intros _].
  unfold str_replace. cbn [app].
  rewrite (scan_match (fun _ => strip_prefix (o :: old)) new o old rest None).
  - f_equal. apply scan_prev_irrelevant.
  - apply (strip_prefix_app (o :: old)).
Qed.

Lemma str_replace_copy (old new : text) (x : char) (s : text) :
  old <> [] ->
  strip_prefix old (x :: s) = None ->
  str_replace old new (x :: s) = x :: str_replace old new s.
Proof.
  destruct old as [|o old]; [congruence|intros _ H].
  unfold str_replace.
  rewrite scan_nomatch by exact H. f_equal. apply scan_prev_irrelevant.
Qed.

Lemma starts_with_false (p s : text) :
  starts_with p s = false <-> strip_prefix p s = None.
Proof.
  unfold starts_with. destruct (strip_prefix p s); split; congruence.
Qed.

(** Where [old] does not occur, [replace] changes nothing. *)
Lemma str_replace_absent (old new s : text) :
  old <> [] -> contains old s = false -> str_replace old new s = s.
Proof.
  intros Ho. induction s as [|x s IH]; intros H.
  - destruct old; [congruence|reflexivity].
  - cbn [contains] in H. apply orb_false_iff in H as [H1 H2].
    rewrite str_replace_copy by (try apply starts_with_false; assumption).
    f_equal. apply IH, H2.
Qed.

(** ** Texts cut at the semicolons *)

Lemma no_semi_app (a b : text) : no_semi (a ++ b) = no_semi a && no_semi b.
Proof. apply forallb_app. Qed.

Lemma no_semi_cons (x : char) (a : text) :
  no_semi (x :: a) = negb (x =? SEMI)%N && no_semi a.
Proof. reflexivity. Qed.

Lemma snoc_not_nil (q : text) : q ++ [SEMI] <> [].
Proof. destruct q; discriminate. Qed.

Lemma cut_suffix_Some (q g h : text) :
  cut_suffix q g = Some h <-> g = h ++ q.
Proof.
  split.
  - revert h. induction g as [|x g IH]; intros h; cbn [cut_suffix].
    + destruct (text_eqb q []) eqn:E; [|discriminate].
      apply text_eqb_eq in E. intros [= <-]. auto.
    + destruct (text_eqb q (x :: g)) eqn:E.
      * apply text_eqb_eq in E. intros [= <-]. auto.
      * destruct (cut_suffix q g) as [h'|]; [|discriminate].
        intros [= <-]. cbn [app]. f_equal. apply IH. reflexivity.
  - intros ->. induction h as [|x h IH]; cbn [app cut_suffix].
    + destruct q; cbn [cut_suffix]; rewrite text_eqb_refl; reflexivity.
    + destruct (text_eqb q (x :: h ++ q)) eqn:E.
      * apply text_eqb_eq in E. apply (f_equal (@length char)) in E.
        cbn [length] in E. rewrite length_app in E. lia.
      * rewrite IH. reflexivity.
Qed.

Lemma cut_suffix_None (q g : text) :
  cut_suffix q g = None <-> forall h, g <> h ++ q.
Proof.
  split.
  - intros H h E. apply cut_suffix_Some in E. congruence.
  - intros H. destruct (cut_suffix q g) as [h|] eqn:E; [|reflexivity].
    apply cut_suffix_Some in E. exfalso. exact (H h E).
Qed.

Lemma ends_in_false (q g : text) :
  ends_in q g = false <-> cut_suffix q g = None.
Proof. unfold ends_in. destruct (cut_suffix q g); split; congruence. Qed.

Lemma strip_prefix_segment (q g rest : text) :
  no_semi q = true -> no_semi g = true ->
  strip_prefix (q ++ [SEMI]) (g ++ SEMI :: rest)
  = if text_eqb q g then Some rest else None.
Proof.
  revert g. induction q as [|x q IH]; intros [|y g] Hq Hg;
    cbn [app strip_prefix text_eqb].
  - rewrite N.eqb_refl. reflexivity.
  - rewrite no_semi_cons in Hg. apply andb_true_iff in Hg as [Hy _].
    apply negb_true_iff in Hy. rewrite N.eqb_sym, Hy. reflexivity.
  - rewrite no_semi_cons in Hq. apply andb_true_iff in Hq as [Hx _].
    apply negb_true_iff in Hx. rewrite Hx. reflexivity.
  - rewrite no_semi_cons in Hq, Hg.
    apply andb_true_iff in Hq as [_ Hq]. apply andb_true_iff in Hg as [_ Hg].
    destruct (x =? y)%N; [apply IH; assumption|reflexivity].
Qed.

Lemma strip_prefix_no_semi (q g : text) :
  no_semi g = true -> strip_prefix (q ++ [SEMI]) g = None.
Proof.
  revert g. induction q as [|x q IH]; intros [|y g] Hg;
    cbn [app strip_prefix]; try reflexivity.
  - rewrite no_semi_cons in Hg. apply andb_true_iff in Hg as [Hy _].
    apply negb_true_iff in Hy. rewrite N.eqb_sym, Hy. reflexivity.
  - rewrite no_semi_cons in Hg. apply andb_true_iff in Hg as [_ Hg].
    destruct (x =? y)%N; [apply IH; assumption|reflexivity].
Qed.

(** A text without semicolon contains no statement. *)
Lemma contains_no_semi (q g : text) :
  no_semi g = true -> contains (q ++ [SEMI]) g = false.
Proof.
  induction g as [|x g IH]; intros Hg; cbn [contains].
  - apply orb_false_iff. split; [|reflexivity].
    apply starts_with_false, strip_prefix_no_semi, Hg.
  - apply orb_false_iff. split.
    + apply starts_with_false, strip_prefix_no_semi, Hg.
    + apply IH. rewrite no_semi_cons in Hg.
      apply andb_true_iff in Hg as [_ Hg]. exact Hg.
Qed.

Lemma str_replace_no_semi (q new g : text) :
  no_semi g = true -> str_replace (q ++ [SEMI]) new g = g.
Proof.
  intros Hg. apply str_replace_absent; [apply snoc_not_nil|].
  apply contains_no_semi, Hg.
Qed.

(** A statement occurs in a text exactly when it ends at one of the
    semicolons. *)
Lemma contains_segment (q g rest : text) :
  no_semi q = true -> no_semi g = true ->
  contains (q ++ [SEMI]) (g ++ SEMI :: rest)
  = ends_in q g || contains (q ++ [SEMI]) rest.
Proof.
  intros Hq. unfold ends_in.
  induction g as [|x g IH]; intros Hg.
  - pose proof (strip_prefix_segment q [] rest Hq eq_refl) as E.
    cbn [app] in E. cbn [app contains cut_suffix]. unfold starts_with.
    rewrite E. destruct (text_eqb q []); reflexivity.
  - pose proof (strip_prefix_segment q (x :: g) rest Hq Hg) as E.
    cbn [app] in E. cbn [app contains cut_suffix]. unfold starts_with.
    rewrite E. destruct (text_eqb q (x :: g)); [reflexivity|].
    cbn [orb]. rewrite IH.
    + destruct (cut_suffix q g); reflexivity.
    + rewrite no_semi_cons in Hg.
      apply andb_true_iff in Hg as [_ Hg]. exact Hg.
Qed.

(** [replace] of a statement works semicolon by semicolon. *)
Lemma str_replace_segment (q new g rest : text) :
  no_semi q = true -> no_semi g = true ->
  str_replace (q ++ [SEMI]) new (g ++ SEMI :: rest)
  = match cut_suffix q g with
    | Some h => h ++ new
    | None => g ++ [SEMI]
    end ++ str_replace (q ++ [SEMI]) new rest.
Proof.
  intros Hq. induction g as [|x g IH]; intros Hg.
  - cbn [app cut_suffix].
    pose proof (strip_prefix_segment q [] rest Hq eq_refl) as E.
    cbn [app] in E.
    destruct (text_eqb q []) eqn:Eq.
    + apply strip_prefix_Some in E. rewrite E.
      rewrite str_replace_match by apply snoc_not_nil. reflexivity.
    + rewrite str_replace_copy by (try apply snoc_not_nil; exact E).
      reflexivity.
  - pose proof (strip_prefix_segment q (x :: g) rest Hq Hg) as E.
    cbn [cut_suffix]. destruct (text_eqb q (x :: g)) eqn:Eq.
    + apply strip_prefix_Some in E. rewrite E.
      rewrite str_replace_match by apply snoc_not_nil. reflexivity.
    + cbn [app] in E |- *.
      rewrite str_replace_copy by (try apply snoc_not_nil; exact E).
      rewrite IH.
      * destruct (cut_suffix q g); reflexivity.
      * rewrite no_semi_cons in Hg.
        apply andb_true_iff in Hg as [_ Hg]. exact Hg.
Qed.

Lemma first_segment_spec (s : text) :
  match first_segment s with
  | (g, None) => s = g /\ no_semi g = true
  | (g, Some rest) =>
    s = g ++ SEMI :: rest /\ no_semi g = true /\ length rest < length s
  end.
Proof.
  induction s as [|x s IH]; cbn [first_segment]; [auto|].
  destruct (N.eqb_spec x SEMI) as [->|Hx].
  - cbn [app length]. split; [reflexivity|]. split; [reflexivity|lia].
  - destruct (first_segment s) as [g [rest|]].
    + destruct IH as (-> & Hg & Hl). cbn [app length].
      split; [reflexivity|]. split; [|lia].
      rewrite no_semi_cons, Hg. apply N.eqb_neq in Hx. rewrite Hx. reflexivity.
    + destruct IH as (-> & Hg). split; [reflexivity|].
      rewrite no_semi_cons, Hg. apply N.eqb_neq in Hx. rewrite Hx. reflexivity.
Qed.

(** Induction on a text, one semicolon at a time. *)
Lemma segment_ind (P : text -> Prop) :
  (forall g, no_semi g = true -> P g) ->
  (forall g rest, no_semi g = true -> P rest -> P (g ++ SEMI :: rest)) ->
  forall s, P s.
Proof.
  intros Hbase Hstep s.
  remember (length s) as n eqn:Hn. revert s Hn.
  induction n as [n IH] using lt_wf_ind. intros s ->.
  pose proof (first_segment_spec s) as H.
  destruct (first_segment s) as [g [rest|]].
  - destruct H as (-> & Hg & Hl). apply Hstep; [exact Hg|].
    apply (IH (length rest)); [exact Hl|reflexivity].
  - destruct H as (-> & Hg). apply Hbase, Hg.
Qed.

(** ** Texts that cannot end alike *)

Lemma clash_app (a b u v : text) :
  clash a b = true -> a ++ u <> b ++ v.
Proof.
  revert b. induction a as [|x a IH]; intros [|y b] H; try discriminate.
  cbn [clash] in H. cbn [app]. intros [= -> E].
  rewrite N.eqb_refl in H. cbn [negb orb] in H. exact (IH b H E).
Qed.

Lemma clash_not_suffix (q t : text) :
  clash (rev q) (rev t) = true -> forall h, cut_suffix q (h ++ t) = None.
Proof.
  intros H h. apply cut_suffix_None. intros h' E.
  apply (f_equal (@rev char)) in E. rewrite !rev_app_distr in E.
  symmetry in E. exact (clash_app _ _ _ _ H E).
Qed.

(** ** The import statements of the table *)

Lemma old_import_body (classname : text) :
  old_import classname = old_body classname ++ [SEMI].
Proof. unfold old_import, old_body. rewrite <- app_assoc. reflexivity. Qed.

Lemma new_import_body (domain classname : text) :
  new_import domain classname = new_body domain classname ++ [SEMI].
Proof.
  unfold new_import, new_body. rewrite <- !app_assoc. reflexivity.
Qed.

Lemma wildcard_body : WILDCARD = WILD_BODY ++ [SEMI].
Proof. reflexivity. Qed.

Lemma wild_no_semi : no_semi WILD_BODY = true.
Proof. reflexivity. Qed.

Lemma class_domain (classname : text) :
  In classname (dict_keys CLASS_TO_DOMAIN) ->
  exists domain, In (classname, domain) CLASS_TO_DOMAIN
                 /\ dict_get classname CLASS_TO_DOMAIN = Some domain.
Proof.
  assert (H : forallb (fun '(c, d) =>
                         match dict_get c CLASS_TO_DOMAIN with
                         | Some d' => text_eqb d d'
                         | None => false
                         end) CLASS_TO_DOMAIN = true)
    by (vm_compute; reflexivity).
  rewrite forallb_forall in H.
  unfold dict_keys. intros Hin. apply in_map_iff in Hin as ([c d] & <- & Hin).
  exists d. split; [exact Hin|]. specialize (H _ Hin). cbn [fst] in *.
  destruct (dict_get c CLASS_TO_DOMAIN); [|discriminate].
  apply text_eqb_eq in H. congruence.
Qed.

Lemma bodies_no_semi (classname domain : text) :
  In (classname, domain) CLASS_TO_DOMAIN ->
  no_semi (old_body classname) = true
  /\ no_semi (new_body domain classname) = true.
Proof.
  assert (H : forallb (fun '(c, d) => no_semi (old_body c)
                                      && no_semi (new_body d c))
                      CLASS_TO_DOMAIN = true) by (vm_compute; reflexivity).
  rewrite forallb_forall in H. intros Hin. specialize (H _ Hin).
  apply andb_true_iff in H. exact H.
Qed.

(** No old import and no wildcard import can end where a new import
    ends. *)
Lemma old_not_in_new (c1 d1 c2 d2 : text) :
  In (c1, d1) CLASS_TO_DOMAIN -> In (c2, d2) CLASS_TO_DOMAIN ->
  forall h, cut_suffix (old_body c1) (h ++ new_body d2 c2) = None.
Proof.
  assert (H : forallb (fun '(c1, _) =>
                forallb (fun '(c2, d2) =>
                           clash (rev (old_body c1)) (rev (new_body d2 c2)))
                        CLASS_TO_DOMAIN) CLASS_TO_DOMAIN = true)
    by (vm_compute; reflexivity).
  rewrite forallb_forall in H. intros H1 H2.
  specialize (H _ H1). cbn beta iota in H. rewrite forallb_forall in H.
  specialize (H _ H2). apply clash_not_suffix, H.
Qed.

Lemma wild_not_in_new (c d : text) :
  In (c, d) CLASS_TO_DOMAIN ->
  forall h, cut_suffix WILD_BODY (h ++ new_body d c) = None.
Proof.
  assert (H : forallb (fun '(c, d) =>
                         clash (rev WILD_BODY) (rev (new_body d c)))
                      CLASS_TO_DOMAIN = true) by (vm_compute; reflexivity).
  rewrite forallb_forall in H. intros Hin.
  specialize (H _ Hin). apply clash_not_suffix, H.
Qed.

Lemma wild_not_in_old (c d : text) :
  In (c, d) CLASS_TO_DOMAIN ->
  forall h, cut_suffix WILD_BODY (h ++ old_body c) = None.
Proof.
  assert (H : forallb (fun '(c, d) =>
                         clash (rev WILD_BODY) (rev (old_body c)))
                      CLASS_TO_DOMAIN = true) by (vm_compute; reflexivity).
  rewrite forallb_forall in H. intros Hin.
  specialize (H _ Hin). apply clash_not_suffix, H.
Qed.
(** ** The explicit imports of a file *)

Lemma old_import_not_nil (classname : text) : old_import classname <> [].
Proof. rewrite old_import_body. apply snoc_not_nil. Qed.

(** The test [old_import in content] changes the count, not the content. *)
Lemma update_specific_fold (L : dict text) (c : text) (n : nat) :
  fst (fold_left
         (fun '(content, count) '(classname, domain) =>
            if contains (old_import classname) content
            then (str_replace (old_import classname)
                              (new_import domain classname) content,
                  S count)
            else (content, count))
         L (c, n))
  = fold_left
      (fun content '(classname, domain) =>
         str_replace (old_import classname) (new_import domain classname)
                     content)
      L c.
Proof.
  revert c n. induction L as [|[X d] L IH]; intros c n; cbn [fold_left];
    [reflexivity|].
  destruct (contains (old_import X) c) eqn:E; [apply IH|].
  rewrite IH, str_replace_absent by (try apply old_import_not_nil; exact E).
  reflexivity.
Qed.

Lemma update_specific_content (c : text) :
  fst (update_specific c) = replace_imports c.
Proof. apply update_specific_fold. Qed.

Lemma update_specific_fixed (L : dict text) (c : text) (n : nat) :
  (forall X d, In (X, d) L -> contains (old_import X) c = false) ->
  fold_left
    (fun '(content, count) '(classname, domain) =>
       if contains (old_import classname) content
       then (str_replace (old_import classname)
                         (new_import domain classname) content,
             S count)
       else (content, count))
    L (c, n)
  = (c, n).
Proof.
  induction L as [|[X d] L IH]; intros H; cbn [fold_left]; [reflexivity|].
  rewrite (H X d) by (left; reflexivity). apply IH.
  intros Y e Hin. apply (H Y e). right. exact Hin.
Qed.

Lemma replace_body_no_semi (X d g : text) :
  no_semi g = true -> no_semi (new_body d X) = true ->
  no_semi (replace_body X d g) = true.
Proof.
  intros Hg Hn. unfold replace_body.
  destruct (cut_suffix (old_body X) g) as [h|] eqn:E; [|exact Hg].
  apply cut_suffix_Some in E. subst g. rewrite no_semi_app in Hg.
  apply andb_true_iff in Hg as [Hh _]. rewrite no_semi_app, Hh, Hn.
  reflexivity.
Qed.

(** The explicit imports are replaced semicolon by semicolon. *)
Lemma fold_replace_segment (L : dict text) (g rest : text) :
  (forall X d, In (X, d) L -> no_semi (old_body X) = true
                              /\ no_semi (new_body d X) = true) ->
  no_semi g = true ->
  fold_left
    (fun content '(classname, domain) =>
       str_replace (old_import classname) (new_import domain classname)
                   content)
    L (g ++ SEMI :: rest)
  = replace_bodies L g
    ++ SEMI :: fold_left
                 (fun content '(classname, domain) =>
                    str_replace (old_import classname)
                                (new_import domain classname) content)
                 L rest
  /\ no_semi (replace_bodies L g) = true.
Proof.
  revert g rest. induction L as [|[X d] L IH]; intros g rest HL Hg;
    cbn [fold_left replace_bodies]; [auto|].
  destruct (HL X d (or_introl eq_refl)) as [Ho Hn].
  assert (E : str_replace (old_import X) (new_import d X) (g ++ SEMI :: rest)
              = replace_body X d g
                ++ SEMI :: str_replace (old_import X) (new_import d X) rest).
  { rewrite old_import_body, new_import_body.
    rewrite str_replace_segment by assumption. unfold replace_body.
    destruct (cut_suffix (old_body X) g); rewrite <- !app_assoc; reflexivity. }
  rewrite E. apply (IH (replace_body X d g)).
  - intros Y e Hin. apply HL. right. exact Hin.
  - apply replace_body_no_semi; assumption.
Qed.

Lemma fold_replace_no_semi (L : dict text) (g : text) :
  no_semi g = true ->
  fold_left
    (fun content '(classname, domain) =>
       str_replace (old_import classname) (new_import domain classname)
                   content)
    L g
  = g.
Proof.
  intros Hg. induction L as [|[X d] L IH]; cbn [fold_left]; [reflexivity|].
  rewrite old_import_body, str_replace_no_semi by exact Hg. exact IH.
Qed.

Lemma replace_imports_segment (g rest : text) :
  no_semi g = true ->
  replace_imports (g ++ SEMI :: rest)
  = replace_bodies CLASS_TO_DOMAIN g ++ SEMI :: replace_imports rest
  /\ no_semi (replace_bodies CLASS_TO_DOMAIN g) = true.
Proof.
  intros Hg. apply fold_replace_segment; [|exact Hg].
  intros X d. apply bodies_no_semi.
Qed.

Lemma replace_imports_no_semi (g : text) :
  no_semi g = true -> replace_imports g = g.
Proof. apply fold_replace_no_semi. Qed.

(** Once replaced, an old import does not come back. *)
Lemma replace_bodies_keep_out (q : text) (L : dict text) (g : text) :
  (forall Y e, In (Y, e) L -> forall h, cut_suffix q (h ++ new_body e Y) = None) ->
  cut_suffix q g = None ->
  cut_suffix q (replace_bodies L g) = None.
Proof.
  revert g. induction L as [|[Y e] L IH]; intros g HL Hg; [exact Hg|].
  unfold replace_bodies. cbn [fold_left]. apply IH.
  - intros Z f Hin. apply HL. right. exact Hin.
  - unfold replace_body.
    destruct (cut_suffix (old_body Y) g) as [h|]; [|exact Hg].
    apply (HL Y e). left. reflexivity.
Qed.

Lemma replace_bodies_removes (X d : text) (L : dict text) (g : text) :
  In (X, d) L ->
  (forall Y e, In (Y, e) L ->
               forall h, cut_suffix (old_body X) (h ++ new_body e Y) = None) ->
  cut_suffix (old_body X) (replace_bodies L g) = None.
Proof.
  revert g. induction L as [|[Y e] L IH]; intros g Hin HL; [destruct Hin|].
  unfold replace_bodies. cbn [fold_left].
  assert (HL' : forall Z f, In (Z, f) L ->
                  forall h, cut_suffix (old_body X) (h ++ new_body f Z) = None)
    by (intros Z f HZ; apply HL; right; exact HZ).
  destruct Hin as [[= -> ->]|Hin]; [|apply IH; assumption].
  apply replace_bodies_keep_out; [exact HL'|].
  unfold replace_body.
  destruct (cut_suffix (old_body X) g) as [h|] eqn:E; [|exact E].
  apply (HL X d). left. reflexivity.
Qed.

(** After the first loop no old import of a known class is left. *)
Lemma replace_imports_complete (X : text) (c : text) :
  In X (dict_keys CLASS_TO_DOMAIN) ->
  contains (old_import X) (replace_imports c) = false.
Proof.
  intros HX. destruct (class_domain X HX) as (d & Hin & _).
  destruct (bodies_no_semi X d Hin) as [Ho _].
  rewrite old_import_body.
  induction c as [g Hg|g rest Hg IH] using segment_ind.
  - rewrite replace_imports_no_semi by exact Hg.
    apply contains_no_semi, Hg.
  - destruct (replace_imports_segment g rest Hg) as [-> Hs].
    rewrite contains_segment by assumption. rewrite IH, orb_false_r.
    apply ends_in_false. apply (replace_bodies_removes X d); [exact Hin|].
    intros Y e HY. apply (old_not_in_new X d Y e); assumption.
Qed.

(** The first loop neither makes nor removes a wildcard import. *)
Lemma replace_bodies_wild (L : dict text) (g : text) :
  (forall Y e, In (Y, e) L -> In (Y, e) CLASS_TO_DOMAIN) ->
  ends_in WILD_BODY (replace_bodies L g) = ends_in WILD_BODY g.
Proof.
  revert g. induction L as [|[Y e] L IH]; intros g HL; [reflexivity|].
  unfold replace_bodies. cbn [fold_left].
  fold (replace_bodies L (replace_body Y e g)). rewrite IH.
  - unfold replace_body.
    destruct (cut_suffix (old_body Y) g) as [h|] eqn:E; [|reflexivity].
    apply cut_suffix_Some in E. subst g.
    assert (Hin : In (Y, e) CLASS_TO_DOMAIN) by (apply HL; left; reflexivity).
    pose proof (wild_not_in_new Y e Hin h) as E1.
    pose proof (wild_not_in_old Y e Hin h) as E2.
    apply ends_in_false in E1, E2. exact (eq_trans E1 (eq_sym E2)).
  - intros Z f Hin. apply HL. right. exact Hin.
Qed.

Lemma replace_imports_wildcard (c : text) :
  contains WILDCARD (replace_imports c) = contains WILDCARD c.
Proof.
  rewrite wildcard_body.
  induction c as [g Hg|g rest Hg IH] using segment_ind.
  - rewrite replace_imports_no_semi by exact Hg. reflexivity.
  - destruct (replace_imports_segment g rest Hg) as [-> Hs].
    rewrite !contains_segment by (try apply wild_no_semi; assumption).
    rewrite IH, replace_bodies_wild by auto. reflexivity.
Qed.
(** ** What the first loop does to each statement *)

Lemma classes_nodup : List.NoDup (dict_keys CLASS_TO_DOMAIN).
Proof.
  apply (NoDup_ListNoDup (dict_keys CLASS_TO_DOMAIN)).
  apply (bool_decide_unpack _). vm_compute. exact I.
Qed.

Lemma class_in_keys (X d : text) :
  In (X, d) CLASS_TO_DOMAIN -> In X (dict_keys CLASS_TO_DOMAIN).
Proof. intros H. unfold dict_keys. apply in_map_iff. exists (X, d). auto. Qed.

Lemma class_domain_unique (X d e : text) :
  In (X, d) CLASS_TO_DOMAIN -> In (X, e) CLASS_TO_DOMAIN -> d = e.
Proof.
  assert (H : forallb (fun '(c, d) =>
                         match dict_get c CLASS_TO_DOMAIN with
                         | Some d' => text_eqb d d'
                         | None => false
                         end) CLASS_TO_DOMAIN = true)
    by (vm_compute; reflexivity).
  rewrite forallb_forall in H. intros H1 H2.
  pose proof (H _ H1) as E1. pose proof (H _ H2) as E2.
  cbn beta iota in E1, E2.
  destruct (dict_get X CLASS_TO_DOMAIN); [|discriminate].
  apply text_eqb_eq in E1, E2. congruence.
Qed.

(** The old import of one class cannot end where the old import of
    another class ends. *)
Lemma old_not_in_old (X d Y e : text) :
  In (X, d) CLASS_TO_DOMAIN -> In (Y, e) CLASS_TO_DOMAIN -> X <> Y ->
  forall h, cut_suffix (old_body X) (h ++ old_body Y) = None.
Proof.
  assert (H : forallb (fun '(c1, _) =>
                forallb (fun '(c2, _) =>
                           text_eqb c1 c2
                           || clash (rev (old_body c1)) (rev (old_body c2)))
                        CLASS_TO_DOMAIN) CLASS_TO_DOMAIN = true)
    by (vm_compute; reflexivity).
  rewrite forallb_forall in H. intros H1 H2 Hne.
  specialize (H _ H1). cbn beta iota in H. rewrite forallb_forall in H.
  specialize (H _ H2). cbn beta iota in H.
  apply orb_true_iff in H as [H|H].
  - apply text_eqb_eq in H. contradiction.
  - apply clash_not_suffix, H.
Qed.

Lemma replace_body_miss (X d g : text) :
  cut_suffix (old_body X) g = None -> replace_body X d g = g.
Proof. intros H. unfold replace_body. rewrite H. reflexivity. Qed.

Lemma replace_body_hit (X d h : text) :
  replace_body X d (h ++ old_body X) = h ++ new_body d X.
Proof.
  unfold replace_body.
  rewrite (proj2 (cut_suffix_Some (old_body X) (h ++ old_body X) h) eq_refl).
  reflexivity.
Qed.

Lemma replace_bodies_miss (L : dict text) (g : text) :
  (forall X d, In (X, d) L -> cut_suffix (old_body X) g = None) ->
  replace_bodies L g = g.
Proof.
  induction L as [|[X d] L IH]; intros H; [reflexivity|].
  unfold replace_bodies. cbn [fold_left].
  rewrite replace_body_miss by (apply (H X d); left; reflexivity).
  apply IH. intros Y e Hin. apply (H Y e). right. exact Hin.
Qed.

Lemma replace_bodies_hit_in (L : dict text) (X d h : text) :
  (forall Y e, In (Y, e) L -> In (Y, e) CLASS_TO_DOMAIN) ->
  In (X, d) CLASS_TO_DOMAIN ->
  In (X, d) L ->
  replace_bodies L (h ++ old_body X) = h ++ new_body d X.
Proof.
  intros HL HX. induction L as [|[Y e] L IH]; intros Hin; [destruct Hin|].
  assert (HL' : forall Z f, In (Z, f) L -> In (Z, f) CLASS_TO_DOMAIN)
    by (intros Z f HZ; apply HL; right; exact HZ).
  assert (HY : In (Y, e) CLASS_TO_DOMAIN) by (apply HL; left; reflexivity).
  unfold replace_bodies. cbn [fold_left].
  destruct (decide (Y = X)) as [->|Hne].
  - assert (e = d) as -> by (eapply class_domain_unique; eauto).
    rewrite replace_body_hit. apply replace_bodies_miss.
    intros Z f HZ. apply (old_not_in_new Z f X d); auto.
  - rewrite replace_body_miss
      by (apply (old_not_in_old Y e X d); assumption).
    apply IH; [exact HL'|].
    destruct Hin as [[= -> ->]|Hin]; [contradiction|exact Hin].
Qed.

Lemma replace_bodies_hit (X d h : text) :
  In (X, d) CLASS_TO_DOMAIN ->
  replace_bodies CLASS_TO_DOMAIN (h ++ old_body X) = h ++ new_body d X.
Proof. intros H. apply replace_bodies_hit_in; auto. Qed.

Lemma ends_with_old_import (g h X : text) :
  g ++ [SEMI] = h ++ old_import X <-> g = h ++ old_body X.
Proof.
  rewrite old_import_body, app_assoc. split.
  - intros H. apply app_inj_tail in H as [H _]. exact H.
  - intros ->. reflexivity.
Qed.

(** ** The count of the first loop *)

(** Replacing the imports of one class neither makes nor removes an old
    import of another class. *)
Lemma other_import_kept (X d Y : text) (c : text) :
  In (X, d) CLASS_TO_DOMAIN -> In Y (dict_keys CLASS_TO_DOMAIN) -> X <> Y ->
  contains (old_import Y)
           (str_replace (old_import X) (new_import d X) c)
  = contains (old_import Y) c.
Proof.
  intros HX HY Hne. destruct (class_domain Y HY) as (e & HYe & _).
  destruct (bodies_no_semi X d HX) as [HoX HnX].
  destruct (bodies_no_semi Y e HYe) as [HoY _].
  rewrite !old_import_body, new_import_body.
  induction c as [g Hg|g rest Hg IH] using segment_ind.
  - rewrite str_replace_no_semi by exact Hg. reflexivity.
  - rewrite str_replace_segment by assumption.
    rewrite (contains_segment (old_body Y) g rest) by assumption.
    destruct (cut_suffix (old_body X) g) as [h|] eqn:E.
    + apply cut_suffix_Some in E. subst g.
      rewrite no_semi_app in Hg. apply andb_true_iff in Hg as [Hh _].
      replace ((h ++ new_body d X ++ [SEMI])
                 ++ str_replace (old_body X ++ [SEMI])
                      (new_body d X ++ [SEMI]) rest)
        with ((h ++ new_body d X)
                ++ SEMI :: str_replace (old_body X ++ [SEMI])
                             (new_body d X ++ [SEMI]) rest)
        by (rewrite <- !app_assoc; reflexivity).
      rewrite contains_segment, IH;
        [|exact HoY|rewrite no_semi_app, Hh, HnX; reflexivity].
      pose proof (old_not_in_new Y e X d HYe HX h) as E1.
      assert (E2 : cut_suffix (old_body Y) (h ++ old_body X) = None)
        by (apply (old_not_in_old Y e X d); auto).
      apply ends_in_false in E1, E2. rewrite E1, E2. reflexivity.
    + rewrite <- app_assoc. cbn [app].
      rewrite contains_segment, IH by assumption. reflexivity.
Qed.

Lemma length_filter_keys (f : text -> bool) (L : dict text) :
  length (List.filter (fun e : text * text => f (fst e)) L)
  = length (List.filter f (dict_keys L)).
Proof.
  induction L as [|[X d] L IH]; [reflexivity|].
  cbn [List.filter dict_keys List.map fst]. fold (dict_keys L).
  destruct (f X); cbn [length]; rewrite IH; reflexivity.
Qed.

Lemma update_specific_count_fold (L : dict text) (c : text) (n : nat) :
  (forall Y e, In (Y, e) L -> In (Y, e) CLASS_TO_DOMAIN) ->
  List.NoDup (dict_keys L) ->
  snd (fold_left
         (fun '(content, count) '(classname, domain) =>
            if contains (old_import classname) content
            then (str_replace (old_import classname)
                              (new_import domain classname) content,
                  S count)
            else (content, count))
         L (c, n))
  = n + length (List.filter (fun e : text * text =>
                               contains (old_import (fst e)) c) L).
Proof.
  revert c n. induction L as [|[X d] L IH]; intros c n HL Hnd;
    cbn [fold_left List.filter length fst]; [cbn [snd]; lia|].
  assert (HL' : forall Z f, In (Z, f) L -> In (Z, f) CLASS_TO_DOMAIN)
    by (intros Z f HZ; apply HL; right; exact HZ).
  assert (HX : In (X, d) CLASS_TO_DOMAIN) by (apply HL; left; reflexivity).
  cbn [dict_keys List.map fst] in Hnd. apply NoDup_cons_iff in Hnd as [Hx Hnd].
  destruct (contains (old_import X) c) eqn:E.
  - rewrite IH by assumption. cbn [length].
    rewrite (filter_ext_in
               (fun e : text * text =>
                  contains (old_import (fst e))
                           (str_replace (old_import X) (new_import d X) c))
               (fun e : text * text => contains (old_import (fst e)) c)).
    + lia.
    + intros [Y e] Hin. cbn [fst]. apply other_import_kept.
      * exact HX.
      * apply (class_in_keys Y e), HL', Hin.
      * intros ->. apply Hx. unfold dict_keys. apply in_map_iff.
        exists (Y, e). auto.
  - apply IH; assumption.
Qed.
(** ** The wildcard import of a file *)

(** After a block of statements none of which can end like [p], the
    statement [p;] occurs only further on. *)
Lemma contains_after_statements (p : text) (bodies : list text) :
  no_semi p = true -> bodies <> [] ->
  (forall b, In b bodies ->
             no_semi b = true /\ forall h, cut_suffix p (h ++ b) = None) ->
  forall h t,
    no_semi h = true ->
    contains (p ++ [SEMI])
             (h ++ join [LF] (List.map (fun b => b ++ [SEMI]) bodies) ++ t)
    = contains (p ++ [SEMI]) t.
Proof.
  intros Hp. induction bodies as [|b bs IH]; intros Hne Hb h t Hh;
    [congruence|].
  destruct (Hb b (or_introl eq_refl)) as [Hbs Hbc].
  assert (Hg : no_semi (h ++ b) = true)
    by (rewrite no_semi_app, Hh, Hbs; reflexivity).
  assert (He : ends_in p (h ++ b) = false) by (apply ends_in_false, Hbc).
  destruct bs as [|b2 bs].
  - cbn [List.map join].
    replace (h ++ (b ++ [SEMI]) ++ t) with ((h ++ b) ++ SEMI :: t)
      by (rewrite <- !app_assoc; reflexivity).
    rewrite contains_segment, He by assumption. reflexivity.
  - change (join [LF] (List.map (fun b => b ++ [SEMI]) (b :: b2 :: bs)))
      with ((b ++ [SEMI]) ++ [LF]
            ++ join [LF] (List.map (fun b => b ++ [SEMI]) (b2 :: bs))).
    replace (h ++ ((b ++ [SEMI]) ++ [LF]
                   ++ join [LF] (List.map (fun b => b ++ [SEMI]) (b2 :: bs)))
               ++ t)
      with ((h ++ b) ++ SEMI ::
            ([LF] ++ join [LF] (List.map (fun b => b ++ [SEMI]) (b2 :: bs))
                  ++ t))
      by (rewrite <- !app_assoc; reflexivity).
    rewrite contains_segment, He by assumption. cbn [orb].
    apply IH; [discriminate| |reflexivity].
    intros b' Hin. apply Hb. right. exact Hin.
Qed.

(** Replacing the wildcard import by such a block brings in no statement
    [p;], and leaves no wildcard import. *)
Lemma replace_wildcard_contains (p : text) (bodies : list text) (c : text) :
  no_semi p = true -> bodies <> [] ->
  (forall b, In b bodies ->
             no_semi b = true /\ forall h, cut_suffix p (h ++ b) = None) ->
  p = WILD_BODY \/ contains (p ++ [SEMI]) c = false ->
  contains (p ++ [SEMI])
    (str_replace WILDCARD
       (join [LF] (List.map (fun b => b ++ [SEMI]) bodies)) c)
  = false.
Proof.
  intros Hp Hne Hb. rewrite wildcard_body.
  induction c as [g Hg|g rest Hg IH] using segment_ind; intros H.
  - rewrite str_replace_no_semi by exact Hg. apply contains_no_semi, Hg.
  - assert (Hrest : p = WILD_BODY \/ contains (p ++ [SEMI]) rest = false).
    { destruct H as [H|H]; [left; exact H|right].
      rewrite contains_segment in H by assumption.
      apply orb_false_iff in H as [_ H]. exact H. }
    specialize (IH Hrest).
    rewrite str_replace_segment by (try apply wild_no_semi; exact Hg).
    destruct (cut_suffix WILD_BODY g) as [h|] eqn:E.
    + apply cut_suffix_Some in E. subst g. rewrite no_semi_app in Hg.
      apply andb_true_iff in Hg as [Hh _]. rewrite <- app_assoc.
      rewrite contains_after_statements by assumption. exact IH.
    + rewrite <- app_assoc. cbn [app].
      rewrite contains_segment, IH, orb_false_r by assumption.
      destruct H as [->|H]; [apply ends_in_false, E|].
      rewrite contains_segment in H by assumption.
      apply orb_false_iff in H as [H _]. exact H.
Qed.

Lemma sorted_In (x : text) (l : list text) : In x (sorted l) <-> In x l.
Proof.
  unfold sorted. rewrite <- !list_elem_of_In.
  rewrite (merge_sort_Permutation text_le l). reflexivity.
Qed.

Lemma sorted_not_nil (l : list text) : l <> [] -> sorted l <> [].
Proof.
  intros Hl E. apply Hl. apply Permutation_nil.
  rewrite <- E. unfold sorted. apply merge_sort_Permutation.
Qed.

(** The block that replaces the wildcard: the new imports of the classes
    found, in sorted order. *)
Lemma new_imports_bodies (used : list text) :
  used <> [] ->
  (forall X, In X used -> In X (dict_keys CLASS_TO_DOMAIN)) ->
  exists bodies,
    bodies <> [] /\
    new_imports used = List.map (fun b => b ++ [SEMI]) bodies /\
    forall b, In b bodies ->
              exists X d, In (X, d) CLASS_TO_DOMAIN /\ b = new_body d X.
Proof.
  intros Hne Hk.
  exists (List.map (fun X => match dict_get X CLASS_TO_DOMAIN with
                             | Some d => new_body d X
                             | None => []
                             end) (sorted used)).
  split; [|split].
  - pose proof (sorted_not_nil used Hne) as H.
    destruct (sorted used); [congruence|discriminate].
  - unfold new_imports. rewrite List.map_map. apply map_ext_in.
    intros X HX. apply sorted_In, Hk, class_domain in HX.
    destruct HX as (d & _ & ->). apply new_import_body.
  - intros b Hin. apply in_map_iff in Hin as (X & <- & HX).
    apply sorted_In, Hk, class_domain in HX.
    destruct HX as (d & Hin & ->). eauto.
Qed.

Lemma used_classes_known (c : text) (X : text) :
  In X (used_classes c) -> In X (dict_keys CLASS_TO_DOMAIN).
Proof. unfold used_classes. intros H. apply filter_In in H as [H _]. exact H. Qed.

(** What [update_content] returns holds no old import of a known class
    and, when the wildcard was expanded, no wildcard import. *)
Lemma expanded_no_old_import (c : text) (used : list text) (X : text) :
  used <> [] ->
  (forall Y, In Y used -> In Y (dict_keys CLASS_TO_DOMAIN)) ->
  In X (dict_keys CLASS_TO_DOMAIN) ->
  contains (old_import X) c = false ->
  contains (old_import X)
           (str_replace WILDCARD (join [LF] (new_imports used)) c) = false.
Proof.
  intros Hne Hk HX Hc.
  destruct (new_imports_bodies used Hne Hk) as (bodies & Hb & -> & Hall).
  destruct (class_domain X HX) as (d & Hin & _).
  rewrite old_import_body in Hc |- *.
  apply replace_wildcard_contains; [apply (bodies_no_semi X d Hin)|exact Hb| |auto].
  intros b Hbin. destruct (Hall b Hbin) as (Y & e & HY & ->).
  split; [apply (bodies_no_semi Y e HY)|].
  apply (old_not_in_new X d Y e); assumption.
Qed.

Lemma expanded_no_wildcard (c : text) (used : list text) :
  used <> [] ->
  (forall Y, In Y used -> In Y (dict_keys CLASS_TO_DOMAIN)) ->
  contains WILDCARD
           (str_replace WILDCARD (join [LF] (new_imports used)) c) = false.
Proof.
  intros Hne Hk.
  destruct (new_imports_bodies used Hne Hk) as (bodies & Hb & -> & Hall).
  rewrite wildcard_body at 1.
  apply replace_wildcard_contains; [apply wild_no_semi|exact Hb| |auto].
  intros b Hbin. destruct (Hall b Hbin) as (Y & e & HY & ->).
  split; [apply (bodies_no_semi Y e HY)|].
  apply (wild_not_in_new Y e HY).
Qed.

Lemma update_specific_none (c : text) :
  (forall X, In X (dict_keys CLASS_TO_DOMAIN) ->
             contains (old_import X) c = false) ->
  update_specific c = (c, 0).
Proof.
  intros H. apply update_specific_fixed. intros X d Hin. apply H.
  unfold dict_keys. apply in_map_iff. exists (X, d). auto.
Qed.

Lemma update_wildcard_keep (c : text) (n : nat) :
  contains WILDCARD c = false \/ used_classes c = [] ->
  update_wildcard (c, n) = (c, n).
Proof.
  intros H. unfold update_wildcard.
  destruct (contains WILDCARD c); [|reflexivity].
  destruct H as [H|H]; [discriminate|]. rewrite H. reflexivity.
Qed.

Lemma update_wildcard_cases (c : text) (n : nat) :
  (fst (update_wildcard (c, n)) = c
   /\ (contains WILDCARD c = false \/ used_classes c = []))
  \/ (used_classes c <> []
      /\ fst (update_wildcard (c, n))
         = str_replace WILDCARD (join [LF] (new_imports (used_classes c))) c).
Proof.
  unfold update_wildcard.
  destruct (contains WILDCARD c); [|left; auto].
  destruct (used_classes c) as [|X0 used]; [left; auto|right].
  split; [discriminate|reflexivity].
Qed.

(** The content [update_content] returns is a fixed point, with count 0. *)
Lemma update_content_fixed (c : text) :
  update_content (fst (update_content c)) = (fst (update_content c), 0).
Proof.
  assert (K1 : forall X, In X (dict_keys CLASS_TO_DOMAIN) ->
                 contains (old_import X) (fst (update_specific c)) = false)
    by (intros X HX; rewrite update_specific_content;
        apply replace_imports_complete, HX).
  assert (E : update_content c
              = update_wildcard (fst (update_specific c),
                                 snd (update_specific c)))
    by (unfold update_content; destruct (update_specific c); reflexivity).
  rewrite E. clear E. revert K1.
  generalize (fst (update_specific c)) (snd (update_specific c)).
  clear c. intros c1 n K1.
  destruct (update_wildcard_cases c1 n) as [[-> H]|[Hne ->]].
  - unfold update_content. rewrite (update_specific_none c1 K1).
    apply update_wildcard_keep, H.
  - assert (Hk : forall Y, In Y (used_classes c1) ->
                           In Y (dict_keys CLASS_TO_DOMAIN))
      by apply used_classes_known.
    unfold update_content. rewrite update_specific_none.
    + apply update_wildcard_keep. left.
      apply expanded_no_wildcard; assumption.
    + intros X HX. apply expanded_no_old_import; auto.
Qed.

Lemma fst_of_pair {A B} (x : A * B) (a : A) (b : B) : x = (a, b) -> fst x = a.
Proof. intros ->. reflexivity. Qed.

Lemma update_content_fixed_fst (c : text) :
  fst (update_content (fst (update_content c))) = fst (update_content c).
Proof. exact (fst_of_pair _ _ _ (update_content_fixed c)). Qed.

(** ** The order of the new imports *)

Lemma text_leb_total (a b : text) : text_leb a b = true \/ text_leb b a = true.
Proof.
  revert b. induction a as [|x a IH]; intros [|y b]; cbn [text_leb]; auto.
  destruct (N.lt_trichotomy x y) as [H|[->|H]].
  - left. apply N.ltb_lt in H. rewrite H. reflexivity.
  - rewrite N.ltb_irrefl, N.eqb_refl. cbn [orb andb]. apply IH.
  - right. apply N.ltb_lt in H. rewrite H. reflexivity.
Qed.

Lemma text_leb_trans (a b c : text) :
  text_leb a b = true -> text_leb b c = true -> text_leb a c = true.
Proof.
  revert b c. induction a as [|x a IH]; intros [|y b] [|z c];
    cbn [text_leb]; try reflexivity; try discriminate.
  rewrite !orb_true_iff, !andb_true_iff, !N.ltb_lt, !N.eqb_eq.
  intros [H1|[-> H1]] [H2|[-> H2]].
  - left. lia.
  - left. exact H1.
  - left. exact H2.
  - right. split; [reflexivity|]. exact (IH b c H1 H2).
Qed.

#[local] Instance text_le_total : Total text_le.
Proof. intros a b. apply text_leb_total. Qed.

#[local] Instance text_le_trans : Transitive text_le.
Proof. intros a b c. apply text_leb_trans. Qed.

Lemma sorted_sorted (l : list text) : StronglySorted text_le (sorted l).
Proof. apply StronglySorted_merge_sort; typeclasses eauto. Qed.

Lemma sorted_Permutation (l : list text) : Permutation (sorted l) l.
Proof. apply merge_sort_Permutation. Qed.

Lemma used_classes_nodup (c : text) : List.NoDup (used_classes c).
Proof. unfold used_classes. apply List.NoDup_filter, classes_nodup. Qed.

Lemma new_imports_import_of (used : list text) :
  new_imports used = List.map import_of (sorted used).
Proof.
  unfold new_imports. apply map_ext. intros X. unfold import_of.
  destruct (dict_get X CLASS_TO_DOMAIN); reflexivity.
Qed.

Lemma import_of_known (X : text) :
  In X (dict_keys CLASS_TO_DOMAIN) ->
  exists d, In (X, d) CLASS_TO_DOMAIN /\ import_of X = new_import d X.
Proof.
  intros HX. destruct (class_domain X HX) as (d & Hin & E).
  exists d. split; [exact Hin|]. unfold import_of. rewrite E. reflexivity.
Qed.

Lemma update_wildcard_expand (c : text) (n : nat) :
  contains WILDCARD c = true -> used_classes c <> [] ->
  update_wildcard (c, n)
  = (str_replace WILDCARD (join [LF] (new_imports (used_classes c))) c,
     n + length (new_imports (used_classes c))).
Proof.
  intros H1 H2. unfold update_wildcard. rewrite H1.
  destruct (used_classes c); [congruence|reflexivity].
Qed.

Lemma update_content_eq (c : text) :
  update_content c
  = update_wildcard (fst (update_specific c), snd (update_specific c)).
Proof. unfold update_content. destruct (update_specific c); reflexivity. Qed.

Lemma pair_eq_fst_snd {A B} (x : A * B) (a : A) (b : B) :
  x = (a, b) -> fst x = a /\ snd x = b.
Proof. intros ->. auto. Qed.
(** ** A live run on a migrated tree *)

Lemma pricing_not_java : is_java PRICING_DIR = false.
Proof. reflexivity. Qed.

Lemma updated_not_java (m : gmap path node) (p : path) :
  is_java p = false -> updated m p = m !! p.
Proof. intros H. unfold updated. rewrite H, andb_false_r. reflexivity. Qed.

Lemma updated_None (m : gmap path node) (p : path) :
  m !! p = None -> updated m p = None.
Proof.
  intros H. unfold updated. rewrite H.
  destruct (below BASE_DIR p && is_java p); reflexivity.
Qed.

Lemma updated_Dir (m : gmap path node) (p : path) :
  updated m p = Some Dir -> m !! p = Some Dir.
Proof.
  unfold updated. destruct (below BASE_DIR p && is_java p); [|auto].
  destruct (m !! p) as [[|c]|]; auto; discriminate.
Qed.

Lemma migrated_live_ready (m : gmap path node) :
  migrated m -> live_ready m = true.
Proof.
  intros (Hp & Hd & Hs & Hu & _). unfold live_ready.
  rewrite !andb_true_iff. split; [split; [split|]|].
  - destruct (m !! PRICING_DIR); [reflexivity|congruence].
  - apply create_ready_all_dirs, Hd.
  - unfold move_ready. apply forallb_forall. intros [d f] Hin.
    rewrite (Hs d f Hin). reflexivity.
  - exact Hu.
Qed.

(** A live run that completes leaves a migrated tree. *)
Lemma live_run_migrated (w wA wB wC w1 : world) (n fu : nat) :
  live_ready (fs w) = true ->
  live_run w wA wB wC w1 n fu ->
  migrated (fs w1).
Proof.
  intros Hready L.
  destruct (live_ready_spec _ Hready) as (Hp & Hc & Hm & Hu).
  destruct L as (A1 & A2 & A3 & HJ & C1 & C2 & C3 & [N1 N2] & _).
  assert (HmA : move_ready (fs wA) = true)
    by (eapply move_ready_after_create; eauto).
  assert (HuB : update_ready (fs wB) = true).
  { apply (update_ready_after_move wA n wB); [|exact HmA|exact HJ].
    eapply update_ready_after_create; eauto. }
  pose proof HJ as (J1 & J2 & J3 & _).
  rewrite N1. split; [|split; [|split; [|split]]].
  - rewrite C1, updated_not_java by apply pricing_not_java.
    rewrite J3.
    + rewrite A2; [exact Hp|]. intros d _. apply pricing_not_domain_dir.
    + intros d f _. split; [apply pricing_not_source|].
      intros _. apply pricing_not_dest.
  - intros d Hd. rewrite C1, updated_not_java by (apply domain_dir_not_java, Hd).
    apply (moved_dir_kept wA n wB _ HmA HJ), A1, Hd.
  - intros d f Hin. rewrite C1. apply updated_None, (J1 d f Hin).
  - apply update_ready_iff. intros p Hj E. rewrite C1 in E.
    apply updated_Dir in E.
    apply (proj1 (update_ready_iff (fs wB)) HuB p Hj E).
  - intros p c Hj E. rewrite C1 in E. unfold updated in E. rewrite Hj in E.
    destruct (fs wB !! p) as [[|c0]|]; try discriminate.
    injection E as <-. apply update_content_fixed_fst.
Qed.

Lemma source_cases (p : path) :
  (exists d f, In (d, f) domain_files /\ p = source_of f)
  \/ (forall d f, In (d, f) domain_files -> p <> source_of f).
Proof.
  destruct (decide (Exists (fun e : text * text => p = source_of (snd e))
                           domain_files)) as [H|H].
  - left. apply Exists_exists in H as ([d f] & Hin & ->).
    exists d, f. split; [apply list_elem_of_In, Hin|reflexivity].
  - right. intros d f Hin E. apply H, Exists_exists. exists (d, f).
    split; [apply list_elem_of_In, Hin|exact E].
Qed.

(** On a migrated tree a live run changes nothing. *)
Lemma migrated_run (w wA wB wC w1 : world) (n fu : nat) :
  migrated (fs w) ->
  live_run w wA wB wC w1 n fu ->
  fs w1 = fs w /\ log w1 = log w /\ n = 0 /\ fu = 0.
Proof.
  intros (Hp & Hd & Hs & Hu & Hf) L.
  destruct L as (A1 & A2 & A3 & HJ & C1 & C2 & C3 & [N1 N2] & _).
  destruct HJ as (J1 & J2 & J3 & J4 & J5 & _).
  assert (EA : fs wA = fs w).
  { apply map_eq. intros p.
    destruct (domain_dir_cases p) as [(d & Hin & ->)|Hn].
    - rewrite (A1 d Hin), (Hd d Hin). reflexivity.
    - apply A2, Hn. }
  assert (LA : log wA = log w).
  { rewrite A3, flat_map_nil; [apply app_nil_r|].
    intros d Hin. unfold mkdir_log. rewrite (Hd d Hin). reflexivity. }
  assert (EB : fs wB = fs wA).
  { apply map_eq. intros p.
    destruct (source_cases p) as [(d & f & Hin & ->)|Hn].
    - rewrite (J1 d f Hin), EA, (Hs d f Hin). reflexivity.
    - apply J3. intros d f Hin. split; [apply (Hn d f Hin)|].
      rewrite EA, (Hs d f Hin). congruence. }
  assert (LB : log wB = log wA).
  { rewrite J5, flat_map_nil; [apply app_nil_r|].
    intros [d f] Hin. unfold move_log. rewrite EA, (Hs d f Hin).
    reflexivity. }
  assert (Hn : n = 0).
  { rewrite J4. replace (List.filter (present_in (fs wA)) domain_files)
      with (@nil (text * text)); [reflexivity|].
    symmetry. rewrite EA. clear -Hs.
    induction domain_files as [|[d f] l IH]; [reflexivity|].
    cbn [List.filter]. unfold present_in at 1. cbn [snd].
    rewrite (Hs d f) by (left; reflexivity). cbn [is_present].
    apply IH. intros d' f' Hin. apply (Hs d' f'). right. exact Hin. }
  assert (EC : fs wC = fs wB).
  { apply map_eq. intros p. rewrite C1. unfold updated.
    destruct (below BASE_DIR p && is_java p) eqn:Hj; [|reflexivity].
    destruct (fs wB !! p) as [[|c]|] eqn:E; try reflexivity.
    rewrite EB, EA in E. rewrite (Hf p c Hj E). reflexivity. }
  assert (LU : flat_map (update_log (fs wB)) (java_files (fs wB)) = []).
  { apply flat_map_nil. intros p Hin. apply java_files_spec in Hin as [Hj _].
    unfold update_log. destruct (fs wB !! p) as [[|c]|] eqn:E; try reflexivity.
    rewrite EB, EA in E. rewrite (Hf p c Hj E), text_eqb_refl. reflexivity. }
  split; [congruence|]. split; [|split; [exact Hn|]].
  - rewrite N2, C2, LU, app_nil_r. congruence.
  - rewrite C3, LU. reflexivity.
Qed.
(** ** The claims *)

(** C9.  The Domain Table lists 33 filenames, no filename twice (so each
    under exactly one domain); the Class-to-Domain Index has 33 entries
    with distinct class names, and it is the table entry by entry: the
    class of each file, mapped to the domain of that file. *)
Theorem domain_table_index_bijection :
  length domain_files = 33 /\
  NoDup (List.map snd domain_files) /\
  length CLASS_TO_DOMAIN = 33 /\
  NoDup (dict_keys CLASS_TO_DOMAIN) /\
  CLASS_TO_DOMAIN
  = List.map (fun '(domain, filename) => (classname_of filename, domain))
             domain_files /\
  Forall (fun '(domain, filename) =>
            filename = classname_of filename ++ str ".java" /\
            dict_get (classname_of filename) CLASS_TO_DOMAIN = Some domain)
         domain_files.
Proof.
  split; [reflexivity|]. split.
  { apply (bool_decide_unpack _). vm_compute. exact I. }
  split; [reflexivity|]. split.
  { apply (bool_decide_unpack _). vm_compute. exact I. }
  split; [vm_compute; reflexivity|].
  apply Forall_forall. intros [domain filename] Hin.
  assert (A : forallb (fun '(domain, filename) =>
                         text_eqb filename (classname_of filename ++ str ".java")
                         && match dict_get (classname_of filename) CLASS_TO_DOMAIN
                            with
                            | Some d => text_eqb d domain
                            | None => false
                            end)
                      domain_files = true) by (vm_compute; reflexivity).
  rewrite forallb_forall in A. apply list_elem_of_In in Hin.
  specialize (A _ Hin). lazy beta iota in A.
  apply andb_true_iff in A as [A1 A2]. apply text_eqb_eq in A1.
  split; [exact A1|].
  destruct (dict_get (classname_of filename) CLASS_TO_DOMAIN); [|discriminate].
  apply text_eqb_eq in A2. congruence.
Qed.


(** C10.  The pattern matches exactly at the start of a line that begins
    with the keyword, white space, [com.meatrics.pricing], optional white
    space and a semicolon; it never matches a declaration of a domain
    package; and rewriting an already rewritten content changes nothing. *)
Theorem rewrite_package_idempotent :
  (forall (prev : option char) (s rest : text),
     match_here package_re prev s = Some rest
     <-> at_bol prev = true /\ Declaration s rest) /\
  (forall (prev : option char) (domain rest : text),
     match_here package_re prev (new_declaration domain ++ rest) = None) /\
  (forall d1 d2 content : text,
     In d1 (dict_keys DOMAINS) ->
     rewrite_package d2 (rewrite_package d1 content)
     = rewrite_package d1 content).
Proof.
  split; [apply match_package_Declaration|].
  split; [intros; apply qualified_not_matched|].
  apply rewrite_package_idem.
Qed.

(** C4.  A run in preview mode creates, writes and deletes nothing: the
    tree after the run is the tree before it and no mutation is logged,
    whatever the tree, the input and the way the run ends. *)
Theorem dry_run_no_mutation (argv : list text) (i : input_result) (w : world) :
  existsb (text_eqb (str "--dry-run")) argv = true ->
  fs (fst (script argv i w)) = fs w /\ log (fst (script argv i w)) = log w.
Proof.
  intros H.
  exact (no_mutation_trans _ _ _ (ro_main_dry argv i H w) (script_world argv i w)).
Qed.

(** C6.  The exit status is zero when [main] completes and when the
    confirmation is declined (nothing is changed then); it is non-zero when
    the pricing directory is missing (nothing is changed) and when [main]
    is left by a runtime error, in which case the message and the trace are
    printed. *)
Theorem exit_status (argv : list text) (i : input_result) (w : world) :
  (forall w', main argv i w = (w', inr tt) -> script argv i w = (w', 0)) /\
  (forall response,
     existsb (text_eqb (str "--dry-run")) argv = false ->
     fs w !! PRICING_DIR <> None ->
     i = Line response ->
     str_lower response <> str "yes" ->
     snd (script argv i w) = 0 /\ no_mutation w (fst (script argv i w))) /\
  (fs w !! PRICING_DIR = None ->
   snd (script argv i w) = 1 /\ no_mutation w (fst (script argv i w))) /\
  (forall w' e,
     main argv i w = (w', inl (Exception e)) ->
     snd (script argv i w) = 1 /\
     out (fst (script argv i w)) = out w' ++ [ErrorMessage e; Traceback e]).
Proof.
  split; [|split; [|split]].
  - intros w' H. unfold script. rewrite H. reflexivity.
  - intros response Hdry Hex -> Hno.
    destruct (main_declined argv response w Hdry Hex Hno) as (w' & Hm & Hw).
    unfold script. rewrite Hm. split; [reflexivity|exact Hw].
  - intros Hex.
    destruct (main_missing argv i w Hex) as (w' & Hm & Hw).
    unfold script. rewrite Hm. split; [reflexivity|exact Hw].
  - intros w' e H. unfold script. rewrite H. split; [reflexivity|].
    run_gate. rewrite <- app_assoc. reflexivity.
Qed.

(** C7.  In a confirmed live run on a tree on which the run can complete,
    the process ends with status zero whichever configured files are
    missing.  The move stage makes, for each configured file that is
    there and in the order of the table, one write to the destination and
    one removal of the source, and nothing for a missing file; the moved
    total counts the files that were there; and a warning is printed for
    every missing file. *)
Theorem missing_files_are_skipped (argv : list text) (response : text)
    (w : world) :
  existsb (text_eqb (str "--dry-run")) argv = false ->
  str_lower response = str "yes" ->
  live_ready (fs w) = true ->
  exists (w1 : world) (writes : list mutation),
    script argv (Line response) w = (w1, 0) /\
    log w1 = log w ++ flat_map (mkdir_log (fs w)) (dict_keys DOMAINS)
             ++ flat_map (move_log (fs w)) domain_files ++ writes /\
    In (TotalMoved (length (List.filter (present_in (fs w)) domain_files)))
       (out w1) /\
    In (SummaryMoved (length (List.filter (present_in (fs w)) domain_files)))
       (out w1) /\
    (forall d f,
       In (d, f) domain_files -> fs w !! source_of f = None ->
       In (WarnNotFound f) (out w1) /\ move_log (fs w) (d, f) = []
       /\ present_in (fs w) (d, f) = false).
Proof.
  intros Hdry Hyes Hready.
  destruct (main_live argv response w Hdry Hyes Hready)
    as (wA & wB & wC & w1 & n & fu & Hrun & L).
  destruct L as (A1 & A2 & A3 & HJ & C1 & C2 & C3 & [N1 N2]
                 & O1 & O2 & O3 & O4 & O5).
  destruct HJ as (J1 & J2 & J3 & J4 & J5 & J6 & J7).
  assert (Hsrc : forall d f, In (d, f) domain_files ->
                             fs wA !! source_of f = fs w !! source_of f).
  { intros d f Hin. apply A2. intros d' Hd' E. apply domain_dir_inj in E.
    apply (domain_not_filename d' f d Hd' Hin). auto. }
  destruct (move_log_same_sources (fs w) (fs wA) domain_files Hsrc) as [E1 E2].
  rewrite E1 in J5. rewrite E2 in J4. subst n.
  exists w1, (flat_map (update_log (fs wB)) (java_files (fs wB))).
  split; [unfold script; rewrite Hrun; reflexivity|].
  split; [rewrite N2, C2, J5, A3, <- !app_assoc; reflexivity|].
  split; [exact O1|]. split; [exact O2|].
  intros d f Hin Hmiss. split; [|split].
  - apply O5. apply (J6 d f Hin). rewrite (Hsrc d f Hin). exact Hmiss.
  - unfold move_log. rewrite Hmiss. reflexivity.
  - unfold present_in. cbn [snd]. rewrite Hmiss. reflexivity.
Qed.

(** C8.  The import stage writes a file exactly when the transformed
    content differs from the original: its mutations are one write per
    changed [*.java] file, the files-updated count is the number of these
    writes, and a file whose content is unchanged is neither written nor
    reported and keeps its content. *)
Theorem import_stage_writes_only_changes (w : world) :
  update_ready (fs w) = true ->
  exists (w' : world) (files_updated imports_updated : nat)
         (written : list mutation) (reported : list msg),
    update_imports false w = (w', inr (files_updated, imports_updated)) /\
    log w' = log w ++ written /\
    out w' = out w ++ [Step 3] ++ reported
             ++ [FilesUpdated files_updated; ImportsUpdated imports_updated] /\
    files_updated = length written /\
    (forall mu, In mu written ->
       exists p content,
         fs w !! p = Some (File content) /\
         fst (update_content content) <> content /\
         mu = Write p (fst (update_content content))) /\
    (forall x, In x reported ->
       exists p content,
         fs w !! p = Some (File content) /\
         fst (update_content content) <> content /\
         x = Updated p (snd (update_content content))) /\
    (forall p content,
       fs w !! p = Some (File content) ->
       fst (update_content content) = content ->
       fs w' !! p = Some (File content)) /\
    (forall p content,
       fs w !! p = Some (File content) ->
       In p (java_files (fs w)) ->
       fst (update_content content) <> content ->
       In (Write p (fst (update_content content))) written /\
       fs w' !! p = Some (File (fst (update_content content)))).
Proof.
  intros Hready.
  destruct (update_live w Hready) as (w' & fu & iu & Hrun & U1 & U2 & U3 & U4).
  exists w', fu, iu, (flat_map (update_log (fs w)) (java_files (fs w))),
    (flat_map (update_out (fs w)) (java_files (fs w))).
  split; [exact Hrun|]. split; [exact U2|]. split; [exact U4|].
  split; [exact U3|]. split; [|split; [|split]].
  - intros mu Hmu. apply update_log_In in Hmu as (p & c & _ & H1 & H2 & H3).
    eauto.
  - intros x Hx. apply update_out_In in Hx as (p & c & _ & H1 & H2 & H3).
    eauto.
  - intros p c Hp Hfix. rewrite U1. unfold updated. rewrite Hp.
    destruct (below BASE_DIR p && is_java p); congruence.
  - intros p c Hp Hj Hne. split.
    + apply in_flat_map. exists p. split; [exact Hj|].
      unfold update_log. rewrite Hp.
      apply text_eqb_neq in Hne. rewrite Hne. left. reflexivity.
    + rewrite U1. unfold updated.
      apply java_files_spec in Hj as [-> _]. rewrite Hp. reflexivity.
Qed.

(** ** Further properties of the script *)

(** X1.  A content none of whose lines starts with the keyword [package]
    is written to the destination unchanged: in particular an indented
    declaration is not rewritten. *)
Theorem rewrite_package_needs_line_start (domain content : text) :
  starts_with (str "package") content = false ->
  contains (LF :: str "package") content = false ->
  rewrite_package domain content = content.
Proof.
  intros H1 H2. unfold rewrite_package, re_sub.
  apply scan_id, no_keyword_no_match; [intros _; exact H1|exact H2].
Qed.

(** X2.  A content that starts with a declaration of the old flat package,
    whatever white space (blanks, tabs, line feeds) separates its parts,
    and in which no later line starts with the keyword, becomes the
    one-line declaration of the domain package followed by the rest of
    the content, unchanged. *)
Theorem rewrite_package_normalises_declaration (domain s rest : text) :
  Declaration s rest ->
  contains (LF :: str "package") rest = false ->
  rewrite_package domain s = new_declaration domain ++ rest.
Proof.
  intros HD Hc. unfold rewrite_package, re_sub.
  rewrite (rewrite_step_decl domain None s rest eq_refl HD). f_equal.
  apply scan_id, no_keyword_no_match; [discriminate|exact Hc].
Qed.

(** X3.  On a tree where every domain directory is there or can be made,
    the directory stage of a live run makes exactly the missing ones:
    afterwards every domain directory exists, every other path is as
    before, one [mkdir] is logged per missing directory; and running the
    stage again changes nothing. *)
Theorem create_domain_packages_exist_ok (w : world) :
  create_ready (fs w) = true ->
  exists w' w'',
    create_domain_packages false w = (w', inr tt) /\
    (forall d, In d (dict_keys DOMAINS) -> fs w' !! domain_dir d = Some Dir) /\
    (forall p, (forall d, In d (dict_keys DOMAINS) -> p <> domain_dir d) ->
               fs w' !! p = fs w !! p) /\
    log w' = log w ++ flat_map (mkdir_log (fs w)) (dict_keys DOMAINS) /\
    create_domain_packages false w' = (w'', inr tt) /\
    fs w'' = fs w' /\ log w'' = log w'.
Proof.
  intros Hready.
  destruct (create_live w Hready) as (w' & Hrun & A1 & A2 & A3).
  destruct (create_again w' A1) as (w'' & Hrun' & B1 & B2).
  exists w', w''. repeat split; auto.
Qed.

(** X4.  When the pricing directory is a directory but a regular file has
    the name of a domain directory, a confirmed live run stops in the
    directory stage with [FileExistsError]: the exit status is 1, the trace
    is printed, every path of the tree keeps its node and the only
    mutations are the [mkdir]s made before. *)
Theorem file_in_place_of_domain_directory (argv : list text)
    (response : text) (w : world) :
  existsb (text_eqb (str "--dry-run")) argv = false ->
  str_lower response = str "yes" ->
  fs w !! PRICING_DIR = Some Dir ->
  (exists d c, In d (dict_keys DOMAINS)
               /\ fs w !! domain_dir d = Some (File c)) ->
  exists w1,
    script argv (Line response) w = (w1, 1) /\
    In (Traceback FileExistsError) (out w1) /\
    (forall p n, fs w !! p = Some n -> fs w1 !! p = Some n) /\
    (forall mu, In mu (log w1) ->
                In mu (log w) \/ exists d, mu = Mkdir (domain_dir d)).
Proof.
  intros Hdry Hyes Hpd Hfile.
  destruct (create_file_in_the_way (after_gate w) Hpd Hfile)
    as (w' & Hrun & K1 & K2).
  unfold script.
  rewrite (main_live_gate argv response w Hdry Hyes) by congruence.
  unfold live_stages. rewrite bind_run, Hrun.
  eexists. split; [reflexivity|]. cbn [fst]. rewrite bind_run, !print_run.
  cbn [fs log out]. split; [|split; [exact K1|exact K2]].
  cbn [fst out]. rewrite !in_app_iff. cbn [In]. auto.
Qed.


(** X6.  The move stage of a preview never fails and changes nothing,
    whatever the tree: it prints [Would move] for every configured name
    that exists in the flat package and a warning for every other one, and
    its total is the number of configured names that exist. *)
Theorem preview_move_stage (w : world) :
  exists w' n,
    move_files_and_update_packages true w = (w', inr n) /\
    no_mutation w w' /\
    n = length (List.filter (present_in (fs w)) domain_files) /\
    In (TotalMoved n) (out w') /\
    (forall d f, In (d, f) domain_files ->
                 In (if present_in (fs w) (d, f)
                     then WouldMove f d else WarnNotFound f) (out w')).
Proof.
  destruct (move_preview w) as (w' & n & Hrun & (P1 & P2 & P3 & _) & Ht).
  exists w', n. repeat split; auto; apply P1.
Qed.

(** X7.  On a tree whose domain directories exist and on which the move
    stage can run, the total a preview announces is the number of files
    the live move stage moves. *)
Theorem preview_total_is_live_total (w : world) :
  forallb (fun d => is_dir (fs w !! domain_dir d)) (dict_keys DOMAINS) = true ->
  move_ready (fs w) = true ->
  exists w1 w2 n,
    move_files_and_update_packages true w = (w1, inr n) /\
    move_files_and_update_packages false w = (w2, inr n).
Proof.
  intros Hdirs Hready.
  assert (Hpre : move_pre (fs w)).
  { split; [|exact Hready]. intros d Hd.
    rewrite forallb_forall in Hdirs. specialize (Hdirs d Hd).
    destruct (fs w !! domain_dir d) as [[|c]|]; try discriminate. reflexivity. }
  destruct (move_preview w) as (w1 & n & Hrun1 & (_ & P2 & _) & _).
  destruct (move_live w Hpre) as (w2 & n' & Hrun2 & (_ & _ & _ & J4 & _) & _).
  exists w1, w2, n. split; [exact Hrun1|]. rewrite Hrun2. congruence.
Qed.

(** X8.  Called in preview mode, the import stage opens no file: whatever
    the tree, it returns zero files and zero imports, changes nothing and
    prints only its heading and the two zero totals. *)
Theorem import_stage_preview (w : world) :
  exists w',
    update_imports true w = (w', inr (0, 0)) /\
    no_mutation w w' /\
    out w' = out w ++ [Step 3; FilesUpdated 0; ImportsUpdated 0].
Proof.
  rewrite update_preview. eexists. split; [reflexivity|].
  split; [split; reflexivity|reflexivity].
Qed.

(** X9.  When a live run gets no answer at the confirmation prompt, the
    process ends with status 1 and nothing is changed: after an interrupt
    it prints that the user aborted, after the end of the input the error
    message and the trace. *)
Theorem no_answer_at_prompt (argv : list text) (i : input_result) (w : world) :
  existsb (text_eqb (str "--dry-run")) argv = false ->
  fs w !! PRICING_DIR <> None ->
  i = Eof \/ i = Interrupt ->
  snd (script argv i w) = 1 /\
  no_mutation w (fst (script argv i w)) /\
  out (fst (script argv i w))
  = out (after_gate w)
    ++ match i with
       | Interrupt => [AbortedByUser]
       | _ => [ErrorMessage EOFError; Traceback EOFError]
       end.
Proof.
  intros Hdry Hp [->| ->]; unfold script.
  - rewrite (main_no_answer argv Eof w Hdry Hp (Exception EOFError))
      by (left; auto).
    cbn [fst snd]. rewrite bind_run, !print_run. cbn [fst fs log out].
    split; [reflexivity|]. split; [split; reflexivity|].
    rewrite <- !app_assoc. reflexivity.
  - rewrite (main_no_answer argv Interrupt w Hdry Hp KeyboardInterrupt)
      by (right; auto).
    cbn [fst snd]. rewrite print_run. cbn [fst fs log out].
    split; [reflexivity|]. split; [split; reflexivity|reflexivity].
Qed.

(** X10.  The report never fails and changes nothing.  It lists the
    domains in sorted order, each with the number of entries directly in
    its directory whose name ends in [.java], or as not created when the
    path does not exist; then the [ui] count when [ui] exists; and the
    total it prints is the sum of the counts of the domains. *)
Theorem report_lists_every_domain (w : world) :
  exists w',
    verify_structure w = (w', inr tt) /\
    no_mutation w w' /\
    out w' = out w ++ [Verifying]
             ++ flat_map (domain_report (fs w)) (sorted (dict_keys DOMAINS))
             ++ ui_report (fs w)
             ++ [TotalDomainFiles
                   (list_sum (List.map (domain_total (fs w))
                                       (sorted (dict_keys DOMAINS))))].
Proof.
  rewrite verify_structure_run. eexists. split; [reflexivity|].
  split; [split; reflexivity|reflexivity].
Qed.

(** X11.  There is no rollback.  When a directory below the base
    directory has a name ending in [.java], a confirmed live run makes the
    domain directories and moves the files, then fails in the import stage
    with [IsADirectoryError]: the exit status is 1, the trace is printed,
    and the directories made and the files moved stay so (the mutations
    are the [mkdir]s, the moves and some writes of the import stage;
    every configured source is absent at the end). *)
Theorem no_rollback_after_import_failure (argv : list text)
    (response : text) (w : world) :
  existsb (text_eqb (str "--dry-run")) argv = false ->
  str_lower response = str "yes" ->
  fs w !! PRICING_DIR <> None ->
  create_ready (fs w) = true ->
  move_ready (fs w) = true ->
  (exists p, below BASE_DIR p && is_java p = true /\ fs w !! p = Some Dir) ->
  exists (w1 : world) (writes : list mutation),
    script argv (Line response) w = (w1, 1) /\
    In (Traceback IsADirectoryError) (out w1) /\
    log w1 = log w ++ flat_map (mkdir_log (fs w)) (dict_keys DOMAINS)
             ++ flat_map (move_log (fs w)) domain_files ++ writes /\
    (forall mu, In mu writes -> exists p c, mu = Write p c) /\
    (forall d f, In (d, f) domain_files -> fs w1 !! source_of f = None).
Proof.
  intros Hdry Hyes Hp Hc Hm (p & Hj & Hdir).
  destruct (create_live (after_gate w) Hc) as (wA & HrunA & A1 & A2 & A3).
  cbn [after_gate fs log] in A2, A3.
  assert (HreadyA : move_ready (fs wA) = true)
    by (eapply move_ready_after_create; eauto).
  destruct (move_live wA (conj A1 HreadyA)) as (wB & n & HrunB & HJ & _).
  assert (HdirB : fs wB !! p = Some Dir).
  { apply (moved_dir_kept wA n wB p HreadyA HJ).
    rewrite A2; [exact Hdir|]. intros d Hd ->.
    apply andb_true_iff in Hj as [_ Hj].
    rewrite domain_dir_not_java in Hj by exact Hd. discriminate. }
  destruct (update_dir_in_the_way wB) as (wC & HrunC & K1 & (ws & K2 & K3) & _).
  { exists p. split; [|exact HdirB]. apply java_files_spec.
    split; [exact Hj|congruence]. }
  assert (Hsrc : forall d f, In (d, f) domain_files ->
                             fs wA !! source_of f = fs w !! source_of f).
  { intros d f Hin. apply A2. intros d' Hd' E. apply domain_dir_inj in E.
    apply (domain_not_filename d' f d Hd' Hin). auto. }
  destruct (move_log_same_sources (fs w) (fs wA) domain_files Hsrc) as [E1 _].
  destruct HJ as (J1 & _ & _ & _ & J5 & _).
  unfold script.
  rewrite (main_live_gate argv response w Hdry Hyes Hp).
  unfold live_stages. rewrite bind_run, HrunA, bind_run, HrunB.
  rewrite bind_run, HrunC.
  eexists _, ws. split; [reflexivity|].
  cbn [fst]. rewrite bind_run, !print_run. cbn [fst fs log out].
  split; [rewrite !in_app_iff; cbn [In]; auto|].
  split; [rewrite K2, J5, A3, E1, <- !app_assoc; reflexivity|].
  split; [exact K3|].
  intros d f Hin. apply K1. eauto.
Qed.

(** X12.  The import rewrite of one file is idempotent: applied to the
    content it has produced, it returns that content and counts no
    import.  A file the import stage has written is not written again. *)
Theorem update_content_idempotent (content : text) :
  update_content (fst (update_content content))
  = (fst (update_content content), 0).
Proof. apply update_content_fixed. Qed.

(** X13.  A second confirmed live run changes nothing.  After a live run
    that completes, a live run on the resulting tree also completes with
    status 0, makes no mutation, reports zero files moved and zero files
    updated, and warns that each configured file was not found. *)
Theorem second_live_run_changes_nothing (argv : list text)
    (response response' : text) (w : world) :
  existsb (text_eqb (str "--dry-run")) argv = false ->
  str_lower response = str "yes" ->
  str_lower response' = str "yes" ->
  live_ready (fs w) = true ->
  exists w1 w2,
    script argv (Line response) w = (w1, 0) /\
    script argv (Line response') (World (fs w1) (log w1) []) = (w2, 0) /\
    fs w2 = fs w1 /\ log w2 = log w1 /\
    In (TotalMoved 0) (out w2) /\
    In (FilesUpdated 0) (out w2) /\
    (forall d f, In (d, f) domain_files -> In (WarnNotFound f) (out w2)).
Proof.
  intros Hdry Hyes Hyes' Hready.
  destruct (main_live argv response w Hdry Hyes Hready)
    as (wA & wB & wC & w1 & n & fu & Hrun & L).
  pose proof (live_run_migrated w wA wB wC w1 n fu Hready L) as Hmig.
  destruct (main_live argv response' (World (fs w1) (log w1) []) Hdry Hyes'
              (migrated_live_ready _ Hmig))
    as (wA' & wB' & wC' & w2 & n' & fu' & Hrun' & L').
  destruct (migrated_run _ wA' wB' wC' w2 n' fu' Hmig L')
    as (E1 & E2 & -> & ->).
  exists w1, w2. unfold script. rewrite Hrun, Hrun'.
  split; [reflexivity|]. split; [reflexivity|].
  split; [exact E1|]. split; [exact E2|].
  destruct L' as (_ & A2 & _ & HJ & _ & _ & _ & _ & T1 & _ & T2 & _ & T3).
  split; [exact T1|]. split; [exact T2|].
  intros d f Hin. apply T3.
  destruct HJ as (_ & _ & _ & _ & _ & J6 & _). apply (J6 d f Hin).
  rewrite A2.
  - cbn [fs]. destruct Hmig as (_ & _ & Hs & _). exact (Hs d f Hin).
  - intros d' Hd' E. apply domain_dir_inj in E.
    apply (domain_not_filename d' f d Hd' Hin). auto.
Qed.

(** X14.  The first loop of the import rewrite, statement by statement.
    A text without semicolon is unchanged.  In a text cut at its first
    semicolon, a part that ends with the old import of a known class gets
    this import replaced by the new import of the class and what precedes
    it is copied, even when the import does not start a line; a part that
    does not end with an old import is copied; the rest of the text is
    treated the same way.  A content without wildcard import gets no other
    change. *)
Theorem explicit_imports_by_statement :
  (forall g, no_semi g = true -> fst (update_specific g) = g) /\
  (forall h X d rest,
     no_semi h = true -> In (X, d) CLASS_TO_DOMAIN ->
     fst (update_specific (h ++ old_import X ++ rest))
     = h ++ new_import d X ++ fst (update_specific rest)) /\
  (forall g rest,
     no_semi g = true ->
     (forall X h, In X (dict_keys CLASS_TO_DOMAIN) ->
                  g ++ [SEMI] <> h ++ old_import X) ->
     fst (update_specific (g ++ SEMI :: rest))
     = g ++ SEMI :: fst (update_specific rest)) /\
  (forall content,
     contains WILDCARD content = false ->
     update_content content = update_specific content).
Proof.
  split; [|split; [|split]].
  - intros g Hg. rewrite update_specific_content.
    apply replace_imports_no_semi, Hg.
  - intros h X d rest Hh Hin. rewrite !update_specific_content.
    destruct (bodies_no_semi X d Hin) as [Ho _].
    assert (Hg : no_semi (h ++ old_body X) = true)
      by (rewrite no_semi_app, Hh, Ho; reflexivity).
    destruct (replace_imports_segment (h ++ old_body X) rest Hg) as [E _].
    rewrite old_import_body, new_import_body.
    replace (h ++ (old_body X ++ [SEMI]) ++ rest)
      with ((h ++ old_body X) ++ SEMI :: rest)
      by (rewrite <- !app_assoc; reflexivity).
    rewrite E, (replace_bodies_hit X d h Hin), <- !app_assoc. reflexivity.
  - intros g rest Hg Hno. rewrite !update_specific_content.
    destruct (replace_imports_segment g rest Hg) as [E _].
    rewrite E, replace_bodies_miss; [reflexivity|].
    intros X d Hin. apply cut_suffix_None. intros h Eg.
    apply (Hno X h (class_in_keys X d Hin)).
    apply ends_with_old_import, Eg.
  - intros c Hc. rewrite update_content_eq.
    rewrite update_wildcard_keep.
    + destruct (update_specific c); reflexivity.
    + left. rewrite update_specific_content, replace_imports_wildcard.
      exact Hc.
Qed.

(** X15.  The count of the first loop is the number of known classes whose
    old import occurs in the original content: a class imported twice counts
    once, whatever the number of statements replaced. *)
Theorem explicit_import_count (content : text) :
  snd (update_specific content)
  = length (List.filter (fun X => contains (old_import X) content)
                        (dict_keys CLASS_TO_DOMAIN)).
Proof.
  unfold update_specific.
  rewrite update_specific_count_fold; [|auto|apply classes_nodup].
  apply (length_filter_keys (fun X => contains (old_import X) content)).
Qed.

(** X16.  The wildcard import.  For a content with the wildcard import of
    the old package, let [used] be the known classes found, between word
    boundaries, in the content after the first loop.  If there is none,
    the wildcard import stays.  Otherwise every wildcard import is
    replaced by the new imports of the classes of [used], each class once,
    in increasing order, one per line; no wildcard import is left and the
    count grows by the number of classes. *)
Theorem wildcard_import_expanded (content : text) :
  contains WILDCARD content = true ->
  (used_classes (fst (update_specific content)) = [] ->
   update_content content = update_specific content) /\
  (used_classes (fst (update_specific content)) <> [] ->
   fst (update_content content)
   = str_replace WILDCARD
       (join [LF]
          (List.map import_of
             (sorted (used_classes (fst (update_specific content))))))
       (fst (update_specific content)) /\
   snd (update_content content)
   = snd (update_specific content)
     + length (used_classes (fst (update_specific content))) /\
   StronglySorted text_le
     (sorted (used_classes (fst (update_specific content)))) /\
   Permutation (sorted (used_classes (fst (update_specific content))))
               (used_classes (fst (update_specific content))) /\
   List.NoDup (used_classes (fst (update_specific content))) /\
   (forall X, In X (used_classes (fst (update_specific content))) ->
              exists d, In (X, d) CLASS_TO_DOMAIN
                        /\ import_of X = new_import d X) /\
   contains WILDCARD (fst (update_content content)) = false).
Proof.
  intros Hc.
  assert (Hc1 : contains WILDCARD (fst (update_specific content)) = true)
    by (rewrite update_specific_content, replace_imports_wildcard; exact Hc).
  rewrite update_content_eq. split.
  - intros Hu. rewrite update_wildcard_keep by (right; exact Hu).
    destruct (update_specific content); reflexivity.
  - intros Hu.
    assert (Hk : forall Y, In Y (used_classes (fst (update_specific content)))
                           -> In Y (dict_keys CLASS_TO_DOMAIN))
      by apply used_classes_known.
    destruct (pair_eq_fst_snd _ _ _
                (update_wildcard_expand _ (snd (update_specific content))
                                        Hc1 Hu)) as [-> ->].
    split; [rewrite new_imports_import_of; reflexivity|].
    split.
    { f_equal. rewrite new_imports_import_of, length_map.
      apply Permutation_length, sorted_Permutation. }
    split; [apply sorted_sorted|]. split; [apply sorted_Permutation|].
    split; [apply used_classes_nodup|].
    split; [intros X HX; apply import_of_known, Hk, HX|].
    apply expanded_no_wildcard; assumption.
Qed.

(** X17.  Whatever the content, the content the import rewrite returns
    holds no old import of a known class. *)
Theorem no_old_import_left (content X : text) :
  In X (dict_keys CLASS_TO_DOMAIN) ->
  contains (old_import X) (fst (update_content content)) = false.
Proof.
  intros HX.
  assert (K1 : contains (old_import X) (fst (update_specific content)) = false)
    by (rewrite update_specific_content; apply replace_imports_complete, HX).
  rewrite update_content_eq.
  destruct (update_wildcard_cases (fst (update_specific content))
                                  (snd (update_specific content)))
    as [[-> _]|[Hne ->]]; [exact K1|].
  apply expanded_no_old_import; auto. apply used_classes_known.
Qed.
End Unicode.

(** ** Concrete runs *)



Lemma rewrite_package_idempotent_witness :
  In (str "customer") (dict_keys DOMAINS) /\
  rewrite_package ascii_alnum_only (str "rule")
    (rewrite_package ascii_alnum_only (str "customer") two_declarations)
  = rewrite_package ascii_alnum_only (str "customer") two_declarations.
Proof.
  split; [left; reflexivity|].
  apply (proj2 (proj2 (rewrite_package_idempotent ascii_alnum_only))).
  left; reflexivity.
Defined.

Lemma dry_run_no_mutation_witness :
  existsb (text_eqb (str "--dry-run")) [str "refactor.py"; str "--dry-run"]
  = true /\
  fs (fst (script ascii_alnum_only ascii_lower
             [str "refactor.py"; str "--dry-run"] Eof sample_world))
  = fs sample_world /\
  log (fst (script ascii_alnum_only ascii_lower
              [str "refactor.py"; str "--dry-run"] Eof sample_world))
  = log sample_world.
Proof.
  split; [reflexivity|].
  apply (dry_run_no_mutation ascii_alnum_only ascii_lower). reflexivity.
Defined.

Lemma exit_status_witness :
  (main ascii_alnum_only ascii_lower [str "refactor.py"] (Line (str "YES"))
        sample_world
   = (fst (main ascii_alnum_only ascii_lower [str "refactor.py"]
                (Line (str "YES")) sample_world), inr tt)
   /\ script ascii_alnum_only ascii_lower [str "refactor.py"]
             (Line (str "YES")) sample_world
      = (fst (main ascii_alnum_only ascii_lower [str "refactor.py"]
                   (Line (str "YES")) sample_world), 0)) /\
  (snd (script ascii_alnum_only ascii_lower [str "refactor.py"]
               (Line (str "no")) sample_world) = 0
   /\ no_mutation sample_world
        (fst (script ascii_alnum_only ascii_lower [str "refactor.py"]
                     (Line (str "no")) sample_world))) /\
  (snd (script ascii_alnum_only ascii_lower [str "refactor.py"]
               (Line (str "yes")) (World ∅ [] [])) = 1
   /\ no_mutation (World ∅ [] [])
        (fst (script ascii_alnum_only ascii_lower [str "refactor.py"]
                     (Line (str "yes")) (World ∅ [] [])))) /\
  (snd (script ascii_alnum_only ascii_lower [str "refactor.py"] Eof
               sample_world) = 1
   /\ out (fst (script ascii_alnum_only ascii_lower [str "refactor.py"] Eof
                       sample_world))
      = out (fst (main ascii_alnum_only ascii_lower [str "refactor.py"] Eof
                       sample_world))
        ++ [ErrorMessage EOFError; Traceback EOFError]).
Proof.
  split; [split|split; [|split]].
  - vm_compute. reflexivity.
  - apply (proj1 (exit_status ascii_alnum_only ascii_lower
                    [str "refactor.py"] (Line (str "YES")) sample_world)).
    vm_compute. reflexivity.
  - apply (proj1 (proj2 (exit_status ascii_alnum_only ascii_lower
                           [str "refactor.py"] (Line (str "no"))
                           sample_world)) (str "no")).
    + reflexivity.
    + vm_compute. discriminate.
    + reflexivity.
    + vm_compute. discriminate.
  - apply (proj1 (proj2 (proj2 (exit_status ascii_alnum_only ascii_lower
                                  [str "refactor.py"] (Line (str "yes"))
                                  (World ∅ [] []))))).
    reflexivity.
  - apply (proj2 (proj2 (proj2 (exit_status ascii_alnum_only ascii_lower
                                  [str "refactor.py"] Eof sample_world)))).
    vm_compute. reflexivity.
Defined.

Lemma missing_files_are_skipped_witness :
  existsb (text_eqb (str "--dry-run")) [str "refactor.py"] = false /\
  ascii_lower (str "YES") = str "yes" /\
  live_ready (fs sample_world) = true /\
  exists (w1 : world) (writes : list mutation),
    script ascii_alnum_only ascii_lower [str "refactor.py"]
           (Line (str "YES")) sample_world = (w1, 0) /\
    log w1 = log sample_world
             ++ flat_map (mkdir_log (fs sample_world)) (dict_keys DOMAINS)
             ++ flat_map (move_log ascii_alnum_only (fs sample_world))
                         domain_files
             ++ writes /\
    In (TotalMoved (length (List.filter (present_in (fs sample_world))
                                        domain_files))) (out w1) /\
    In (SummaryMoved (length (List.filter (present_in (fs sample_world))
                                          domain_files))) (out w1) /\
    (forall d f,
       In (d, f) domain_files -> fs sample_world !! source_of f = None ->
       In (WarnNotFound f) (out w1)
       /\ move_log ascii_alnum_only (fs sample_world) (d, f) = []
       /\ present_in (fs sample_world) (d, f) = false).
Proof.
  split; [reflexivity|]. split; [reflexivity|].
  split; [vm_compute; reflexivity|].
  apply (missing_files_are_skipped ascii_alnum_only ascii_lower);
    [reflexivity|reflexivity|vm_compute; reflexivity].
Defined.

Lemma import_stage_writes_only_changes_witness :
  update_ready (fs sample_world) = true /\
  exists (w' : world) (files_updated imports_updated : nat),
    update_imports ascii_alnum_only false sample_world
    = (w', inr (files_updated, imports_updated)).
Proof.
  split; [vm_compute; reflexivity|].
  destruct (import_stage_writes_only_changes ascii_alnum_only sample_world)
    as (w' & fu & iu & _ & _ & H & _); [vm_compute; reflexivity|].
  exists w', fu, iu. exact H.
Defined.

(** ** Concrete runs of the further properties *)

Lemma rewrite_package_needs_line_start_witness :
  starts_with (str "package") indented_declaration = false /\
  contains (LF :: str "package") indented_declaration = false /\
  rewrite_package ascii_alnum_only (str "customer") indented_declaration
  = indented_declaration.
Proof.
  split; [reflexivity|]. split; [vm_compute; reflexivity|].
  apply (rewrite_package_needs_line_start ascii_alnum_only);
    vm_compute; reflexivity.
Defined.

Lemma rewrite_package_normalises_declaration_witness :
  Declaration spaced_declaration customer_body /\
  contains (LF :: str "package") customer_body = false /\
  rewrite_package ascii_alnum_only (str "customer") spaced_declaration
  = new_declaration (str "customer") ++ customer_body.
Proof.
  assert (H : Declaration spaced_declaration customer_body).
  { exists [9%N; 32%N], [32%N].
    split; [discriminate|]. split; [reflexivity|]. split; reflexivity. }
  split; [exact H|]. split; [vm_compute; reflexivity|].
  apply (rewrite_package_normalises_declaration ascii_alnum_only);
    [exact H|vm_compute; reflexivity].
Defined.

Lemma create_domain_packages_exist_ok_witness :
  create_ready (fs sample_world) = true /\
  exists w' w'',
    create_domain_packages false sample_world = (w', inr tt) /\
    (forall d, In d (dict_keys DOMAINS) -> fs w' !! domain_dir d = Some Dir) /\
    create_domain_packages false w' = (w'', inr tt) /\
    fs w'' = fs w' /\ log w'' = log w'.
Proof.
  split; [vm_compute; reflexivity|].
  destruct (create_domain_packages_exist_ok sample_world)
    as (w' & w'' & H1 & H2 & _ & _ & H5 & H6 & H7); [vm_compute; reflexivity|].
  exists w', w''. split; [exact H1|]. split; [exact H2|].
  split; [exact H5|]. split; [exact H6|exact H7].
Defined.

Lemma file_in_place_of_domain_directory_witness :
  existsb (text_eqb (str "--dry-run")) [str "refactor.py"] = false /\
  ascii_lower (str "Yes") = str "yes" /\
  blocked_tree !! PRICING_DIR = Some Dir /\
  blocked_tree !! domain_dir (str "rule") = Some (File (str "notes")) /\
  exists w1,
    script ascii_alnum_only ascii_lower [str "refactor.py"]
           (Line (str "Yes")) (World blocked_tree [] []) = (w1, 1) /\
    In (Traceback FileExistsError) (out w1).
Proof.
  split; [reflexivity|]. split; [reflexivity|].
  split; [vm_compute; reflexivity|]. split; [vm_compute; reflexivity|].
  destruct (file_in_place_of_domain_directory ascii_alnum_only ascii_lower
              [str "refactor.py"] (str "Yes") (World blocked_tree [] []))
    as (w1 & H1 & H2 & _).
  - reflexivity.
  - reflexivity.
  - vm_compute; reflexivity.
  - exists (str "rule"), (str "notes").
    split; [right; left; reflexivity|vm_compute; reflexivity].
  - exists w1. split; [exact H1|exact H2].
Defined.


Lemma preview_total_is_live_total_witness :
  forallb (fun d => is_dir (prepared_tree !! domain_dir d))
          (dict_keys DOMAINS) = true /\
  move_ready prepared_tree = true /\
  exists w1 w2 n,
    move_files_and_update_packages ascii_alnum_only true
      (World prepared_tree [] []) = (w1, inr n) /\
    move_files_and_update_packages ascii_alnum_only false
      (World prepared_tree [] []) = (w2, inr n).
Proof.
  split; [vm_compute; reflexivity|]. split; [vm_compute; reflexivity|].
  apply (preview_total_is_live_total ascii_alnum_only
           (World prepared_tree [] [])); vm_compute; reflexivity.
Defined.

Lemma no_answer_at_prompt_witness :
  existsb (text_eqb (str "--dry-run")) [str "refactor.py"] = false /\
  fs sample_world !! PRICING_DIR <> None /\
  snd (script ascii_alnum_only ascii_lower [str "refactor.py"] Interrupt
              sample_world) = 1 /\
  no_mutation sample_world
    (fst (script ascii_alnum_only ascii_lower [str "refactor.py"] Interrupt
                 sample_world)).
Proof.
  split; [reflexivity|]. split; [vm_compute; discriminate|].
  destruct (no_answer_at_prompt ascii_alnum_only ascii_lower
              [str "refactor.py"] Interrupt sample_world)
    as (H1 & H2 & _);
    [reflexivity|vm_compute; discriminate|right; reflexivity|].
  split; [exact H1|exact H2].
Defined.

Lemma no_rollback_after_import_failure_witness :
  existsb (text_eqb (str "--dry-run")) [str "refactor.py"] = false /\
  ascii_lower (str "yes") = str "yes" /\
  java_dir_tree !! PRICING_DIR <> None /\
  create_ready java_dir_tree = true /\
  move_ready java_dir_tree = true /\
  java_dir_tree !! [str "pricing"; str "ui"; str "gen.java"] = Some Dir /\
  exists w1,
    script ascii_alnum_only ascii_lower [str "refactor.py"]
           (Line (str "yes")) (World java_dir_tree [] []) = (w1, 1) /\
    In (Traceback IsADirectoryError) (out w1) /\
    fs w1 !! source_of (str "Customer.java") = None.
Proof.
  split; [reflexivity|]. split; [reflexivity|].
  split; [vm_compute; discriminate|].
  split; [vm_compute; reflexivity|]. split; [vm_compute; reflexivity|].
  split; [vm_compute; reflexivity|].
  destruct (no_rollback_after_import_failure ascii_alnum_only ascii_lower
              [str "refactor.py"] (str "yes") (World java_dir_tree [] []))
    as (w1 & writes & H1 & H2 & _ & _ & H5).
  - reflexivity.
  - reflexivity.
  - vm_compute; discriminate.
  - vm_compute; reflexivity.
  - vm_compute; reflexivity.
  - exists [str "pricing"; str "ui"; str "gen.java"].
    split; vm_compute; reflexivity.
  - exists w1. split; [exact H1|]. split; [exact H2|].
    apply (H5 (str "customer")). left; reflexivity.
Defined.

Lemma second_live_run_changes_nothing_witness :
  existsb (text_eqb (str "--dry-run")) [str "refactor.py"] = false /\
  ascii_lower (str "yes") = str "yes" /\
  ascii_lower (str "YES") = str "yes" /\
  live_ready (fs sample_world) = true /\
  exists w1 w2,
    script ascii_alnum_only ascii_lower [str "refactor.py"]
           (Line (str "yes")) sample_world = (w1, 0) /\
    script ascii_alnum_only ascii_lower [str "refactor.py"]
           (Line (str "YES")) (World (fs w1) (log w1) []) = (w2, 0) /\
    fs w2 = fs w1 /\ log w2 = log w1 /\ In (TotalMoved 0) (out w2).
Proof.
  split; [reflexivity|]. split; [reflexivity|]. split; [reflexivity|].
  split; [vm_compute; reflexivity|].
  destruct (second_live_run_changes_nothing ascii_alnum_only ascii_lower
              [str "refactor.py"] (str "yes") (str "YES") sample_world)
    as (w1 & w2 & H1 & H2 & H3 & H4 & H5 & _);
    [reflexivity|reflexivity|reflexivity|vm_compute; reflexivity|].
  exists w1, w2. split; [exact H1|]. split; [exact H2|].
  split; [exact H3|]. split; [exact H4|exact H5].
Defined.

Lemma explicit_imports_by_statement_witness :
  no_semi [LF] = true /\
  In (str "Customer", str "customer") CLASS_TO_DOMAIN /\
  fst (update_specific
         ([LF] ++ old_import (str "Customer") ++ str " class A {}"))
  = [LF] ++ new_import (str "customer") (str "Customer")
         ++ fst (update_specific (str " class A {}")).
Proof.
  split; [reflexivity|].
  assert (H : In (str "Customer", str "customer") CLASS_TO_DOMAIN)
    by (vm_compute; left; reflexivity).
  split; [exact H|].
  apply (proj1 (proj2 (explicit_imports_by_statement ascii_alnum_only)));
    [reflexivity|exact H].
Defined.

Lemma wildcard_import_expanded_witness :
  contains WILDCARD view_source = true /\
  used_classes ascii_alnum_only (fst (update_specific view_source)) <> [] /\
  contains WILDCARD (fst (update_content ascii_alnum_only view_source))
  = false.
Proof.
  split; [vm_compute; reflexivity|].
  assert (H : used_classes ascii_alnum_only
                (fst (update_specific view_source)) <> [])
    by (vm_compute; discriminate).
  split; [exact H|].
  destruct (wildcard_import_expanded ascii_alnum_only view_source)
    as [_ K]; [vm_compute; reflexivity|].
  destruct (K H) as (_ & _ & _ & _ & _ & _ & K7). exact K7.
Defined.

Lemma no_old_import_left_witness :
  In (str "Customer") (dict_keys CLASS_TO_DOMAIN) /\
  contains (old_import (str "Customer"))
           (fst (update_content ascii_alnum_only rule_source)) = false.
Proof.
  assert (H : In (str "Customer") (dict_keys CLASS_TO_DOMAIN))
    by (vm_compute; left; reflexivity).
  split; [exact H|].
  apply (no_old_import_left ascii_alnum_only rule_source), H.
Defined.
